(** * app-autofill: the field-matching and fill engine of the content script

    A shallow embedding of the content script (the file that registers the
    capture-phase [input]/[change] listeners, resolves profile keys with
    [get], writes with [setValue] and drives [fill] from a debounced
    mutation watcher), of the earlier [content.ts] that carries the
    demographics gate, of the pieces of the browser they call, and of what
    surrounds them in the extension: the background script, the popup's
    form and the storage module.

    Conventions of the model.
    - Strings are sequences of ASCII code units; case folding and white
      space are the ASCII ones.
    - A profile is JSON data: [undefined], [null], booleans, integer
      numbers, strings, arrays and objects (an association list, first
      binding wins).  The lookup [optProp] reads own properties: the
      fields of an object, and [length] and the indices of arrays and
      strings; a key that is no own property reads [undefined].  The
      built-in prototypes belong to the runtime: [Prototypes.lookup] tells
      the lookups that stay within the data, where [optProp] is [o?.[k]],
      from those that reach an inherited member, and a statement about
      arbitrary keys is made for the former.
    - A JavaScript exception is an explicit [Throw] of the [Completion]
      type.
    - The DOM is a tree of nodes with open shadow roots; what a fill pass
      mutates (value, checkedness, [dataset], outline) lives in a store
      keyed by the node's identity.
    - The alias table [FIELD_ALIASES] is imported from a module that is
      not part of the sources; it is a parameter: keys in insertion order,
      each with its patterns, a pattern being a test on the descriptor. *)

From Stdlib Require Import String Ascii List ZArith Lia Bool Arith PeanoNat.
From Stdlib Require Import DecimalString.
Import ListNotations.
Open Scope string_scope.
Open Scope list_scope.
Open Scope nat_scope.
Set Warnings "-register-all".

(* ================================================================== *)
(** ** JavaScript strings *)
(* ================================================================== *)

Module JSString.

(** [\s] over ASCII: tab, line feed, vertical tab, form feed, carriage
    return and space. *)
Definition isSpace (c : ascii) : bool :=
  let n := nat_of_ascii c in
  ((9 <=? n) && (n <=? 13)) || (n =? 32).

(** [\d] *)
Definition isDigit (c : ascii) : bool :=
  let n := nat_of_ascii c in (48 <=? n) && (n <=? 57).

Definition digitVal (c : ascii) : Z := Z.of_nat (nat_of_ascii c) - 48.

Definition lowerChar (c : ascii) : ascii :=
  let n := nat_of_ascii c in
  if (65 <=? n) && (n <=? 90) then ascii_of_nat (n + 32) else c.

(** [s.toLowerCase()] *)
Fixpoint toLowerCase (s : string) : string :=
  match s with
  | EmptyString => EmptyString
  | String c r => String (lowerChar c) (toLowerCase r)
  end.

Fixpoint trimStart (s : string) : string :=
  match s with
  | EmptyString => EmptyString
  | String c r => if isSpace c then trimStart r else s
  end.

(** Drops the white space at the end: a character is kept when it is no
    space or when something is kept after it. *)
Fixpoint trimEnd (s : string) : string :=
  match s with
  | EmptyString => EmptyString
  | String c r =>
      match trimEnd r with
      | EmptyString => if isSpace c then EmptyString else String c EmptyString
      | r' => String c r'
      end
  end.

(** [s.trim()] *)
Definition trim (s : string) : string := trimEnd (trimStart s).

(** [s.replace(/\s+/g, " ")]: every maximal run of white space becomes
    one space. *)
Fixpoint collapseFrom (inRun : bool) (s : string) : string :=
  match s with
  | EmptyString => EmptyString
  | String c r =>
      if isSpace c then
        if inRun then collapseFrom true r
        else String " "%char (collapseFrom true r)
      else String c (collapseFrom false r)
  end.

Definition collapseSpaces (s : string) : string := collapseFrom false s.

(** [norm] of the content script:
    [(s ?? "").toLowerCase().replace(/\s+/g, " ").trim()], on a string. *)
Definition norm (s : string) : string :=
  trim (collapseSpaces (toLowerCase s)).

(** [s] begins with [p]. *)
Fixpoint isPrefix (p s : string) : bool :=
  match p with
  | EmptyString => true
  | String a p' =>
      match s with
      | EmptyString => false
      | String b s' => Ascii.eqb a b && isPrefix p' s'
      end
  end.

(** [hay.includes(needle)] *)
Fixpoint includes (hay needle : string) : bool :=
  isPrefix needle hay
  || match hay with
     | EmptyString => false
     | String _ r => includes r needle
     end.

(** [s.startsWith(p)] *)
Definition startsWith (s p : string) : bool := isPrefix p s.

(** [l.join(sep)] on strings. *)
Definition join (sep : string) (l : list string) : string :=
  String.concat sep l.

(** [s.split(".")] and the like: split at every occurrence of the
    character [d]; the result is never empty. *)
Fixpoint splitOn (d : ascii) (s : string) : list string :=
  match s with
  | EmptyString => [EmptyString]
  | String c r =>
      if Ascii.eqb c d then EmptyString :: splitOn d r
      else match splitOn d r with
           | [] => [String c EmptyString]
           | w :: ws => String c w :: ws
           end
  end.

(** [s.split(/\s+/)]: split at every maximal run of white space. *)
Fixpoint splitSpacesFrom (inRun : bool) (s : string) : list string :=
  match s with
  | EmptyString => [EmptyString]
  | String c r =>
      if isSpace c then
        if inRun then splitSpacesFrom true r
        else EmptyString :: splitSpacesFrom true r
      else match splitSpacesFrom false r with
           | [] => [String c EmptyString]
           | w :: ws => String c w :: ws
           end
  end.

Definition splitSpaces (s : string) : list string := splitSpacesFrom false s.

(** [/present/i.test(s)] *)
Definition rx_present (s : string) : bool := includes (toLowerCase s) "present".

End JSString.

Import JSString.

(* ================================================================== *)
(** ** JavaScript values and completions *)
(* ================================================================== *)

Module JS.

(** JSON data, as [JSON.parse] and the message channel deliver it. *)
Inductive Value : Type :=
| VUndef
| VNull
| VBool (b : bool)
| VNum (n : Z)
| VStr (s : string)
| VArr (items : list Value)
| VObj (fields : list (string * Value)).

(** The outcome of an evaluation that may raise. *)
Inductive Completion (A : Type) : Type :=
| Ok (a : A)
| Throw (error : string).
Arguments Ok {A} a.
Arguments Throw {A} error.

(** [v == null] *)
Definition isNullish (v : Value) : bool :=
  match v with VUndef | VNull => true | _ => false end.

(** [!!v] *)
Definition truthy (v : Value) : bool :=
  match v with
  | VUndef | VNull => false
  | VBool b => b
  | VNum n => negb (n =? 0)%Z
  | VStr s => negb (String.eqb s "")
  | VArr _ | VObj _ => true
  end.

(** [a ?? b] *)
Definition coalesce (a b : Value) : Value := if isNullish a then b else a.

Definition isArray (v : Value) : bool :=
  match v with VArr _ => true | _ => false end.

(** [String(v)] *)
Fixpoint toStr (v : Value) : string :=
  match v with
  | VUndef => "undefined"
  | VNull => "null"
  | VBool true => "true"
  | VBool false => "false"
  | VNum n => NilZero.string_of_int (Z.to_int n)
  | VStr s => s
  | VArr items =>
      join "," (map (fun x => if isNullish x then "" else toStr x) items)
  | VObj _ => "[object Object]"
  end.

Fixpoint assoc (k : string) (fields : list (string * Value)) : option Value :=
  match fields with
  | [] => None
  | (k', v) :: rest => if String.eqb k k' then Some v else assoc k rest
  end.

(** The decimal numeral [k] as an array index: ["0"], ["7"], ["12"], but
    not ["01"] or [""]. *)
Fixpoint digitsVal (acc : nat) (s : string) : option nat :=
  match s with
  | EmptyString => Some acc
  | String c r =>
      if isDigit c then digitsVal (10 * acc + (nat_of_ascii c - 48)) r else None
  end.

Definition arrayIndex (k : string) : option nat :=
  match k with
  | EmptyString => None
  | String c r =>
      if Ascii.eqb c "0"%char
      then (match r with EmptyString => Some 0 | _ => None end)
      else digitsVal 0 k
  end.

(** The own property [v[k]] of a value that is neither [undefined] nor
    [null]; [undefined] when [k] is no own property.  The members a value
    inherits from a built-in prototype are not in it: see
    [Prototypes.lookup]. *)
Definition getProp (v : Value) (k : string) : Value :=
  match v with
  | VObj fields =>
      match assoc k fields with Some x => x | None => VUndef end
  | VArr items =>
      if String.eqb k "length" then VNum (Z.of_nat (List.length items))
      else match arrayIndex k with
           | Some i => nth i items VUndef
           | None => VUndef
           end
  | VStr s =>
      if String.eqb k "length" then VNum (Z.of_nat (String.length s))
      else match arrayIndex k with
           | Some i =>
               match String.get i s with
               | Some c => VStr (String c EmptyString)
               | None => VUndef
               end
           | None => VUndef
           end
  | _ => VUndef
  end.

(** [v?.[k]], for a key that is an own property of [v] or on no prototype
    of [v]. *)
Definition optProp (v : Value) (k : string) : Value :=
  if isNullish v then VUndef else getProp v k.

End JS.

Import JS.

(* ================================================================== *)
(** ** Own properties and the built-in prototypes *)
(* ================================================================== *)

Module Prototypes.



Section Runtime.

(** The built-in prototypes ([Object.prototype], [Array.prototype],
    [String.prototype], [Number.prototype], [Boolean.prototype]) belong to
    the JavaScript runtime, not to the sources: [inherits v k] says that
    the prototype chain of the value [v] has a member named [k]. *)
Variable inherits : Value -> string -> bool.



End Runtime.

(** The members of [Object.prototype] in ECMAScript, with those of its
    Annex B. *)
Definition objectMembers : list string :=
  [ "constructor"; "hasOwnProperty"; "isPrototypeOf"; "propertyIsEnumerable";
    "toLocaleString"; "toString"; "valueOf"; "__proto__";
    "__defineGetter__"; "__defineSetter__"; "__lookupGetter__"; "__lookupSetter__" ].

(** What every value that is neither [undefined] nor [null] inherits,
    data or not: the members of [Object.prototype].  It is an instance of
    [inherits] that leaves out what arrays, strings, numbers and booleans
    inherit besides. *)
Definition objectPrototype (v : Value) (k : string) : bool :=
  negb (isNullish v) && existsb (String.eqb k) objectMembers.

(** What is known of every runtime: a value that is neither [undefined]
    nor [null] inherits at least the members of [Object.prototype]. *)
Definition standard (inherits : Value -> string -> bool) : Prop :=
  forall v k, objectPrototype v k = true -> inherits v k = true.

(** No record inside the value has an own property named [toString]:
    [String(v)] then uses the inherited [toString] and does not raise
    (a record with an own [toString] that is data cannot be converted to a
    string). *)
Fixpoint plain (v : Value) : bool :=
  match v with
  | VArr items =>
      (fix all (l : list Value) : bool :=
         match l with
         | [] => true
         | x :: rest => plain x && all rest
         end) items
  | VObj fields =>
      (fix all (fs : list (string * Value)) : bool :=
         match fs with
         | [] => true
         | (k, x) :: rest => negb (String.eqb k "toString") && plain x && all rest
         end) fields
  | _ => true
  end.

End Prototypes.

Import Prototypes.

(* ================================================================== *)
(** ** Numbers and dates of the resolver *)
(* ================================================================== *)

Module JSNum.

(** The numbers the resolver computes with: integers (milliseconds), the
    two infinities and [NaN]. *)
Inductive Num : Type :=
| NaN
| MinusInf
| Finite (z : Z)
| PlusInf.

(** [a === b] on numbers: [NaN] equals nothing. *)
Definition numEq (a b : Num) : bool :=
  match a, b with
  | MinusInf, MinusInf => true
  | PlusInf, PlusInf => true
  | Finite x, Finite y => (x =? y)%Z
  | _, _ => false
  end.

(** [a - b] *)
Definition numSub (a b : Num) : Num :=
  match a, b with
  | NaN, _ | _, NaN => NaN
  | Finite x, Finite y => Finite (x - y)
  | PlusInf, PlusInf => NaN
  | MinusInf, MinusInf => NaN
  | PlusInf, _ => PlusInf
  | MinusInf, _ => MinusInf
  | Finite _, PlusInf => MinusInf
  | Finite _, MinusInf => PlusInf
  end.

(** [v > 0] and [v < 0] *)
Definition isPositive (v : Num) : bool :=
  match v with PlusInf => true | Finite z => (0 <? z)%Z | _ => false end.

Definition isNegative (v : Num) : bool :=
  match v with MinusInf => true | Finite z => (z <? 0)%Z | _ => false end.


(** Day number of the first of month [mn] (0 = January .. 11) of year
    [y] of the proleptic Gregorian calendar, counted from 1970-01-01. *)
Definition dayOfMonthStart (y mn : Z) : Z :=
  let m := (mn + 1)%Z in
  let y' := (if (m <=? 2)%Z then y - 1 else y)%Z in
  let era := (y' / 400)%Z in
  let yoe := (y' - era * 400)%Z in
  let mp := (if (2 <? m)%Z then m - 3 else m + 9)%Z in
  let doy := ((153 * mp + 2) / 5)%Z in
  let doe := (yoe * 365 + yoe / 4 - yoe / 100 + doy)%Z in
  (era * 146097 + doe - 719468)%Z.

(** [MakeDay(year, month, date)]: months outside 0..11 carry into the
    year, days outside the month carry into the neighbouring months. *)
Definition makeDay (year month date : Z) : Z :=
  let ym := (year + month / 12)%Z in
  let mn := (month mod 12)%Z in
  (dayOfMonthStart ym mn + date - 1)%Z.

Definition msPerDay : Z := 86400000.

(** [new Date(y, mo, d).getTime()] for integers, read in a zone without
    offset (a fixed offset shifts every result alike).  A year from 0 to
    99 stands for 1900 + year. *)
Definition dateGetTime (y mo d : Z) : Z :=
  let yr := (if (0 <=? y)%Z && (y <=? 99)%Z then 1900 + y else y)%Z in
  (makeDay yr mo d * msPerDay)%Z.

End JSNum.

Import JSNum.

(* ================================================================== *)
(** ** The profile resolver: [get] *)
(* ================================================================== *)

Module Resolver.

(** [fullName] *)
Definition fullName (obj : Value) : Value :=
  let first := trim (toStr (coalesce (optProp (optProp obj "basics") "firstName") (VStr ""))) in
  let last := trim (toStr (coalesce (optProp (optProp obj "basics") "lastName") (VStr ""))) in
  let full := join " " (filter (fun x => negb (String.eqb x "")) [first; last]) in
  if String.eqb full "" then VUndef else VStr full.

(** [findLink(rx)]: [obj?.links?.find(l => rx.test(l?.label ?? ""))?.url].
    [find] is a method of arrays only: on any other value that is not
    nullish the call raises a TypeError. *)
Definition findLink (obj : Value) (rx : string -> bool) : Completion Value :=
  let links := optProp obj "links" in
  if isNullish links then Ok VUndef
  else match links with
       | VArr items =>
           match find (fun l => rx (toStr (coalesce (optProp l "label") (VStr "")))) items with
           | Some l => Ok (optProp l "url")
           | None => Ok VUndef
           end
       | _ => Throw "TypeError: obj.links.find is not a function"
       end.

Definition rx_linkedin (s : string) : bool := includes (toLowerCase s) "linkedin".
Definition rx_github (s : string) : bool := includes (toLowerCase s) "github".
Definition rx_website (s : string) : bool :=
  let l := toLowerCase s in
  includes l "website" || includes l "portfolio" || includes l "personal".

(** Two digits after a dash: [-(\d{2})]. *)
Definition dashTwoDigits (s : string) : option (Z * string) :=
  match s with
  | String d (String a (String b r)) =>
      if Ascii.eqb d "-"%char && isDigit a && isDigit b
      then Some ((10 * digitVal a + digitVal b)%Z, r)
      else None
  | _ => None
  end.

(** [s.match(/^(\d{4})(?:-(\d{2}))?(?:-(\d{2}))?/)]: the year, and the
    month and the day where they are there. *)
Definition matchDate (s : string) : option (Z * option Z * option Z) :=
  match s with
  | String a (String b (String c (String d r))) =>
      if isDigit a && isDigit b && isDigit c && isDigit d then
        let y := (1000 * digitVal a + 100 * digitVal b + 10 * digitVal c + digitVal d)%Z in
        match dashTwoDigits r with
        | Some (mo, r') =>
            match dashTwoDigits r' with
            | Some (dd, _) => Some (y, Some mo, Some dd)
            | None => Some (y, Some mo, None)
            end
        | None => Some (y, None, None)
        end
      else None
  | _ => None
  end.

(** [toTime] *)
Definition toTime (s : Value) : Num :=
  if negb (truthy s) then MinusInf
  else if rx_present (toStr s) then PlusInf
  else match matchDate (toStr s) with
       | None => MinusInf
       | Some (y, m2, m3) =>
           let mo := ((match m2 with Some v => v | None => 1 end) - 1)%Z in
           let d := (match m3 with Some v => v | None => 1 end)%Z in
           Finite (dateGetTime y mo d)
       end.

(** One entry of [scored]. *)
Record Scored : Type := mkScored {
  s_item : Value;
  s_start : Num;
  s_end : Num;
  s_ongoing : bool
}.

Definition score (item : Value) : Scored :=
  {| s_item := item;
     s_start := toTime (optProp item "start");
     s_end := toTime (optProp item "end");
     s_ongoing := negb (truthy (optProp item "end"))
                  || rx_present (toStr (optProp item "end")) |}.

(** The comparator handed to [sort]. *)
Definition eduCompare (a b : Scored) : Num :=
  if negb (Bool.eqb (s_ongoing a) (s_ongoing b)) then
    (if s_ongoing a then Finite (-1) else Finite 1)
  else if negb (numEq (s_end a) (s_end b)) then numSub (s_end b) (s_end a)
  else numSub (s_start b) (s_start a).

(** [Array.prototype.sort] with a comparator: the sort is stable, an
    element moves behind another only when the comparator is positive
    ([NaN] counts as zero).  For a consistent comparator every stable sort
    yields the same array; the model inserts from the right. *)
Section Sort.
Context {A : Type} (cmp : A -> A -> Num).

Fixpoint insertSorted (x : A) (l : list A) : list A :=
  match l with
  | [] => [x]
  | y :: r => if isPositive (cmp x y) then y :: insertSorted x r else x :: l
  end.

Definition jsSort (l : list A) : list A := fold_right insertSorted [] l.

End Sort.

(** [mostRecentEdu] *)
Definition mostRecentEdu (obj : Value) : Value :=
  let arr := match optProp obj "education" with VArr items => items | _ => [] end in
  match arr with
  | [] => VUndef
  | _ =>
      match jsSort eduCompare (map score arr) with
      | first :: _ => s_item first
      | [] => VUndef
      end
  end.

(** [s.match(/^(\d{4})-(\d{2})/)], the matched text. *)
Definition matchYearMonth (s : string) : option string :=
  match s with
  | String a (String b (String c (String d (String e (String f (String g _)))))) =>
      if isDigit a && isDigit b && isDigit c && isDigit d
         && Ascii.eqb e "-"%char && isDigit f && isDigit g
      then Some (String a (String b (String c (String d (String e (String f (String g EmptyString)))))))
      else None
  | _ => None
  end.

(** [yyyymm] *)
Definition yyyymm (s : Value) : Value :=
  if negb (truthy s) then s
  else match matchYearMonth (toStr s) with
       | Some t => VStr t
       | None => s
       end.

(** The default of the [switch]: [path.split(".").reduce((o, k) => o?.[k], obj)]. *)
Definition getPath (obj : Value) (path : string) : Value :=
  fold_left optProp (splitOn "."%char path) obj.

(** [get(obj, path)] *)
Definition get (obj : Value) (path : string) : Completion Value :=
  if String.eqb path "basics._fullName" then Ok (fullName obj)
  else if String.eqb path "links.linkedin" then findLink obj rx_linkedin
  else if String.eqb path "links.github" then findLink obj rx_github
  else if String.eqb path "links.website" then findLink obj rx_website
  else if String.eqb path "workAuth.usWorkAuthorization" then
    Ok (optProp (optProp obj "demographics") "workAuthorization")
  else if String.eqb path "workAuth.needsSponsorship" then
    Ok (optProp (optProp obj "demographics") "needsSponsorship")
  else if String.eqb path "demographics.race" then
    (let arr := optProp (optProp obj "demographics") "raceEthnicity" in
     Ok (if isArray arr then arr else VUndef))
  else if String.eqb path "demographics.veteran" then
    Ok (optProp (optProp obj "demographics") "veteranStatus")
  else if String.eqb path "education.mostRecent.school" then
    Ok (optProp (mostRecentEdu obj) "school")
  else if String.eqb path "education.mostRecent.degree" then
    Ok (optProp (mostRecentEdu obj) "degree")
  else if String.eqb path "education.mostRecent.field" then
    Ok (optProp (mostRecentEdu obj) "field")
  else if String.eqb path "education.mostRecent.start" then
    Ok (yyyymm (optProp (mostRecentEdu obj) "start"))
  else if String.eqb path "education.mostRecent.end" then
    (let val := optProp (mostRecentEdu obj) "end" in
     Ok (if rx_present (toStr val) then VStr "" else yyyymm val))
  else Ok (getPath obj path).

End Resolver.

Import Resolver.

(* ================================================================== *)
(** ** The document: nodes, shadow roots, element state, events *)
(* ================================================================== *)

Module DOM.

Inductive Tag : Type :=
| TInput | TSelect | TTextarea | TLabel | TFieldset | TLegend | TOther.

Definition tagEq (a b : Tag) : bool :=
  match a, b with
  | TInput, TInput | TSelect, TSelect | TTextarea, TTextarea
  | TLabel, TLabel | TFieldset, TFieldset | TLegend, TLegend
  | TOther, TOther => true
  | _, _ => false
  end.

(** One [<option>] of a select: its machine value and displayed text. *)
Record SelectOption : Type := mkOption {
  o_value : string;
  o_text : string
}.

(** What a fill pass reads of an element and never changes.  [uid] is
    the identity of the element (the elements of a page have distinct
    ones), [type] is [el.type], [innerText] is the rendered text of the
    element, and [offsetParent] says whether [el.offsetParent !== null]. *)
Record Elem : Type := mkElem {
  uid : nat;
  tag : Tag;
  type : string;
  attr_name : option string;
  attr_id : option string;
  attr_placeholder : option string;
  attr_ariaLabel : option string;
  attr_ariaLabelledby : option string;
  attr_for : option string;
  innerText : string;
  options : list SelectOption;
  offsetParent : bool
}.

(** A node: the element, its children, and the open shadow root it
    hosts, if any (the children of that root). *)
Inductive Node : Type :=
| mkNode (e : Elem) (children : list Node) (shadowRoot : option (list Node)).

Definition elemOf (n : Node) : Elem := match n with mkNode e _ _ => e end.
Definition childrenOf (n : Node) : list Node := match n with mkNode _ c _ => c end.
Definition shadowOf (n : Node) : option (list Node) := match n with mkNode _ _ s => s end.

(** A reference to an element as a script holds it: the node, its
    ancestors inside its own tree (nearest first; the chain ends at the
    document or at the shadow root), the roots of that tree, and whether
    the tree is the document's. *)
Record Ref : Type := mkRef {
  r_node : Node;
  r_up : list Node;
  r_root : list Node;
  r_inDocument : bool
}.

Definition el (r : Ref) : Elem := elemOf (r_node r).

(** The elements of one tree in tree order, shadow trees not entered:
    [root.querySelectorAll("*")]. *)
Fixpoint refsUnder (root : list Node) (inDoc : bool) (up : list Node) (n : Node) : list Ref :=
  match n with
  | mkNode _ children _ =>
      {| r_node := n; r_up := up; r_root := root; r_inDocument := inDoc |}
      :: flat_map (refsUnder root inDoc (n :: up)) children
  end.

Definition treeRefs (root : list Node) (inDoc : bool) : list Ref :=
  flat_map (refsUnder root inDoc []) root.

Definition isFormEl (r : Ref) : bool :=
  match tag (el r) with
  | TInput | TSelect | TTextarea => true
  | _ => false
  end.

Definition optEq (a : option string) (b : string) : bool :=
  match a with Some x => String.eqb x b | None => false end.

(** What a fill pass can change of an element. *)
Record ElState : Type := mkElState {
  value : string;
  checked : bool;
  userEdited : option string;
  autofilled : option string;
  outline : string
}.

(** The page: the document's tree, the state of every element by its
    identity, and the events dispatched so far (target and type, oldest
    first). *)
Record Page : Type := mkPage {
  document : list Node;
  props : nat -> ElState;
  events : list (nat * string)
}.

Definition stateOf (p : Page) (r : Ref) : ElState := props p (uid (el r)).

Definition update (p : Page) (u : nat) (f : ElState -> ElState) : Page :=
  {| document := document p;
     props := fun x => if Nat.eqb x u then f (props p u) else props p x;
     events := events p |}.

(** [document.querySelectorAll("*")] *)
Definition documentAll (p : Page) : list Ref := treeRefs (document p) true.

(** [document.getElementById(id)] *)
Definition getElementById (p : Page) (id : string) : option Ref :=
  if String.eqb id "" then None
  else find (fun r => optEq (attr_id (el r)) id) (documentAll p).

(** [document.querySelector(`label[for="<id>"]`)] *)
Definition queryLabelFor (p : Page) (id : string) : option Ref :=
  find (fun r => tagEq (tag (el r)) TLabel && optEq (attr_for (el r)) id) (documentAll p).

(** [document.querySelectorAll(`input[name="<name>"]`)] *)
Definition queryInputsByName (p : Page) (name : string) : list Ref :=
  filter (fun r => tagEq (tag (el r)) TInput && optEq (attr_name (el r)) name) (documentAll p).

(** [r.closest(t)]: the nearest inclusive ancestor with tag [t]. *)
Definition closest (r : Ref) (t : Tag) : option Node :=
  find (fun n => tagEq (tag (elemOf n)) t) (r_node r :: r_up r).

(** The descendants of a node in tree order. *)
Fixpoint descendants (n : Node) : list Node :=
  match n with
  | mkNode _ children _ => flat_map (fun c => c :: descendants c) children
  end.

(** [n.querySelector(t)] *)
Definition querySelectorIn (n : Node) (t : Tag) : option Node :=
  find (fun d => tagEq (tag (elemOf d)) t) (descendants n).

Definition setChecked (p : Page) (u : nat) (b : bool) : Page :=
  update p u (fun s =>
    {| value := value s; checked := b; userEdited := userEdited s;
       autofilled := autofilled s; outline := outline s |}).

Definition isType (r : Ref) (t : string) : bool :=
  tagEq (tag (el r)) TInput && String.eqb (type (el r)) t.

(** The other radio buttons of the group of [t]: the radio inputs of the
    same tree with the same non-empty name (form owners are not
    modelled). *)
Definition radioSiblings (t : Ref) : list Ref :=
  match attr_name (el t) with
  | Some n =>
      if String.eqb n "" then []
      else filter (fun r => isType r "radio" && optEq (attr_name (el r)) n
                            && negb (Nat.eqb (uid (el r)) (uid (el t))))
                  (treeRefs (r_root t) (r_inDocument t))
  | None => []
  end.

Section Events.

(** The capture listeners registered on the document: what they do to the
    page for an event of a given type at a given target. *)
Variable capture : Page -> Ref -> string -> Page.

(** [target.dispatchEvent(new Event(type, ...))] and the events a click
    fires.  The event is recorded, and the document's capture listeners
    run when the target is in the document's tree.  From inside a shadow
    tree an event either does not leave the tree or reaches the document
    with the host as its target, and a host is no form control: the
    listeners of the content script then leave the page as it is.
    Listeners of the page itself are not modelled. *)
Definition dispatchEvent (p : Page) (t : Ref) (type : string) : Page :=
  let p1 := {| document := document p; props := props p;
               events := events p ++ [(uid (el t), type)] |} in
  if r_inDocument t then capture p1 t type else p1.

(** [t.click()] on a checkbox or a radio button: the activation behaviour
    changes the checkedness and fires [click], [input] and [change]; a
    radio button that is already checked stays as it is (its [click] event
    changes nothing and is left out).  On any other control [click()]
    changes no state. *)
Definition click (p : Page) (t : Ref) : Page :=
  if isType t "checkbox" then
    let p1 := setChecked p (uid (el t)) (negb (checked (stateOf p t))) in
    dispatchEvent (dispatchEvent (dispatchEvent p1 t "click") t "input") t "change"
  else if isType t "radio" then
    if checked (stateOf p t) then p
    else
      let p1 := fold_left (fun q r => setChecked q (uid (el r)) false) (radioSiblings t) p in
      let p2 := setChecked p1 (uid (el t)) true in
      dispatchEvent (dispatchEvent (dispatchEvent p2 t "click") t "input") t "change"
  else p.

End Events.

End DOM.

Import DOM.

(* ================================================================== *)
(** ** The content script *)
(* ================================================================== *)

Module Engine.

Definition orEmpty (o : option string) : string :=
  match o with Some x => x | None => "" end.

Definition nonEmpty (x : string) : bool := negb (String.eqb x "").

(** The body of the two listeners registered at load with
    [document.addEventListener(..., true)]:
    [if (isFormEl(t)) { t.dataset.userEdited = "1"; t.dataset.autofilled = ""; }]. *)
Definition onEdit (p : Page) (t : Ref) : Page :=
  if isFormEl t then
    update p (uid (el t)) (fun s =>
      {| value := value s; checked := checked s;
         userEdited := Some "1"; autofilled := Some ""; outline := outline s |})
  else p.

(** The capture listeners of the content script: one for [input], one
    for [change]. *)
Definition listeners (p : Page) (t : Ref) (type : string) : Page :=
  if String.eqb type "input" then onEdit p t
  else if String.eqb type "change" then onEdit p t
  else p.

Definition dispatchEvent := DOM.dispatchEvent listeners.
Definition click := DOM.click listeners.

(** A human clicks a checkbox or a radio button: the same activation
    behaviour as [click()]. *)
Definition userClick (p : Page) (t : Ref) : Page := click p t.

(** A human types [text] into a text control and leaves it: the value
    changes and the browser fires [input] and [change]. *)
Definition userType (p : Page) (t : Ref) (text : string) : Page :=
  let p1 := update p (uid (el t)) (fun s =>
              {| value := text; checked := checked s; userEdited := userEdited s;
                 autofilled := autofilled s; outline := outline s |}) in
  dispatchEvent (dispatchEvent p1 t "input") t "change".

(** [labelText(el)] *)
Definition labelText (p : Page) (r : Ref) : string :=
  let id := orEmpty (attr_id (el r)) in
  let ariaLabel := orEmpty (attr_ariaLabel (el r)) in
  let byText :=
    match attr_ariaLabelledby (el r) with
    | Some ids =>
        if nonEmpty ids then
          join " " (map (fun i => match getElementById p i with
                                  | Some t => innerText (el t)
                                  | None => ""
                                  end) (splitSpaces ids))
        else ""
    | None => ""
    end in
  let forLabel :=
    if nonEmpty id then
      match queryLabelFor p id with Some l => innerText (el l) | None => "" end
    else "" in
  let parentLbl :=
    match closest r TLabel with Some l => innerText (elemOf l) | None => "" end in
  let legend :=
    match closest r TFieldset with
    | Some fs =>
        match querySelectorIn fs TLegend with
        | Some lg => innerText (elemOf lg)
        | None => ""
        end
    | None => ""
    end in
  join " " (filter nonEmpty [forLabel; parentLbl; ariaLabel; byText; legend]).

(** [(el as HTMLInputElement).placeholder]: the attribute or [""] on an
    input or a textarea, [undefined] on a select. *)
Definition placeholderOf (r : Ref) : option string :=
  match tag (el r) with
  | TSelect => None
  | _ => Some (orEmpty (attr_placeholder (el r)))
  end.

Definition isNonEmptyString (v : option string) : bool :=
  match v with
  | Some x => nonEmpty (trim x)
  | None => false
  end.

(** [candidates(el)]: the descriptor. *)
Definition candidates (p : Page) (r : Ref) : string :=
  let arr := [attr_name (el r); attr_id (el r); placeholderOf r;
              Some (labelText p r); attr_ariaLabel (el r)] in
  join " | " (map (fun v => norm (orEmpty v)) (filter isNonEmptyString arr)).

(** [el.dataset?.userEdited === "1"] *)
Definition isUserEdited (p : Page) (r : Ref) : bool :=
  optEq (userEdited (stateOf p r)) "1".

(** [w === lbl || lbl.includes(w)] for some wanted value. *)
Definition wanted (want : list string) (lbl : string) : bool :=
  existsb (fun w => String.eqb w lbl || includes lbl w) want.

(** [norm(labelText(target) || target.value)] *)
Definition memberLabel (p : Page) (t : Ref) : string :=
  let l := labelText p t in
  norm (if nonEmpty l then l else value (stateOf p t)).

(** The loop over a radio group: the first member whose label is wanted
    is activated unless it is checked already, and the loop stops. *)
Fixpoint setRadio (p : Page) (want : list string) (group : list Ref) : Page * bool :=
  match group with
  | [] => (p, false)
  | t :: rest =>
      if wanted want (memberLabel p t) then
        ((if checked (stateOf p t) then p else click p t), true)
      else setRadio p want rest
  end.

(** The loop over a checkbox group: every member whose checkedness
    differs from the wanted one is clicked; the result counts the clicks. *)
Fixpoint setCheckboxes (p : Page) (want : list string) (group : list Ref) (clicked : nat)
  : Page * nat :=
  match group with
  | [] => (p, clicked)
  | t :: rest =>
      let shouldBeChecked := wanted want (memberLabel p t) in
      if Bool.eqb (checked (stateOf p t)) shouldBeChecked
      then setCheckboxes p want rest clicked
      else setCheckboxes (click p t) want rest (S clicked)
  end.

Definition setValueProp (p : Page) (r : Ref) (v : string) : Page :=
  update p (uid (el r)) (fun s =>
    {| value := v; checked := checked s; userEdited := userEdited s;
       autofilled := autofilled s; outline := outline s |}).

(** The select branch of [setValue]. *)
Definition setSelect (p : Page) (r : Ref) (val : Value) : Page * bool :=
  let v := trim (toStr (coalesce val (VStr ""))) in
  let opts := options (el r) in
  let exact := find (fun o => String.eqb (norm (o_value o)) (norm v)
                              || String.eqb (norm (o_text o)) (norm v)) opts in
  let candidate :=
    match exact with
    | Some o => Some o
    | None => find (fun o => includes (norm (o_text o)) (norm v)) opts
    end in
  match candidate with
  | Some o => (dispatchEvent (setValueProp p r (o_value o)) r "change", true)
  | None => (p, false)
  end.

(** [setValue(el, value)] *)
Definition setValue (p : Page) (r : Ref) (val : Value) : Page * bool :=
  if isUserEdited p r then (p, false)
  else if isType r "checkbox" || isType r "radio" then
    let group := queryInputsByName p (orEmpty (attr_name (el r))) in
    let want :=
      match val with
      | VArr items => map (fun v => norm (toStr v)) items
      | _ => [norm (toStr val)]
      end in
    if isType r "radio" then setRadio p want group
    else
      let '(p', clicked) := setCheckboxes p want group 0 in
      (p', 0 <? clicked)
  else if tagEq (tag (el r)) TSelect then setSelect p r val
  else
    let p1 := setValueProp p r (toStr (coalesce val (VStr ""))) in
    (dispatchEvent (dispatchEvent p1 r "input") r "change", true).

(** The shadow roots hosted in the subtree of a node, walked as [walk]
    does: the form controls of a root first, then the roots nested below
    its elements, in tree order. *)
Fixpoint walkShadows (n : Node) : list Ref :=
  match n with
  | mkNode _ children sr =>
      match sr with
      | Some roots =>
          filter isFormEl (treeRefs roots false) ++ flat_map walkShadows roots
      | None => []
      end
      ++ flat_map walkShadows children
  end.

(** [collectInputsDeep()] *)
Definition collectInputsDeep (p : Page) : list Ref :=
  filter isFormEl
    (filter isFormEl (documentAll p) ++ flat_map walkShadows (document p)).

Definition highlight : string := "2px solid #f7d560".

Definition setOutline (p : Page) (r : Ref) (o : string) : Page :=
  update p (uid (el r)) (fun s =>
    {| value := value s; checked := checked s; userEdited := userEdited s;
       autofilled := autofilled s; outline := o |}).

(** [val == null || val === ""] *)
Definition isAbsent (v : Value) : bool :=
  match v with
  | VUndef | VNull => true
  | VStr s => String.eqb s ""
  | _ => false
  end.

(** The state of a pass between two iterations: the page, the counter
    [n], and the exception that ended the pass, if one was raised. *)
Record Pass : Type := mkPass {
  page : Page;
  count : nat;
  thrown : option string
}.

Section WithAliases.

(** The alias table, in the order of [Object.entries(FIELD_ALIASES)]. *)
Variable FIELD_ALIASES : list (string * list (string -> bool)).

(** [matchKey(el)] *)
Definition matchKey (p : Page) (r : Ref) : option string :=
  let c := candidates p r in
  match find (fun kr => existsb (fun rx => rx c) (snd kr)) FIELD_ALIASES with
  | Some kr => Some (fst kr)
  | None => None
  end.

(** One iteration of the loop of [fill]. *)
Definition fillStep (profile : Value) (s : Pass) (r : Ref) : Pass :=
  match thrown s with
  | Some _ => s
  | None =>
      if isUserEdited (page s) r then s
      else match matchKey (page s) r with
           | None => s
           | Some key =>
               if String.eqb key "" then s
               else match get profile key with
                    | Throw e => {| page := page s; count := count s; thrown := Some e |}
                    | Ok val =>
                        if isAbsent val then s
                        else
                          let '(p', ok) := setValue (page s) r val in
                          if ok then {| page := setOutline p' r highlight;
                                        count := S (count s); thrown := None |}
                          else {| page := p'; count := count s; thrown := None |}
                    end
           end
  end.

(** [fill(profile)]: the pass over the visible controls.  The result
    carries the page after the pass and the count sent with [FILL_DONE]
    (no message is sent when the pass ended by an exception). *)
Definition fill (p : Page) (profile : Value) : Pass :=
  let inputs := filter (fun r => offsetParent (el r)) (collectInputsDeep p) in
  fold_left (fillStep profile) inputs {| page := p; count := 0; thrown := None |}.

Definition fillDone (s : Pass) : option nat :=
  match thrown s with None => Some (count s) | Some _ => None end.

End WithAliases.

End Engine.

Import Engine.

(* ================================================================== *)
(** ** The change watcher and the message boundary *)
(* ================================================================== *)

Module Watcher.

(** The quiescence delay of [scheduleFill], in milliseconds. *)
Definition DEBOUNCE : nat := 150.

(** A pending timeout: its handle, the time it comes due, and the closure
    of [scheduleFill] whose timer it is. *)
Record Timer : Type := mkTimer {
  t_id : nat;
  t_due : nat;
  t_closure : nat
}.

(** What one call of [scheduleFill] captures: the profile and [t]. *)
Record Closure : Type := mkClosure {
  c_profile : Value;
  c_t : option nat
}.

(** A mutation record, by the lengths of its node lists. *)
Record MutationRecord : Type := mkMutation {
  addedNodes : nat;
  removedNodes : nat
}.

(** The content script in its page: the page, the clock, the timers of
    the window (handles count from 1), the closures made by
    [scheduleFill], the closure the connected observer calls ([observer]),
    and the passes run so far, each with the time it ran and the count it
    reported. *)
Record World : Type := mkWorld {
  w_page : Page;
  w_now : nat;
  w_nextTimer : nat;
  w_timers : list Timer;
  w_closures : list Closure;
  w_observer : option nat;
  w_passes : list (nat * option nat)
}.

Definition initial (p : Page) : World :=
  {| w_page := p; w_now := 0; w_nextTimer := 1; w_timers := [];
     w_closures := []; w_observer := None; w_passes := [] |}.

Fixpoint setNth {A} (i : nat) (x : A) (l : list A) : list A :=
  match l, i with
  | [], _ => []
  | _ :: r, 0 => x :: r
  | y :: r, S j => y :: setNth j x r
  end.

(** [window.clearTimeout(id)] *)
Definition clearTimeout (timers : list Timer) (id : nat) : list Timer :=
  filter (fun t => negb (Nat.eqb (t_id t) id)) timers.

(** [run()], the function [scheduleFill] returned as closure [c]:
    [if (t) clearTimeout(t); t = setTimeout(() => fill(profile), 150)]. *)
Definition run (w : World) (c : nat) : World :=
  match nth_error (w_closures w) c with
  | None => w
  | Some cl =>
      let timers :=
        match c_t cl with
        | Some id => if Nat.eqb id 0 then w_timers w else clearTimeout (w_timers w) id
        | None => w_timers w
        end in
      let id := w_nextTimer w in
      {| w_page := w_page w; w_now := w_now w; w_nextTimer := S id;
         w_timers := timers ++ [{| t_id := id; t_due := w_now w + DEBOUNCE; t_closure := c |}];
         w_closures := setNth c {| c_profile := c_profile cl; c_t := Some id |} (w_closures w);
         w_observer := w_observer w; w_passes := w_passes w |}
  end.

(** [scheduleFill(profile)]: a fresh closure with [t = null]; the result
    names the function it returns. *)
Definition scheduleFill (w : World) (profile : Value) : World * nat :=
  ({| w_page := w_page w; w_now := w_now w; w_nextTimer := w_nextTimer w;
      w_timers := w_timers w;
      w_closures := w_closures w ++ [{| c_profile := profile; c_t := None |}];
      w_observer := w_observer w; w_passes := w_passes w |},
   List.length (w_closures w)).

(** [watchForChanges(profile)]: the old observer is disconnected, a new
    one that calls the fresh [run] is connected, and [run()] is called
    once. *)
Definition watchForChanges (w : World) (profile : Value) : World :=
  let '(w1, c) := scheduleFill w profile in
  run {| w_page := w_page w1; w_now := w_now w1; w_nextTimer := w_nextTimer w1;
         w_timers := w_timers w1; w_closures := w_closures w1;
         w_observer := Some c; w_passes := w_passes w1 |} c.

(** The listener of [chrome.runtime.onMessage]. *)
Definition onMessage (w : World) (msg : Value) : World :=
  match optProp msg "type" with
  | VStr t =>
      if String.eqb t "FILL_EXECUTE" then
        watchForChanges w (getProp (coalesce (getProp msg "payload") (VObj [])) "profile")
      else w
  | _ => w
  end.

(** The callback of the observer:
    [if (muts.some(m => m.addedNodes && m.addedNodes.length > 0)) run()]. *)
Definition onMutations (w : World) (muts : list MutationRecord) : World :=
  match w_observer w with
  | Some c => if existsb (fun m => 0 <? addedNodes m) muts then run w c else w
  | None => w
  end.

Definition setDocument (w : World) (doc : list Node) : World :=
  {| w_page := {| document := doc; props := props (w_page w); events := events (w_page w) |};
     w_now := w_now w; w_nextTimer := w_nextTimer w; w_timers := w_timers w;
     w_closures := w_closures w; w_observer := w_observer w; w_passes := w_passes w |}.

Section WithAliases.

Variable FIELD_ALIASES : list (string * list (string -> bool)).

(** A timeout comes due: [fill(profile)] runs to completion. *)
Definition fire (w : World) (t : Timer) : World :=
  match nth_error (w_closures w) (t_closure t) with
  | None => w
  | Some cl =>
      let r := fill FIELD_ALIASES (w_page w) (c_profile cl) in
      {| w_page := page r; w_now := w_now w; w_nextTimer := w_nextTimer w;
         w_timers := w_timers w; w_closures := w_closures w;
         w_observer := w_observer w;
         w_passes := w_passes w ++ [(t_due t, fillDone r)] |}
  end.

(** Time passes: the timeouts that have come due fire, oldest first
    (every timeout has the same delay, so they are due in the order they
    were set). *)
Definition advance (w : World) (dt : nat) : World :=
  let now := w_now w + dt in
  let due := filter (fun t => t_due t <=? now) (w_timers w) in
  let rest := filter (fun t => negb (t_due t <=? now)) (w_timers w) in
  fold_left fire due
    {| w_page := w_page w; w_now := now; w_nextTimer := w_nextTimer w;
       w_timers := rest; w_closures := w_closures w;
       w_observer := w_observer w; w_passes := w_passes w |}.

(** What happens to the content script. *)
Inductive Event : Type :=
| EvMessage (msg : Value)
| EvMutations (newDocument : list Node) (muts : list MutationRecord)
| EvAdvance (dt : nat).

Definition step (w : World) (e : Event) : World :=
  match e with
  | EvMessage msg => onMessage w msg
  | EvMutations doc muts => onMutations (setDocument w doc) muts
  | EvAdvance dt => advance w dt
  end.

Definition runEvents (w : World) (es : list Event) : World := fold_left step es w.

End WithAliases.

End Watcher.

Import Watcher.

(* ================================================================== *)
(** ** The earlier content script, [content.ts], with the demographics gate *)
(* ================================================================== *)

Module Legacy.

(** [content.ts] registers no listener on the document. *)
Definition noListeners (p : Page) (t : Ref) (type : string) : Page := p.

Definition dispatchEvent := DOM.dispatchEvent noListeners.
Definition click := DOM.click noListeners.

(** [labelText(el)] of [content.ts]: the label that names the element by
    [for], else the enclosing label, else the empty string. *)
Definition labelText (p : Page) (r : Ref) : string :=
  let id := orEmpty (attr_id (el r)) in
  match (if nonEmpty id then queryLabelFor p id else None) with
  | Some lbl => innerText (el lbl)
  | None =>
      match closest r TLabel with
      | Some parentLbl => innerText (elemOf parentLbl)
      | None => ""
      end
  end.

Definition candidates (p : Page) (r : Ref) : string :=
  let arr := [attr_name (el r); attr_id (el r); placeholderOf r;
              Some (labelText p r); attr_ariaLabel (el r)] in
  join " | " (map (fun v => norm (orEmpty v)) (filter isNonEmptyString arr)).

(** [get(obj, path)] of [content.ts]: the plain path walk. *)
Definition get (obj : Value) (path : string) : Value :=
  fold_left optProp (splitOn "."%char path) obj.

(** The loop over a checkbox or radio group: the first member whose label
    contains the value is clicked. *)
Fixpoint clickFirst (p : Page) (v : string) (group : list Ref) : Page * bool :=
  match group with
  | [] => (p, false)
  | opt :: rest =>
      let l := labelText p opt in
      let txt := norm (if nonEmpty l then l else value (stateOf p opt)) in
      if includes txt (norm v) then (click p opt, true)
      else clickFirst p v rest
  end.

(** [setValue(el, value)] of [content.ts] *)
Definition setValue (p : Page) (r : Ref) (val : Value) : Page * bool :=
  let v := toStr val in
  if isType r "checkbox" || isType r "radio" then
    clickFirst p v (queryInputsByName p (orEmpty (attr_name (el r))))
  else if tagEq (tag (el r)) TSelect then
    match find (fun o => includes (norm (o_text o)) (norm v)
                         || String.eqb (norm (o_value o)) (norm v)) (options (el r)) with
    | Some found => (dispatchEvent (setValueProp p r (o_value found)) r "change", true)
    | None => (p, false)
    end
  else
    (dispatchEvent (dispatchEvent (setValueProp p r v) r "input") r "change", true).

Section WithAliases.

Variable FIELD_ALIASES : list (string * list (string -> bool)).

Definition matchKey (p : Page) (r : Ref) : option string :=
  let c := candidates p r in
  match find (fun kr => existsb (fun rx => rx c) (snd kr)) FIELD_ALIASES with
  | Some kr => Some (fst kr)
  | None => None
  end.

(** One iteration of the loop of [fill(profile, allowDemo)]. *)
Definition fillStep (profile : Value) (allowDemo : bool) (s : Page * nat) (r : Ref)
  : Page * nat :=
  match matchKey (fst s) r with
  | None => s
  | Some key =>
      if String.eqb key "" then s
      else if negb allowDemo && startsWith key "demographics." then s
      else
        let val := get profile key in
        if isAbsent val then s
        else
          let '(p', ok) := setValue (fst s) r val in
          if ok then (setOutline p' r highlight, S (snd s)) else (p', snd s)
  end.

(** [fill(profile, allowDemo)]: the pass over the visible controls of
    the document; the second component is the count of [FILL_DONE]. *)
Definition fill (p : Page) (profile : Value) (allowDemo : bool) : Page * nat :=
  let inputs := filter (fun r => offsetParent (el r))
                       (filter isFormEl (documentAll p)) in
  fold_left (fillStep profile allowDemo) inputs (p, 0).

(** The listener of [chrome.runtime.onMessage]: the pass runs at once,
    with [!!allowDemographics] as the gate. *)
Definition onMessage (p : Page) (msg : Value) : Page * option nat :=
  match optProp msg "type" with
  | VStr t =>
      if String.eqb t "FILL_EXECUTE" then
        let payload := coalesce (getProp msg "payload") (VObj []) in
        let '(p', n) := fill p (getProp payload "profile")
                             (truthy (getProp payload "allowDemographics")) in
        (p', Some n)
      else (p, None)
  | _ => (p, None)
  end.

End WithAliases.

End Legacy.

(* ================================================================== *)
(** ** The extension around the content script: messages, popup, storage *)
(* ================================================================== *)

Module Transit.

(** What arrives of a value sent with [chrome.tabs.sendMessage] or kept
    by [chrome.storage.local.set]: its JSON form.  A property whose value
    is [undefined] is dropped, an [undefined] in an array becomes
    [null]. *)
Fixpoint jsonValue (v : Value) : Value :=
  match v with
  | VArr items =>
      VArr (map (fun x => match x with VUndef => VNull | _ => jsonValue x end) items)
  | VObj fields =>
      VObj ((fix props (fs : list (string * Value)) : list (string * Value) :=
               match fs with
               | [] => []
               | (k, x) :: rest =>
                   match x with
                   | VUndef => props rest
                   | _ => (k, jsonValue x) :: props rest
                   end
               end) fields)
  | _ => v
  end.

End Transit.

Import Transit.

Module Background.

(** [chrome.tabs.TAB_ID_NONE] *)
Definition TAB_ID_NONE : Z := (-1)%Z.

(** A tab as [chrome.tabs.query] reports it: its [id], when it has one. *)
Record Tab : Type := mkTab { tab_id : option Z }.

(** [getActiveTabId()], given the result of the query. *)
Definition getActiveTabId (tabs : list Tab) : option Z :=
  match tabs with
  | tab :: _ =>
      match tab_id tab with
      | Some id => if (id =? TAB_ID_NONE)%Z then None else Some id
      | None => None
      end
  | [] => None
  end.

(** The listener of [chrome.commands.onCommand]: the tab and the message
    it sends, if it sends one. *)
Definition onCommand (tabs : list Tab) (cmd : string) : option (Z * Value) :=
  if negb (String.eqb cmd "fill-form") then None
  else match getActiveTabId tabs with
       | Some tabId => Some (tabId, VObj [("type", VStr "FILL_REQUEST")])
       | None => None
       end.

(** The listener of [chrome.runtime.onMessage]: a [POPUP_FILL] message
    is passed on to the active tab as [FILL_EXECUTE]. *)
Definition onMessage (tabs : list Tab) (msg : Value) : option (Z * Value) :=
  match optProp msg "type" with
  | VStr t =>
      if String.eqb t "POPUP_FILL" then
        match getActiveTabId tabs with
        | Some tabId =>
            Some (tabId, jsonValue (VObj [("type", VStr "FILL_EXECUTE");
                                          ("payload", getProp msg "payload")]))
        | None => None
        end
      else None
  | _ => None
  end.

End Background.

Module Popup.

(** One row of the links, education and work sections: the values of
    its inputs. *)
Record LinkRow : Type := mkLinkRow { link_label : string; link_url : string }.

Record EduRow : Type := mkEduRow {
  edu_school : string; edu_degree : string; edu_field : string;
  edu_start : string; edu_end : string
}.

Record WorkRow : Type := mkWorkRow {
  work_company : string; work_role : string; work_start : string;
  work_end : string; work_summary : string
}.

(** A checkbox of a container: its [value] and whether it is checked. *)
Record Checkbox : Type := mkCheckbox { cb_value : string; cb_checked : bool }.

(** The form of the popup as [buildProfileFromForm] reads it: the value
    of every input and select, the rows of the three containers, and the
    checkboxes of the race group. *)
Record Form : Type := mkForm {
  firstName : string; lastName : string; email : string; phone : string;
  line1 : string; line2 : string; city : string; state : string;
  postalCode : string; country : string;
  linksContainer : list LinkRow;
  educationContainer : list EduRow;
  workContainer : list WorkRow;
  demoWorkAuth : string;
  demoNeedsSponsorship : bool;
  demoGender : string;
  demoPronouns : string;
  demoRaceGroup : list Checkbox;
  demoVeteran : string;
  demoDisability : string
}.

(** [getCheckedValues(container)] *)
Definition getCheckedValues (container : list Checkbox) : list string :=
  map cb_value (filter cb_checked container).

(** The members of [new Set(values ?? [])]: the elements of an array,
    the characters of a string; a value that is not iterable raises. *)
Definition setMembers (values : Value) : Completion (list Value) :=
  match values with
  | VUndef | VNull => Ok []
  | VArr items => Ok items
  | VStr s => Ok (map (fun c => VStr (String c EmptyString)) (list_ascii_of_string s))
  | _ => Throw "TypeError: object is not iterable"
  end.

(** [set.has(s)] for a string [s]. *)
Definition has (members : list Value) (s : string) : bool :=
  existsb (fun m => match m with VStr x => String.eqb x s | _ => false end) members.

(** [setCheckedValues(container, values)] *)
Definition setCheckedValues (container : list Checkbox) (values : Value)
  : Completion (list Checkbox) :=
  match setMembers values with
  | Ok members =>
      Ok (map (fun cb => {| cb_value := cb_value cb;
                            cb_checked := has members (cb_value cb) |}) container)
  | Throw e => Throw e
  end.

(** [s || undefined] *)
Definition orUndefined (s : string) : Value :=
  if String.eqb s "" then VUndef else VStr s.

Definition linkOf (row : LinkRow) : Value :=
  VObj [("label", VStr (trim (link_label row))); ("url", VStr (trim (link_url row)))].

Definition eduOf (row : EduRow) : Value :=
  VObj [("school", VStr (trim (edu_school row)));
        ("degree", VStr (trim (edu_degree row)));
        ("field", VStr (trim (edu_field row)));
        ("start", VStr (trim (edu_start row)));
        ("end", VStr (trim (edu_end row)))].

Definition workOf (row : WorkRow) : Value :=
  VObj [("company", VStr (trim (work_company row)));
        ("role", VStr (trim (work_role row)));
        ("start", VStr (trim (work_start row)));
        ("end", VStr (trim (work_end row)));
        ("summary", VStr (trim (work_summary row)))].

(** [a || b || c] as a test, on properties of an object. *)
Definition anyTruthy (keys : list string) (o : Value) : bool :=
  existsb (fun k => truthy (getProp o k)) keys.

(** [buildProfileFromForm()] *)
Definition buildProfileFromForm (f : Form) : Value :=
  let links := filter (anyTruthy ["label"; "url"]) (map linkOf (linksContainer f)) in
  let education :=
    filter (anyTruthy ["school"; "degree"; "field"]) (map eduOf (educationContainer f)) in
  let work :=
    filter (anyTruthy ["company"; "role"; "summary"]) (map workOf (workContainer f)) in
  VObj [
    ("basics", VObj [("firstName", VStr (trim (firstName f)));
                     ("lastName", VStr (trim (lastName f)));
                     ("email", VStr (trim (email f)));
                     ("phone", VStr (trim (phone f)))]);
    ("address", VObj [("line1", VStr (trim (line1 f)));
                      ("line2", orUndefined (trim (line2 f)));
                      ("city", VStr (trim (city f)));
                      ("state", VStr (trim (state f)));
                      ("postalCode", VStr (trim (postalCode f)));
                      ("country", VStr (if String.eqb (trim (country f)) ""
                                        then "US" else trim (country f)))]);
    ("links", VArr links);
    ("education", VArr education);
    ("work", VArr work);
    ("demographics", VObj [("workAuthorization", orUndefined (demoWorkAuth f));
                           ("needsSponsorship", VBool (demoNeedsSponsorship f));
                           ("gender", orUndefined (demoGender f));
                           ("pronouns", orUndefined (trim (demoPronouns f)));
                           ("raceEthnicity",
                            VArr (map VStr (getCheckedValues (demoRaceGroup f))));
                           ("veteranStatus", orUndefined (demoVeteran f));
                           ("disability", orUndefined (demoDisability f))])
  ].

(** [if (tab?.id)]: the tab to send to. *)
Definition targetTab (tabs : list Background.Tab) : option Z :=
  match tabs with
  | tab :: _ =>
      match Background.tab_id tab with
      | Some id => if (id =? 0)%Z then None else Some id
      | None => None
      end
  | [] => None
  end.

(** The click handler of the Fill button: the tab and the message as it
    arrives there. *)
Definition fillClick (tabs : list Background.Tab) (f : Form) : option (Z * Value) :=
  match targetTab tabs with
  | Some id =>
      Some (id, jsonValue (VObj [("type", VStr "FILL_EXECUTE");
                                 ("payload", VObj [("profile", buildProfileFromForm f)])]))
  | None => None
  end.

(** The click handler of the Undo button. *)
Definition undoClick (tabs : list Background.Tab) : option (Z * Value) :=
  match targetTab tabs with
  | Some id => Some (id, VObj [("type", VStr "FILL_UNDO")])
  | None => None
  end.

End Popup.

Module Storage.

(** [chrome.storage.local]: the items by key. *)
Definition Area : Type := list (string * Value).

Definition setItem (area : Area) (k : string) (v : Value) : Area :=
  (k, v) :: filter (fun kv => negb (String.eqb (fst kv) k)) area.

(** [chrome.storage.local.set(items)]: every property is stored in its
    JSON form; a property whose value is [undefined] is skipped. *)
Definition set (area : Area) (items : list (string * Value)) : Area :=
  fold_left (fun a kv => match snd kv with
                         | VUndef => a
                         | v => setItem a (fst kv) (jsonValue v)
                         end) items area.

(** [chrome.storage.local.get(keys)]: an object with the stored ones of
    the keys. *)
Definition get (area : Area) (keys : list string) : Value :=
  VObj (flat_map (fun k => match assoc k area with
                           | Some v => [(k, v)]
                           | None => []
                           end) keys).

(** What [loadProfile] resolves to. *)
Record Loaded : Type := mkLoaded {
  profile : Value;
  allowDemographics : bool
}.

(** [saveProfile(profile, allowDemo)] of [storage.ts] *)
Definition saveProfile (area : Area) (p : Value) (allowDemo : bool) : Area :=
  set area [("profile", p);
            ("settings", VObj [("allowDemographics", VBool allowDemo)])].

(** [saveProfile(profile)] of the later storage module *)
Definition saveProfileOnly (area : Area) (p : Value) : Area :=
  set area [("profile", p)].

(** [loadProfile()], the same in both modules *)
Definition loadProfile (area : Area) : Loaded :=
  let r := get area ["profile"; "settings"] in
  {| profile := getProp r "profile";
     allowDemographics := truthy (optProp (getProp r "settings") "allowDemographics") |}.

End Storage.

(* ================================================================== *)
(** ** Sample data *)
(* ================================================================== *)

Module Samples.

Definition rx (needle : string) : string -> bool := fun c => includes c needle.

(** An alias table in the shape of [FIELD_ALIASES]: each key with
    patterns that look for a word in the descriptor. *)
Definition aliases : list (string * list (string -> bool)) :=
  [ ("basics.firstName", [rx "first name"; rx "firstname"; rx "given"]);
    ("basics.lastName", [rx "last name"; rx "lastname"; rx "surname"]);
    ("basics.email", [rx "email"]);
    ("demographics.race", [rx "race"; rx "ethnic"]);
    ("demographics.veteran", [rx "veteran"]);
    ("education.mostRecent.end", [rx "graduation"; rx "end date"]) ].

Definition blank (u : nat) (t : Tag) : Elem :=
  {| uid := u; tag := t; type := ""; attr_name := None; attr_id := None;
     attr_placeholder := None; attr_ariaLabel := None; attr_ariaLabelledby := None;
     attr_for := None; innerText := ""; options := []; offsetParent := true |}.

Definition input (u : nat) (ty name : string) : Elem :=
  {| uid := u; tag := TInput; type := ty; attr_name := Some name; attr_id := None;
     attr_placeholder := None; attr_ariaLabel := None; attr_ariaLabelledby := None;
     attr_for := None; innerText := ""; options := []; offsetParent := true |}.


Definition leaf (e : Elem) : Node := mkNode e [] None.

Definition emptyState : ElState :=
  {| value := ""; checked := false; userEdited := None; autofilled := None; outline := "" |}.

Definition pageOf (doc : list Node) : Page :=
  {| document := doc; props := fun _ => emptyState; events := [] |}.

End Samples.

Import Samples.

(* ================================================================== *)
(** ** Facts about lists *)
(* ================================================================== *)

Module ListFacts.

(** [find] returns the first element that passes the test. *)
Lemma find_first :
  forall {A} (f : A -> bool) l x,
    find f l = Some x <->
    exists pre post, l = pre ++ x :: post /\ f x = true
                     /\ forall y, In y pre -> f y = false.
Proof.
  intros A f l x; induction l as [|a r IH]; simpl.
  - split; [discriminate|]. intros [pre [post [H _]]]. destruct pre; discriminate.
  - destruct (f a) eqn:Fa.
    + split.
      * intros [= <-]. exists [], r. repeat split; auto. intros y [].
      * intros [[|b pre] [post [H [Fx Hpre]]]]; simpl in H; injection H as -> ->.
        -- reflexivity.
        -- rewrite (Hpre b) in Fa by now left. discriminate.
    + rewrite IH. split.
      * intros [pre [post [-> [Fx Hpre]]]]. exists (a :: pre), post.
        repeat split; auto. intros y [<-|Hy]; auto.
      * intros [[|b pre] [post [H [Fx Hpre]]]]; simpl in H; injection H as -> ->.
        -- congruence.
        -- exists pre, post. repeat split; auto. intros y Hy. apply Hpre. now right.
Qed.

Lemma find_none_iff :
  forall {A} (f : A -> bool) l,
    find f l = None <-> forall y, In y l -> f y = false.
Proof.
  intros A f l; split.
  - apply find_none.
  - intros H. destruct (find f l) as [x|] eqn:E; [|reflexivity].
    apply find_some in E. destruct E as [Hin Fx]. rewrite (H x Hin) in Fx. discriminate.
Qed.


Lemma nth_error_setNth :
  forall {A} (l : list A) i x y,
    nth_error l i = Some x -> nth_error (setNth i y l) i = Some y.
Proof.
  induction l as [|a r IH]; intros [|i] x y H; simpl in *; try discriminate; eauto.
Qed.

End ListFacts.

Import ListFacts.

(* ================================================================== *)
(** ** Facts about the document tree *)
(* ================================================================== *)

Module DomFacts.

(** Induction over a node and the nodes of its light tree. *)
Fixpoint Node_light_ind (P : Node -> Prop)
  (step : forall e children sr, Forall P children -> P (mkNode e children sr))
  (n : Node) : P n :=
  match n with
  | mkNode e children sr =>
      step e children sr
        ((fix all (l : list Node) : Forall P l :=
            match l with
            | [] => Forall_nil P
            | x :: rest => Forall_cons x (Node_light_ind P step x) (all rest)
            end) children)
  end.

Lemma refsUnder_inDocument :
  forall n root b up r, In r (refsUnder root b up n) -> r_inDocument r = b.
Proof.
  induction n as [e children sr IH] using Node_light_ind; intros root b up r.
  simpl. intros [<-|H]; [reflexivity|].
  apply in_flat_map in H. destruct H as [c [Hc Hr]].
  rewrite Forall_forall in IH. eapply IH; eauto.
Qed.

Lemma refsUnder_root :
  forall n root b up r, In r (refsUnder root b up n) -> r_root r = root.
Proof.
  induction n as [e children sr IH] using Node_light_ind; intros root b up r.
  simpl. intros [<-|H]; [reflexivity|].
  apply in_flat_map in H. destruct H as [c [Hc Hr]].
  rewrite Forall_forall in IH. eapply IH; eauto.
Qed.

Lemma treeRefs_root :
  forall root b r, In r (treeRefs root b) -> r_root r = root /\ r_inDocument r = b.
Proof.
  intros root b r H. unfold treeRefs in H. apply in_flat_map in H.
  destruct H as [n [_ Hr]]. split.
  - eapply refsUnder_root; eauto.
  - eapply refsUnder_inDocument; eauto.
Qed.


End DomFacts.

Import DomFacts.

(* ================================================================== *)
(** ** Facts about the stable sort *)
(* ================================================================== *)

Module SortFacts.

Section HeadOfSort.

Context {A : Type} (cmp : A -> A -> Num) (ok : A -> Prop).

(** [x] does not have to move behind [y]. *)
Definition notAfter (x y : A) : Prop := isPositive (cmp x y) = false.

Hypothesis cmp_refl : forall x, notAfter x x.
Hypothesis cmp_total : forall x y, isPositive (cmp x y) = true -> notAfter y x.
Hypothesis cmp_trans :
  forall x y z, ok x -> ok y -> ok z -> notAfter x y -> notAfter y z -> notAfter x z.

Lemma insertSorted_In : forall x y l, In y (insertSorted cmp x l) <-> y = x \/ In y l.
Proof.
  intros x y l; induction l as [|z r IH]; simpl.
  - intuition.
  - destruct (isPositive (cmp x z)); simpl; rewrite ?IH; intuition.
Qed.

Lemma jsSort_In : forall y l, In y (jsSort cmp l) <-> In y l.
Proof.
  intros y l; induction l as [|x r IH]; simpl.
  - tauto.
  - rewrite insertSorted_In, IH. intuition.
Qed.

Lemma insertSorted_head :
  forall x l,
    exists t, insertSorted cmp x l
              = match l with
                | [] => x
                | y :: _ => if isPositive (cmp x y) then y else x
                end :: t.
Proof.
  intros x [|y r]; simpl.
  - now exists [].
  - destruct (isPositive (cmp x y)); eexists; reflexivity.
Qed.

(** The first element of the sorted array is an element that has to move
    behind no other. *)
Lemma jsSort_head :
  forall l h t,
    Forall ok l -> jsSort cmp l = h :: t ->
    In h l /\ forall y, In y l -> notAfter h y.
Proof.
  induction l as [|x r IH]; intros h t Hok Hs.
  - discriminate.
  - inversion Hok as [|? ? Hx Hr]; subst.
    simpl in Hs.
    destruct (insertSorted_head x (jsSort cmp r)) as [t' Ht'].
    rewrite Ht' in Hs.
    destruct (jsSort cmp r) as [|h0 t0] eqn:Er.
    + injection Hs as <- _. split; [now left|].
      intros y [<-|Hy]; [apply cmp_refl|].
      apply (jsSort_In y r) in Hy. rewrite Er in Hy. destruct Hy.
    + destruct (IH h0 t0 Hr eq_refl) as [Hin Hmin].
      assert (Hh0 : ok h0) by (rewrite Forall_forall in Hr; auto).
      destruct (isPositive (cmp x h0)) eqn:Ep; injection Hs as <- _.
      * split; [now right|].
        intros y [<-|Hy]; [now apply cmp_total | now apply Hmin].
      * split; [now left|].
        intros y [<-|Hy]; [apply cmp_refl|].
        apply cmp_trans with h0; auto.
        rewrite Forall_forall in Hr; auto.
Qed.

Lemma jsSort_nonempty : forall l, l <> [] -> jsSort cmp l <> [].
Proof.
  intros [|x r] H; [congruence|]. simpl.
  destruct (insertSorted_head x (jsSort cmp r)) as [t ->]. discriminate.
Qed.

End HeadOfSort.

End SortFacts.

Import SortFacts.

(* ================================================================== *)
(** ** Facts about the resolver *)
(* ================================================================== *)

Module ResolverFacts.

(** [toTime] yields a time: a number that is not [NaN]. *)
Lemma toTime_not_NaN : forall v, toTime v <> NaN.
Proof.
  intros v; unfold toTime.
  destruct (negb (truthy v)); [discriminate|].
  destruct (rx_present (toStr v)); [discriminate|].
  destruct (matchDate (toStr v)) as [[[y m2] m3]|]; discriminate.
Qed.

Definition timed (s : Scored) : Prop := s_start s <> NaN /\ s_end s <> NaN.

Lemma score_timed : forall item, timed (score item).
Proof. intros item; split; apply toTime_not_NaN. Qed.

(** The rank of a time on the extended number line: the tier separates
    the infinities from the finite times. *)
Definition tier (n : Num) : Z :=
  match n with MinusInf => -1 | PlusInf => 1 | _ => 0 end.

Definition fin (n : Num) : Z :=
  match n with Finite z => z | _ => 0 end.

Definition flag (b : bool) : Z := if b then 1 else 0.

(** [x] is less recent than [y]: not ongoing against ongoing, else the
    earlier end, else the earlier start. *)
Definition lessRecent (x y : Scored) : Prop :=
  (flag (s_ongoing x) < flag (s_ongoing y)
   \/ (flag (s_ongoing x) = flag (s_ongoing y)
       /\ (tier (s_end x) < tier (s_end y)
           \/ (tier (s_end x) = tier (s_end y)
               /\ (fin (s_end x) < fin (s_end y)
                   \/ (fin (s_end x) = fin (s_end y)
                       /\ (tier (s_start x) < tier (s_start y)
                           \/ (tier (s_start x) = tier (s_start y)
                               /\ fin (s_start x) < fin (s_start y)))))))))%Z.

Ltac z_cases :=
  repeat match goal with
         | |- context [(?a =? ?b)%Z] => destruct (Z.eqb_spec a b)
         | |- context [(?a <? ?b)%Z] => destruct (Z.ltb_spec a b)
         end.

Lemma after_iff_lessRecent :
  forall x y, timed x -> timed y ->
    (isPositive (eduCompare x y) = true <-> lessRecent x y).
Proof.
  intros [ix sx ex ox] [iy sy ey oy] [Hsx Hex] [Hsy Hey]; simpl in *.
  unfold eduCompare, lessRecent; simpl.
  destruct ox, oy, ex, ey; try congruence; simpl;
    destruct sx, sy; try congruence; simpl; z_cases; simpl;
    split; intros; try lia; try discriminate; try reflexivity.
Qed.

Lemma before_iff_lessRecent :
  forall x y, timed x -> timed y ->
    (isNegative (eduCompare x y) = true <-> lessRecent y x).
Proof.
  intros [ix sx ex ox] [iy sy ey oy] [Hsx Hex] [Hsy Hey]; simpl in *.
  unfold eduCompare, lessRecent; simpl.
  destruct ox, oy, ex, ey; try congruence; simpl;
    destruct sx, sy; try congruence; simpl; z_cases; simpl;
    split; intros; try lia; try discriminate; try reflexivity.
Qed.

Lemma eduCompare_refl : forall x, notAfter eduCompare x x.
Proof.
  intros [i s e o]; unfold notAfter, eduCompare; simpl.
  rewrite Bool.eqb_reflx; simpl.
  destruct e, s; simpl; repeat (z_cases; simpl); try reflexivity; lia.
Qed.

Lemma eduCompare_total :
  forall x y, isPositive (eduCompare x y) = true -> notAfter eduCompare y x.
Proof.
  intros [ix sx ex ox] [iy sy ey oy]; unfold notAfter, eduCompare; simpl.
  destruct ox, oy, ex, ey; simpl; try discriminate; try reflexivity;
    destruct sx, sy; simpl; z_cases; simpl; intros;
    try discriminate; try reflexivity; try lia.
Qed.

Lemma eduCompare_trans :
  forall x y z, timed x -> timed y -> timed z ->
    notAfter eduCompare x y -> notAfter eduCompare y z -> notAfter eduCompare x z.
Proof.
  unfold notAfter; intros x y z Hx Hy Hz Hxy Hyz.
  destruct (isPositive (eduCompare x z)) eqn:E; [|reflexivity].
  apply after_iff_lessRecent in E; auto.
  assert (Nxy : ~ lessRecent x y)
    by (intro H; apply after_iff_lessRecent in H; auto; congruence).
  assert (Nyz : ~ lessRecent y z)
    by (intro H; apply after_iff_lessRecent in H; auto; congruence).
  exfalso. unfold lessRecent in *. lia.
Qed.

End ResolverFacts.

Import ResolverFacts.

Module ResolverTheorems.

(** [a] sorts before [b]: the comparator is negative. *)
Definition sortsBefore (a b : Scored) : bool := isNegative (eduCompare a b).

Lemma notAfter_sortsBefore :
  forall h y, timed h -> timed y ->
    notAfter eduCompare h y -> sortsBefore y h = false.
Proof.
  unfold notAfter, sortsBefore; intros h y Hh Hy H.
  destruct (isNegative (eduCompare y h)) eqn:E; [|reflexivity].
  apply before_iff_lessRecent in E; auto.
  apply after_iff_lessRecent in E; auto. congruence.
Qed.


(** The head of the sorted [scored] array, for a non-empty education
    array: an entry of the array before which no entry sorts. *)
Lemma mostRecentEdu_head :
  forall obj items,
    optProp obj "education" = VArr items -> items <> [] ->
    exists item,
      mostRecentEdu obj = item /\ In item items
      /\ forall x, In x items -> notAfter eduCompare (score item) (score x).
Proof.
  intros obj items He Hne.
  unfold mostRecentEdu. rewrite He.
  destruct items as [|i0 rest]; [congruence|].
  destruct (jsSort eduCompare (map score (i0 :: rest))) as [|h t] eqn:Es.
  - exfalso. revert Es. apply jsSort_nonempty. discriminate.
  - destruct (jsSort_head eduCompare timed eduCompare_refl eduCompare_total
                eduCompare_trans (map score (i0 :: rest)) h t) as [Hin Hmin]; auto.
    { apply Forall_forall. intros s Hs. apply in_map_iff in Hs.
      destruct Hs as [i [<- _]]. apply score_timed. }
    apply in_map_iff in Hin. destruct Hin as [item [<- Hitem]].
    exists item. split; [reflexivity|]. split; [assumption|].
    intros x Hx. apply Hmin. now apply in_map.
Qed.

(** A value whose text holds "present" is truthy. *)
Lemma rx_present_truthy : forall v, rx_present (toStr v) = true -> truthy v = true.
Proof.
  intros [| |[|]|n|s|l|f]; simpl; try reflexivity; try (vm_compute; congruence).
  - destruct (Z.eqb_spec n 0) as [->|]; [vm_compute; congruence|reflexivity].
  - destruct s; [vm_compute; congruence|reflexivity].
Qed.

Lemma toTime_present : forall v, rx_present (toStr v) = true -> toTime v = PlusInf.
Proof.
  intros v H. unfold toTime. rewrite (rx_present_truthy v H), H. reflexivity.
Qed.

Lemma toTime_PlusInf : forall v, toTime v = PlusInf -> rx_present (toStr v) = true.
Proof.
  intros v; unfold toTime.
  destruct (negb (truthy v)); [discriminate|].
  destruct (rx_present (toStr v)); [reflexivity|].
  destruct (matchDate (toStr v)) as [[[y m2] m3]|]; discriminate.
Qed.

(** When some entry's end date holds "present", so does the end date of
    the most recent entry. *)
Lemma mostRecentEdu_present :
  forall obj items x,
    optProp obj "education" = VArr items -> In x items ->
    rx_present (toStr (optProp x "end")) = true ->
    rx_present (toStr (optProp (mostRecentEdu obj) "end")) = true.
Proof.
  intros obj items x He Hx Hp.
  destruct (mostRecentEdu_head obj items He) as [item [-> [_ Hmin]]].
  { intro E; subst; destruct Hx. }
  specialize (Hmin x Hx).
  apply toTime_PlusInf.
  assert (Hn : ~ lessRecent (score item) (score x)).
  { intro L. apply after_iff_lessRecent in L; auto using score_timed.
    unfold notAfter in Hmin. congruence. }
  unfold lessRecent in Hn; simpl in Hn.
  rewrite Hp, (toTime_present _ Hp), orb_true_r in Hn. simpl in Hn.
  destruct (toTime (optProp item "end")) eqn:Et; try reflexivity; exfalso.
  - now apply (toTime_not_NaN (optProp item "end")).
  - apply Hn. destruct (_ || _); simpl; lia.
  - apply Hn. destruct (_ || _); simpl; lia.
Qed.

End ResolverTheorems.

Import ResolverTheorems.

(* ================================================================== *)
(** ** What a pass leaves alone *)
(* ================================================================== *)

Module Frame.

(** No checkbox and no radio button of the document has the identity
    [u]. *)
Definition noToggle (doc : list Node) (u : nat) : Prop :=
  forall t, In t (treeRefs doc true) -> uid (el t) = u ->
            isType t "checkbox" = false /\ isType t "radio" = false.

(** The page [q] has the document of [p] and the state of [p] at [u]. *)
Definition keeps (u : nat) (p q : Page) : Prop :=
  document q = document p /\ props q u = props p u.

Lemma keeps_refl : forall u p, keeps u p p.
Proof. now split. Qed.

Lemma keeps_trans : forall u p q r, keeps u p q -> keeps u q r -> keeps u p r.
Proof. unfold keeps; intros u p q r [A B] [C D]; split; congruence. Qed.

Lemma update_keeps :
  forall p u v f, v <> u -> keeps u p (update p v f).
Proof.
  intros p u v f H; split; [reflexivity|]. simpl.
  destruct (Nat.eqb_spec u v); [congruence|reflexivity].
Qed.

Lemma dispatchEvent_keeps :
  forall p t ty u, uid (el t) <> u -> keeps u p (dispatchEvent p t ty).
Proof.
  intros p t ty u H. unfold dispatchEvent, DOM.dispatchEvent, listeners, onEdit.
  destruct (r_inDocument t); [|now split].
  destruct (String.eqb ty "input"), (String.eqb ty "change"), (isFormEl t);
    try (now split); split; try reflexivity; simpl;
    destruct (Nat.eqb_spec u (uid (el t))); congruence.
Qed.

Lemma uncheck_keeps :
  forall l p u,
    (forall r, In r l -> uid (el r) <> u) ->
    keeps u p (fold_left (fun q r => setChecked q (uid (el r)) false) l p).
Proof.
  induction l as [|a rest IH]; intros p u H; simpl.
  - apply keeps_refl.
  - eapply keeps_trans; [|apply IH; intros r Hr; apply H; now right].
    apply update_keeps. apply H. now left.
Qed.

(** A click on a control of the document leaves alone every element
    that is neither a checkbox nor a radio button. *)
Lemma click_keeps :
  forall p t u,
    In t (treeRefs (document p) true) -> noToggle (document p) u ->
    keeps u p (click p t).
Proof.
  intros p t u Ht Hu. unfold click, DOM.click.
  destruct (treeRefs_root _ _ _ Ht) as [Hroot Hdoc].
  assert (Hne : isType t "checkbox" = true \/ isType t "radio" = true -> uid (el t) <> u).
  { intros H E. destruct (Hu t Ht E) as [A B]. destruct H; congruence. }
  fold dispatchEvent.
  destruct (isType t "checkbox") eqn:Ec.
  - eapply keeps_trans; [apply update_keeps; auto|].
    eapply keeps_trans; [apply dispatchEvent_keeps; auto|].
    eapply keeps_trans; apply dispatchEvent_keeps; auto.
  - destruct (isType t "radio") eqn:Er; [|apply keeps_refl].
    destruct (checked (stateOf p t)); [apply keeps_refl|].
    eapply keeps_trans.
    { apply (uncheck_keeps (radioSiblings t)). intros r Hr E.
      unfold radioSiblings in Hr.
      destruct (attr_name (el t)) as [n|]; [|exact Hr].
      destruct (String.eqb n ""); [exact Hr|].
      apply filter_In in Hr. destruct Hr as [Hin Hf].
      rewrite Hroot, Hdoc in Hin.
      destruct (Hu r Hin E) as [_ B].
      rewrite B in Hf. discriminate. }
    eapply keeps_trans; [apply update_keeps; auto|].
    eapply keeps_trans; [apply dispatchEvent_keeps; auto|].
    eapply keeps_trans; apply dispatchEvent_keeps; auto.
Qed.

Lemma setRadio_keeps :
  forall group p want u,
    (forall t, In t group -> In t (treeRefs (document p) true)) ->
    noToggle (document p) u ->
    keeps u p (fst (setRadio p want group)).
Proof.
  induction group as [|t rest IH]; intros p want u Hg Hu; simpl.
  - apply keeps_refl.
  - destruct (wanted want (memberLabel p t)); simpl.
    + destruct (checked (stateOf p t)); [apply keeps_refl|].
      apply click_keeps; auto. apply Hg. now left.
    + apply IH; auto. intros x Hx. apply Hg. now right.
Qed.

Lemma setCheckboxes_keeps :
  forall group p want n u,
    (forall t, In t group -> In t (treeRefs (document p) true)) ->
    noToggle (document p) u ->
    keeps u p (fst (setCheckboxes p want group n)).
Proof.
  induction group as [|t rest IH]; intros p want n u Hg Hu; simpl.
  - apply keeps_refl.
  - destruct (Bool.eqb _ _).
    + apply IH; auto. intros x Hx. apply Hg. now right.
    + assert (K : keeps u p (click p t)) by (apply click_keeps; auto; apply Hg; now left).
      eapply keeps_trans; [exact K|].
      destruct K as [Kd _].
      apply IH; rewrite Kd; auto. intros x Hx. apply Hg. now right.
Qed.

Lemma setValueProp_keeps :
  forall p r v u, uid (el r) <> u -> keeps u p (setValueProp p r v).
Proof. intros p r v u H. unfold setValueProp. now apply update_keeps. Qed.

Lemma setOutline_keeps :
  forall p r o u, uid (el r) <> u -> keeps u p (setOutline p r o).
Proof. intros p r o u H. unfold setOutline. now apply update_keeps. Qed.

(** [setValue] on an element leaves alone every other element that is
    neither a checkbox nor a radio button. *)
Lemma setValue_keeps :
  forall p r val u,
    uid (el r) <> u -> noToggle (document p) u ->
    keeps u p (fst (setValue p r val)).
Proof.
  intros p r val u Hne Hu. unfold setValue.
  destruct (isUserEdited p r); [apply keeps_refl|].
  assert (Hg : forall name t, In t (queryInputsByName p name) ->
                              In t (treeRefs (document p) true)).
  { intros name t H. unfold queryInputsByName in H. apply filter_In in H. tauto. }
  destruct (isType r "checkbox" || isType r "radio").
  - destruct (isType r "radio").
    + apply setRadio_keeps; eauto.
    + pose proof (setCheckboxes_keeps
                    (queryInputsByName p (orEmpty (attr_name (el r)))) p
                    (match val with
                     | VArr items => map (fun v => norm (toStr v)) items
                     | _ => [norm (toStr val)]
                     end) 0 u (Hg _) Hu) as K.
      destruct (setCheckboxes p _ _ 0) as [p' clicked]. exact K.
  - destruct (tagEq (tag (el r)) TSelect).
    + unfold setSelect.
      destruct (match find _ (options (el r)) with Some o => Some o | None => _ end)
        as [o|]; cbn [fst]; [|apply keeps_refl].
      eapply keeps_trans; [apply (setValueProp_keeps p r (o_value o)); auto|].
      apply dispatchEvent_keeps; auto.
    + cbn [fst].
      eapply keeps_trans; [apply (setValueProp_keeps p r); auto|].
      eapply keeps_trans; apply dispatchEvent_keeps; auto.
Qed.

Lemma labelText_document :
  forall p q r, document q = document p -> labelText q r = labelText p r.
Proof.
  intros p q r H. unfold labelText, queryLabelFor, getElementById, documentAll.
  now rewrite H.
Qed.

Section WithAliases.

Variable FIELD_ALIASES : list (string * list (string -> bool)).

(** The key of an element depends on the document only, not on the state
    of its elements. *)
Lemma matchKey_document :
  forall p q r,
    document q = document p -> matchKey FIELD_ALIASES q r = matchKey FIELD_ALIASES p r.
Proof.
  intros p q r H. unfold matchKey, candidates. now rewrite (labelText_document p q r H).
Qed.

(** The iteration for one element leaves alone every other element that
    is neither a checkbox nor a radio button. *)
Lemma fillStep_keeps :
  forall profile s r u,
    uid (el r) <> u -> noToggle (document (page s)) u ->
    keeps u (page s) (page (fillStep FIELD_ALIASES profile s r)).
Proof.
  intros profile s r u Hne Hu. unfold fillStep.
  destruct (thrown s); [apply keeps_refl|].
  destruct (isUserEdited (page s) r); [apply keeps_refl|].
  destruct (matchKey FIELD_ALIASES (page s) r) as [key|]; [|apply keeps_refl].
  destruct (String.eqb key ""); [apply keeps_refl|].
  destruct (get profile key) as [val|e]; [|apply keeps_refl].
  destruct (isAbsent val); [apply keeps_refl|].
  pose proof (setValue_keeps (page s) r val u Hne Hu) as K.
  destruct (setValue (page s) r val) as [p' ok]. cbn [fst] in K.
  destruct ok; cbn [page]; [|exact K].
  eapply keeps_trans; [exact K|]. now apply setOutline_keeps.
Qed.

(** The iteration for the element itself is a skip: the element carries
    the user-edited flag, has no key, or has a key whose value is absent
    or whose resolution raises. *)
Definition skipped (profile : Value) (p : Page) (r : Ref) : Prop :=
  isUserEdited p r = true
  \/ matchKey FIELD_ALIASES p r = None
  \/ exists key,
      matchKey FIELD_ALIASES p r = Some key
      /\ ((exists val, get profile key = Ok val /\ isAbsent val = true)
          \/ exists e, get profile key = Throw e).

Lemma fillStep_skipped :
  forall profile s r,
    skipped profile (page s) r ->
    page (fillStep FIELD_ALIASES profile s r) = page s.
Proof.
  intros profile s r H. unfold fillStep.
  destruct (thrown s); [reflexivity|].
  destruct (isUserEdited (page s) r) eqn:U; [reflexivity|].
  destruct H as [H|[H|[key [H G]]]]; [congruence | now rewrite H |].
  rewrite H. destruct (String.eqb key ""); [reflexivity|].
  destruct G as [[val [G A]]|[e G]]; rewrite G; [rewrite A|]; reflexivity.
Qed.

Lemma skipped_keeps :
  forall profile p q r,
    keeps (uid (el r)) p q -> skipped profile p r -> skipped profile q r.
Proof.
  intros profile p q r [Kd Kp] H. unfold skipped, isUserEdited, stateOf in *.
  rewrite Kp, (matchKey_document p q r Kd). exact H.
Qed.

Lemma fold_fillStep_keeps :
  forall profile inputs p u s,
    noToggle (document p) u ->
    (forall r, In r inputs -> uid (el r) = u -> skipped profile p r) ->
    keeps u p (page s) ->
    keeps u p (page (fold_left (fillStep FIELD_ALIASES profile) inputs s)).
Proof.
  induction inputs as [|r rest IH]; intros p u s Hu Hs K; simpl; [exact K|].
  apply IH; auto.
  - intros x Hx. apply Hs. now right.
  - destruct (Nat.eq_dec (uid (el r)) u) as [E|N].
    + rewrite fillStep_skipped; [exact K|].
      subst u. apply (skipped_keeps profile p); auto. apply Hs; auto. now left.
    + eapply keeps_trans; [exact K|].
      apply fillStep_keeps; auto. destruct K as [Kd _]. now rewrite Kd.
Qed.

(** A pass leaves untouched every element that is neither a checkbox nor
    a radio button and whose own iteration is a skip. *)
Lemma fill_keeps_skipped :
  forall p profile u,
    noToggle (document p) u ->
    (forall r, In r (collectInputsDeep p) -> uid (el r) = u -> skipped profile p r) ->
    props (page (fill FIELD_ALIASES p profile)) u = props p u.
Proof.
  intros p profile u Hu Hs. unfold fill.
  apply fold_fillStep_keeps; auto; [|apply keeps_refl].
  intros r Hr. apply Hs. apply filter_In in Hr. tauto.
Qed.

End WithAliases.

End Frame.

Import Frame.

(* ================================================================== *)
(** ** The demographics gate *)
(* ================================================================== *)

Module DemographicsGate.

Section WithAliases.

Variable FIELD_ALIASES : list (string * list (string -> bool)).

(** X2.  In [content.ts], with the gate closed, the iteration of
    [fill(profile, allowDemo)] for an element whose key starts with
    [demographics.] changes neither the page nor the counter, whatever
    the profile holds at the key. *)
Theorem legacy_gate_closed :
  forall profile s r key,
    Legacy.matchKey FIELD_ALIASES (fst s) r = Some key ->
    startsWith key "demographics." = true ->
    Legacy.fillStep FIELD_ALIASES profile false s r = s.
Proof.
  intros profile s r key Hk Hd. unfold Legacy.fillStep.
  rewrite Hk. destruct (String.eqb key ""); [reflexivity|].
  rewrite Hd. reflexivity.
Qed.

End WithAliases.

Definition veteranPage : Page :=
  pageOf [leaf (input 1 "text" "email"); leaf (input 2 "text" "veteran")].

Definition veteranField : Ref :=
  {| r_node := leaf (input 2 "text" "veteran"); r_up := [];
     r_root := document veteranPage; r_inDocument := true |}.

Definition veteranProfile : Value :=
  VObj [("basics", VObj [("email", VStr "ada@example.org")]);
        ("demographics", VObj [("veteranStatus", VStr "Protected veteran")])].

(** [FILL_EXECUTE] with the gate closed. *)
Definition gateClosed : Value :=
  VObj [("type", VStr "FILL_EXECUTE");
        ("payload", VObj [("profile", veteranProfile);
                          ("allowDemographics", VBool false)])].

(** C1 fails on the content script: [fill(profile)] takes no gate.  A
    [FILL_EXECUTE] message with [allowDemographics: false] arrives on a
    page with a visible field named "veteran"; its key is
    [demographics.veteran] and the profile holds a veteran status.  When
    the debounce delay has passed the pass has written the status into the
    field, highlighted it and counted it.  [content.ts], given the same
    message, leaves the field empty and counts only the e-mail field. *)
Theorem demographics_gate_ignored :
  matchKey aliases veteranPage veteranField = Some "demographics.veteran"
  /\ startsWith "demographics.veteran" "demographics." = true
  /\ getProp (getProp gateClosed "payload") "allowDemographics" = VBool false
  /\ (let w := runEvents aliases (initial veteranPage)
                         [EvMessage gateClosed; EvAdvance DEBOUNCE] in
      value (stateOf (w_page w) veteranField) = "Protected veteran"
      /\ outline (stateOf (w_page w) veteranField) = highlight
      /\ w_passes w = [(150, Some 2)])
  /\ (let '(p, sent) := Legacy.onMessage aliases veteranPage gateClosed in
      value (stateOf p veteranField) = "" /\ sent = Some 1).
Proof. vm_compute. repeat split. Qed.

Lemma legacy_gate_closed_witness :
  Legacy.fillStep aliases veteranProfile false (veteranPage, 0) veteranField
  = (veteranPage, 0).
Proof.
  apply (legacy_gate_closed aliases veteranProfile (veteranPage, 0) veteranField
           "demographics.veteran"); reflexivity.
Defined.

End DemographicsGate.

(* ================================================================== *)
(** ** User edits *)
(* ================================================================== *)

Module UserEdits.

Section WithAliases.

Variable FIELD_ALIASES : list (string * list (string -> bool)).

(** [setValue] refuses an element that carries the flag. *)
Lemma setValue_user_edited :
  forall p r val, isUserEdited p r = true -> setValue p r val = (p, false).
Proof. intros p r val H. unfold setValue. now rewrite H. Qed.

(** The iteration of a pass for an element that carries the flag changes
    nothing. *)
Lemma fillStep_user_edited :
  forall profile s r,
    isUserEdited (page s) r = true -> fillStep FIELD_ALIASES profile s r = s.
Proof.
  intros profile s r H. unfold fillStep.
  destruct (thrown s); [reflexivity|]. now rewrite H.
Qed.

(** X1.  A pass never changes an element that carries the user-edited
    flag and is neither a checkbox nor a radio button: a text input, a
    textarea or a select keeps its value, its flag and its outline,
    whatever its key and whatever the profile holds. *)
Theorem flagged_control_untouched :
  forall p profile u,
    optEq (userEdited (props p u)) "1" = true ->
    noToggle (document p) u ->
    props (page (fill FIELD_ALIASES p profile)) u = props p u.
Proof.
  intros p profile u Hf Hu. apply fill_keeps_skipped; auto.
  intros r _ E. left. unfold isUserEdited, stateOf. now rewrite E.
Qed.

End WithAliases.

Definition typedPage : Page :=
  userType (pageOf [leaf (input 1 "text" "email"); leaf (input 2 "checkbox" "veteran")])
           {| r_node := leaf (input 1 "text" "email"); r_up := [];
              r_root := [leaf (input 1 "text" "email"); leaf (input 2 "checkbox" "veteran")];
              r_inDocument := true |}
           "me@home.net".

(** The human types an address into the e-mail field; a pass with another
    address in the profile leaves the field as typed. *)
Lemma flagged_control_untouched_witness :
  props (page (fill aliases typedPage
                 (VObj [("basics", VObj [("email", VStr "ada@example.org")])]))) 1
  = props typedPage 1.
Proof.
  apply (flagged_control_untouched aliases typedPage).
  - reflexivity.
  - intros t Ht E. vm_compute in Ht.
    destruct Ht as [<-|[<-|[]]]; [split; reflexivity | discriminate].
Defined.

Definition raceBox (u : nat) : Node := leaf (input u "checkbox" "race").

(** Two checkboxes of one group, with the values "White" and "Asian". *)
Definition racePage : Page :=
  {| document := [raceBox 1; raceBox 2];
     props := fun u =>
       {| value := if Nat.eqb u 1 then "White" else "Asian";
          checked := false; userEdited := None; autofilled := None; outline := "" |};
     events := [] |}.

Definition raceRef (u : nat) : Ref :=
  {| r_node := raceBox u; r_up := []; r_root := document racePage; r_inDocument := true |}.

Definition raceProfile : Value :=
  VObj [("demographics", VObj [("raceEthnicity", VArr [VStr "Asian"])])].

(** The human ticks "White". *)
Definition ticked : Page := userClick racePage (raceRef 1).

(** C2 fails on a checkbox of a group.  The human ticks the box "White":
    the capture listener sets its user-edited flag.  The next pass skips
    that box, reaches the box "Asian" of the same group, and the loop of
    [setValue] over the group clicks every member whose checkedness
    differs from the wanted one without looking at the member's flag: the
    box the human ticked ends unticked. *)
Theorem user_edited_checkbox_overwritten :
  isUserEdited ticked (raceRef 1) = true
  /\ checked (stateOf ticked (raceRef 1)) = true
  /\ isUserEdited ticked (raceRef 2) = false
  /\ matchKey aliases ticked (raceRef 2) = Some "demographics.race"
  /\ (let pass := fill aliases ticked raceProfile in
      checked (stateOf (page pass) (raceRef 1)) = false
      /\ checked (stateOf (page pass) (raceRef 2)) = true
      /\ fillDone pass = Some 1).
Proof. vm_compute. repeat split. Qed.

End UserEdits.

(* ================================================================== *)
(** ** Absent values *)
(* ================================================================== *)

Module AbsentValues.

Lemma digit_not_p : forall c, isDigit c = true -> Ascii.eqb "p" (lowerChar c) = false.
Proof.
  intros [[] [] [] [] [] [] [] []]; vm_compute; intros; congruence.
Qed.

(** The text [yyyymm] cuts out never holds "present". *)
Lemma matchYearMonth_not_present :
  forall s t, matchYearMonth s = Some t -> rx_present t = false.
Proof.
  intros s t; unfold matchYearMonth.
  destruct s as [|a [|b [|c [|d [|e [|f [|g r]]]]]]]; try discriminate.
  destruct (isDigit a) eqn:Da; [|discriminate]; cbn [andb].
  destruct (_ && _); [|discriminate].
  intros [= <-]. unfold rx_present.
  cbn [toLowerCase includes isPrefix].
  rewrite (digit_not_p a Da). cbn [andb orb].
  now rewrite !andb_false_r.
Qed.

(** [get] never resolves the end date of the most recent entry to a text
    that holds "present". *)
Lemma get_end_not_present :
  forall obj s, get obj "education.mostRecent.end" = Ok (VStr s) -> rx_present s = false.
Proof.
  intros obj s. unfold get; simpl.
  destruct (rx_present (toStr (optProp (mostRecentEdu obj) "end"))) eqn:E.
  - intros [= <-]. reflexivity.
  - unfold yyyymm.
    destruct (negb (truthy _)).
    + intros [= H]. rewrite H in E. exact E.
    + destruct (matchYearMonth _) as [t|] eqn:M.
      * intros [= <-]. eapply matchYearMonth_not_present; eauto.
      * intros [= H]. rewrite H in E. exact E.
Qed.

Lemma present_lowercase : forall e, toLowerCase e = "present" -> rx_present e = true.
Proof. intros e H. unfold rx_present. rewrite H. reflexivity. Qed.

Section WithAliases.

Variable FIELD_ALIASES : list (string * list (string -> bool)).

(** The iteration for an element whose value resolves to nothing leaves
    the pass as it is. *)
Lemma fillStep_absent :
  forall profile s r key val,
    matchKey FIELD_ALIASES (page s) r = Some key ->
    get profile key = Ok val -> isAbsent val = true ->
    fillStep FIELD_ALIASES profile s r = s.
Proof.
  intros profile s r key val Hk Hg Ha. unfold fillStep.
  destruct (thrown s); [reflexivity|].
  destruct (isUserEdited (page s) r); [reflexivity|].
  rewrite Hk. destruct (String.eqb key ""); [reflexivity|].
  rewrite Hg, Ha. reflexivity.
Qed.

(** C3.  In a fill pass the iteration for an element whose resolved
    value is absent ([undefined], [null] or the empty string) writes
    nothing and counts nothing: the page and the counter stay as they
    are.  Over the whole pass such an element keeps its state, unless it
    is a checkbox or a radio button, which the iteration of another member
    of its group may click.  When an entry of the education array has an
    end date that equals "present" in any letter case, the end date of
    the most recent entry resolves to the empty string, so the iteration
    for an end-date field is such a skip; and whatever the profile, the
    resolved end date is never a text that holds the word "present". *)
Theorem absent_value_is_skipped :
  forall profile,
    (forall s r key val,
        matchKey FIELD_ALIASES (page s) r = Some key ->
        get profile key = Ok val -> isAbsent val = true ->
        fillStep FIELD_ALIASES profile s r = s)
    /\ (forall p u,
           noToggle (document p) u ->
           (forall r, In r (collectInputsDeep p) -> uid (el r) = u ->
                      exists key val,
                        matchKey FIELD_ALIASES p r = Some key
                        /\ get profile key = Ok val /\ isAbsent val = true) ->
           props (page (fill FIELD_ALIASES p profile)) u = props p u)
    /\ (forall items x e,
           optProp profile "education" = VArr items -> In x items ->
           optProp x "end" = VStr e -> toLowerCase e = "present" ->
           get profile "education.mostRecent.end" = Ok (VStr "")
           /\ forall s r,
               matchKey FIELD_ALIASES (page s) r = Some "education.mostRecent.end" ->
               fillStep FIELD_ALIASES profile s r = s)
    /\ (forall t, get profile "education.mostRecent.end" = Ok (VStr t) ->
                  rx_present t = false).
Proof.
  intros profile. split; [|split; [|split]].
  - apply fillStep_absent.
  - intros p u Hu Hs. apply fill_keeps_skipped; auto.
    intros r Hr E. destruct (Hs r Hr E) as [key [val [K [G A]]]].
    right. right. exists key. split; [exact K|]. left. eauto.
  - intros items x e He Hx Hend Hlow.
    assert (G : get profile "education.mostRecent.end" = Ok (VStr "")).
    { unfold get; simpl.
      rewrite (mostRecentEdu_present profile items x He Hx); [reflexivity|].
      rewrite Hend. simpl. now apply present_lowercase. }
    split; [exact G|].
    intros s r Hk. eapply fillStep_absent; eauto.
  - apply get_end_not_present.
Qed.

End WithAliases.

Definition sampleProfile : Value :=
  VObj [("basics", VObj [("email", VStr "")]);
        ("education", VArr [VObj [("end", VStr "2019-06")];
                            VObj [("end", VStr "Present")]])].

Definition samplePage : Page :=
  pageOf [leaf (input 1 "text" "email"); leaf (input 2 "text" "graduation")].

Definition sampleRef (n : nat) : Ref :=
  nth n (collectInputsDeep samplePage)
      {| r_node := leaf (blank 0 TOther); r_up := []; r_root := []; r_inDocument := true |}.

Definition startOfPass : Pass := {| page := samplePage; count := 0; thrown := None |}.

(** An e-mail field with an empty e-mail in the profile, and a graduation
    field with a most recent entry that ends "Present". *)
Lemma absent_value_is_skipped_witness :
  fillStep aliases sampleProfile startOfPass (sampleRef 0) = startOfPass
  /\ props (page (fill aliases samplePage sampleProfile)) 1 = props samplePage 1
  /\ get sampleProfile "education.mostRecent.end" = Ok (VStr "")
  /\ fillStep aliases sampleProfile startOfPass (sampleRef 1) = startOfPass.
Proof.
  split; [|split; [|split]].
  - apply (proj1 (absent_value_is_skipped aliases sampleProfile))
      with (key := "basics.email") (val := VStr ""); reflexivity.
  - apply (proj1 (proj2 (absent_value_is_skipped aliases sampleProfile))).
    + intros t Ht E. vm_compute in Ht.
      destruct Ht as [<-|[<-|[]]]; [split; reflexivity | discriminate].
    + intros r Hr E. vm_compute in Hr.
      destruct Hr as [<-|[<-|[]]]; [|discriminate].
      exists "basics.email", (VStr ""). repeat split.
  - apply (proj1 (proj2 (proj2 (absent_value_is_skipped aliases sampleProfile))))
      with (items := [VObj [("end", VStr "2019-06")]; VObj [("end", VStr "Present")]])
           (x := VObj [("end", VStr "Present")]) (e := "Present");
      [reflexivity | simpl; auto | reflexivity | reflexivity].
  - apply (proj1 (proj2 (proj2 (absent_value_is_skipped aliases sampleProfile))))
      with (items := [VObj [("end", VStr "2019-06")]; VObj [("end", VStr "Present")]])
           (x := VObj [("end", VStr "Present")]) (e := "Present");
      [reflexivity | simpl; auto | reflexivity | reflexivity | reflexivity].
Defined.

End AbsentValues.

(* ================================================================== *)
(** ** The most recent education entry *)
(* ================================================================== *)

Module MostRecent.

Definition eduOf (fields : list (string * string)) : Value :=
  VObj (map (fun kv => (fst kv, VStr (snd kv))) fields).




End MostRecent.

(* ================================================================== *)
(** ** Writing a select *)
(* ================================================================== *)

Module SelectWriter.

(** The desired value as the select branch compares it:
    [norm(String(value ?? "").trim())]. *)
Definition desired (val : Value) : string :=
  norm (trim (toStr (coalesce val (VStr "")))).

(** The machine value or the displayed text of the option equals the
    desired value after normalisation. *)
Definition exactMatch (val : Value) (o : SelectOption) : bool :=
  String.eqb (norm (o_value o)) (desired val) || String.eqb (norm (o_text o)) (desired val).

(** The displayed text of the option contains the desired value. *)
Definition textContains (val : Value) (o : SelectOption) : bool :=
  includes (norm (o_text o)) (desired val).

(** The page after a successful write of option [o]. *)
Definition selected (p : Page) (r : Ref) (o : SelectOption) : Page :=
  dispatchEvent (setValueProp p r (o_value o)) r "change".

Lemma setValue_select :
  forall p r val,
    tag (el r) = TSelect -> isUserEdited p r = false ->
    setValue p r val = setSelect p r val.
Proof.
  intros p r val Ht Hu. unfold setValue, isType. rewrite Hu, Ht. reflexivity.
Qed.

Lemma selected_effect :
  forall p r o,
    value (stateOf (selected p r o) r) = o_value o
    /\ events (selected p r o) = events p ++ [(uid (el r), "change")].
Proof.
  intros p r o. unfold selected, dispatchEvent, DOM.dispatchEvent, listeners, onEdit.
  simpl. destruct (r_inDocument r), (isFormEl r); unfold stateOf; simpl;
    rewrite ?Nat.eqb_refl; auto.
Qed.

(** C5.  On a select that the user has not edited, [setValue] first looks
    for the first option whose machine value or displayed text equals the
    desired value after normalisation, and takes it even when an earlier
    option contains the value in its text; only when no option is equal
    does it take the first option whose displayed text contains the
    desired value.  On success the select's value is the option's value,
    a change event on the select is dispatched and the result is true;
    when no option matches either way the result is false and the page is
    as before. *)
Theorem select_exact_then_contains :
  forall p r val,
    tag (el r) = TSelect -> isUserEdited p r = false ->
    (forall pre o post,
        options (el r) = pre ++ o :: post -> exactMatch val o = true ->
        (forall o', In o' pre -> exactMatch val o' = false) ->
        setValue p r val = (selected p r o, true))
    /\ (forall pre o post,
           (forall o', In o' (options (el r)) -> exactMatch val o' = false) ->
           options (el r) = pre ++ o :: post -> textContains val o = true ->
           (forall o', In o' pre -> textContains val o' = false) ->
           setValue p r val = (selected p r o, true))
    /\ ((forall o', In o' (options (el r)) ->
                    exactMatch val o' = false /\ textContains val o' = false) ->
        setValue p r val = (p, false))
    /\ (forall o,
           value (stateOf (selected p r o) r) = o_value o
           /\ events (selected p r o) = events p ++ [(uid (el r), "change")]).
Proof.
  intros p r val Ht Hu. rewrite (setValue_select p r val Ht Hu).
  unfold setSelect. fold (desired val).
  change (fun o => String.eqb (norm (o_value o)) (desired val)
                   || String.eqb (norm (o_text o)) (desired val))
    with (exactMatch val).
  change (fun o => includes (norm (o_text o)) (desired val)) with (textContains val).
  split; [|split; [|split]].
  - intros pre o post Ho He Hpre.
    assert (E : find (exactMatch val) (options (el r)) = Some o).
    { apply find_first. exists pre, post. auto. }
    rewrite E. reflexivity.
  - intros pre o post Hnone Ho Hc Hpre.
    assert (E : find (exactMatch val) (options (el r)) = None)
      by now apply find_none_iff.
    assert (C : find (textContains val) (options (el r)) = Some o).
    { apply find_first. exists pre, post. auto. }
    rewrite E, C. reflexivity.
  - intros Hnone.
    assert (E : find (exactMatch val) (options (el r)) = None).
    { apply find_none_iff. intros y Hy. now apply Hnone. }
    assert (C : find (textContains val) (options (el r)) = None).
    { apply find_none_iff. intros y Hy. now apply Hnone. }
    rewrite E, C. reflexivity.
  - intros o. apply selected_effect.
Qed.

Definition genderSelect : Elem :=
  {| uid := 1; tag := TSelect; type := "select-one"; attr_name := Some "gender";
     attr_id := None; attr_placeholder := None; attr_ariaLabel := None;
     attr_ariaLabelledby := None; attr_for := None; innerText := "";
     options := [ {| o_value := ""; o_text := "Choose" |};
                  {| o_value := "f"; o_text := "Female" |};
                  {| o_value := "m"; o_text := "Male" |} ];
     offsetParent := true |}.

Definition genderPage : Page := pageOf [leaf genderSelect].

Definition genderRef : Ref :=
  {| r_node := leaf genderSelect; r_up := []; r_root := [leaf genderSelect];
     r_inDocument := true |}.

(** "male" is contained in the text "Female" and equals the text "Male":
    the equal option wins although the other comes first. *)
Lemma select_exact_then_contains_witness :
  setValue genderPage genderRef (VStr " Male")
  = (selected genderPage genderRef {| o_value := "m"; o_text := "Male" |}, true)
  /\ textContains (VStr " Male") {| o_value := "f"; o_text := "Female" |} = true.
Proof.
  split; [|reflexivity].
  apply (proj1 (select_exact_then_contains genderPage genderRef (VStr " Male")
                  eq_refl eq_refl))
    with (pre := [ {| o_value := ""; o_text := "Choose" |};
                   {| o_value := "f"; o_text := "Female" |} ]) (post := []).
  - reflexivity.
  - reflexivity.
  - intros o' [<-|[<-|[]]]; reflexivity.
Defined.

End SelectWriter.

(* ================================================================== *)
(** ** Two passes in a row *)
(* ================================================================== *)

Module Idempotence.

Definition emailPage : Page := pageOf [leaf (input 1 "text" "email")].

Definition emailField : Ref :=
  {| r_node := leaf (input 1 "text" "email"); r_up := [];
     r_root := document emailPage; r_inDocument := true |}.

Definition emailProfile : Value :=
  VObj [("basics", VObj [("email", VStr "ada@example.org")])].

Definition execute : Value :=
  VObj [("type", VStr "FILL_EXECUTE"); ("payload", VObj [("profile", emailProfile)])].

(** C6 fails on the count of the second pass.  The first pass writes the
    e-mail field and dispatches [input] and [change] on it; the capture
    listeners of the content script take these events for a human edit
    and set the field's user-edited flag.  The second pass, with the same
    profile and no human edit in between, skips the field: the value and
    the highlight stay, and the reported count is 0, not 1.  The same
    happens when the second pass is the one the change watcher schedules.
    [content.ts], which registers no listener, counts the field again. *)
Theorem second_pass_counts_nothing :
  isUserEdited emailPage emailField = false
  /\ (let first := fill aliases emailPage emailProfile in
      let second := fill aliases (page first) emailProfile in
      fillDone first = Some 1
      /\ value (stateOf (page first) emailField) = "ada@example.org"
      /\ isUserEdited (page first) emailField = true
      /\ fillDone second = Some 0
      /\ value (stateOf (page second) emailField) = "ada@example.org"
      /\ outline (stateOf (page second) emailField) = highlight)
  /\ w_passes (runEvents aliases (initial emailPage)
                 [EvMessage execute; EvAdvance 150;
                  EvMutations (document emailPage) [{| addedNodes := 1; removedNodes := 0 |}];
                  EvAdvance 150])
     = [(150, Some 1); (300, Some 0)]
  /\ (let '(p1, n1) := Legacy.fill aliases emailPage emailProfile true in
      let '(p2, n2) := Legacy.fill aliases p1 emailProfile true in
      n1 = 1 /\ n2 = 1).
Proof. vm_compute. repeat split. Qed.

End Idempotence.

(* ================================================================== *)
(** ** The debounce of the change watcher *)
(* ================================================================== *)

Module Debounce.

(** A batch of mutation records delivered to the observer [gap]
    milliseconds after the event before it, with the document as the
    mutations left it. *)
Definition Batch : Type := (nat * (list Node * list MutationRecord))%type.

(** The batch holds a record with added nodes. *)
Definition adds (muts : list MutationRecord) : bool :=
  existsb (fun m => 0 <? addedNodes m) muts.

Definition burstEvents (bs : list Batch) : list Event :=
  flat_map (fun b => [EvAdvance (fst b); EvMutations (fst (snd b)) (snd (snd b))]) bs.

(** The time the burst takes. *)
Definition span (bs : list Batch) : nat := list_sum (map fst bs).

(** The arrival time of the last batch with added nodes, for a burst that
    starts at [now]; [last] is that time for the batches before. *)
Fixpoint lastAdd (now : nat) (last : option nat) (bs : list Batch) : option nat :=
  match bs with
  | [] => last
  | b :: rest =>
      lastAdd (now + fst b) (if adds (snd (snd b)) then Some (now + fst b) else last) rest
  end.

(** The watcher between two events of a burst that began at [t0]: the
    observer calls closure [c], which holds [profile]; no timer is
    pending when no batch has added nodes so far, and otherwise exactly
    one, the closure's, due one delay after the last such batch. *)
Definition armed (w : World) (c : nat) (profile : Value) (t0 : nat) (last : option nat)
  : Prop :=
  w_observer w = Some c
  /\ 0 < w_nextTimer w
  /\ exists cl,
      nth_error (w_closures w) c = Some cl
      /\ c_profile cl = profile
      /\ match last with
         | None => w_timers w = []
         | Some t =>
             exists id,
               w_timers w = [{| t_id := id; t_due := t + DEBOUNCE; t_closure := c |}]
               /\ c_t cl = Some id /\ id <> 0 /\ t0 <= t /\ t <= w_now w
         end.

(** The callback of the observer in the earlier script (part_004):
    [new MutationObserver(run)], which schedules on every batch.  Its
    [scheduleFill] is that of the newest script but for the pass the
    timeout runs, [fill(profile, allowDemo)]. *)
Definition onEveryBatch (w : World) (muts : list MutationRecord) : World :=
  match w_observer w with
  | Some c => run w c
  | None => w
  end.

(** The pending timeout [tm] is the one the closure [cl] holds in [t]. *)
Definition owned (cl : Closure) (tm : Timer) : bool :=
  match c_t cl with
  | Some id => negb (Nat.eqb id 0) && Nat.eqb (t_id tm) id
  | None => false
  end.

(** The timeout [run] sets. *)
Definition fresh (w : World) (k : nat) : Timer :=
  {| t_id := w_nextTimer w; t_due := w_now w + DEBOUNCE; t_closure := k |}.

(** A [FILL_EXECUTE] message. *)
Definition fillExecute (profile : Value) : Value :=
  VObj [("type", VStr "FILL_EXECUTE"); ("payload", VObj [("profile", profile)])].

Lemma filter_all : forall {A} (l : list A), filter (fun _ => true) l = l.
Proof. induction l as [|x r IH]; simpl; congruence. Qed.

(** [run] cancels the timeout its own closure holds, and no other. *)
Lemma run_timers :
  forall w k cl,
    nth_error (w_closures w) k = Some cl ->
    w_timers (run w k)
    = filter (fun tm => negb (owned cl tm)) (w_timers w) ++ [fresh w k].
Proof.
  intros w k cl Hk. unfold run. rewrite Hk. cbn [w_timers]. f_equal.
  unfold owned. destruct (c_t cl) as [id|].
  - destruct (Nat.eqb id 0); cbn [negb andb].
    + symmetry. apply filter_all.
    + reflexivity.
  - symmetry. apply filter_all.
Qed.

Lemma run_keeps_foreign :
  forall w k cl tm,
    nth_error (w_closures w) k = Some cl ->
    In tm (w_timers w) -> c_t cl <> Some (t_id tm) ->
    In tm (w_timers (run w k)).
Proof.
  intros w k cl tm Hk Hin Hne. rewrite (run_timers w k cl Hk).
  apply in_or_app. left. apply filter_In. split; [exact Hin|].
  unfold owned. destruct (c_t cl) as [id|]; [|reflexivity].
  destruct (Nat.eqb_spec (t_id tm) id) as [E|E].
  - exfalso. apply Hne. now rewrite E.
  - now rewrite andb_false_r.
Qed.

(** A request cancels nothing: its closure is new and its [t] is [null]. *)
Lemma watchForChanges_timers :
  forall w profile,
    w_timers (watchForChanges w profile)
    = w_timers w ++ [fresh w (List.length (w_closures w))].
Proof.
  intros w profile. unfold watchForChanges, scheduleFill, run. cbn [w_closures].
  rewrite nth_error_app2 by lia. rewrite Nat.sub_diag. reflexivity.
Qed.

Section WithAliases.

Variable FIELD_ALIASES : list (string * list (string -> bool)).

Lemma advance_within_window :
  forall w c profile t0 last dt,
    armed w c profile t0 last -> w_now w + dt < t0 + DEBOUNCE ->
    armed (advance FIELD_ALIASES w dt) c profile t0 last
    /\ w_passes (advance FIELD_ALIASES w dt) = w_passes w
    /\ w_now (advance FIELD_ALIASES w dt) = w_now w + dt
    /\ w_page (advance FIELD_ALIASES w dt) = w_page w.
Proof.
  intros w c profile t0 last dt (Ho & Hn & cl & Hc & Hp & Ht) Hw.
  unfold advance. destruct last as [t|].
  - destruct Ht as (id & Hts & Hid & Hz & H0 & H1). rewrite Hts. simpl.
    destruct (Nat.leb_spec (t + DEBOUNCE) (w_now w + dt)); [lia|]. simpl.
    repeat split; auto. exists cl. repeat split; auto.
    exists id. repeat split; auto. simpl. lia.
  - rewrite Ht. simpl. repeat split; auto. exists cl. repeat split; auto.
Qed.

Lemma mutations_within_window :
  forall w c profile t0 last doc muts,
    armed w c profile t0 last -> t0 <= w_now w ->
    let w' := onMutations (setDocument w doc) muts in
    armed w' c profile t0 (if adds muts then Some (w_now w) else last)
    /\ w_passes w' = w_passes w /\ w_now w' = w_now w
    /\ document (w_page w') = doc.
Proof.
  intros w c profile t0 last doc muts (Ho & Hn & cl & Hc & Hp & Ht) H0.
  cbv zeta. unfold onMutations. simpl. rewrite Ho. fold (adds muts).
  destruct (adds muts).
  - unfold run. simpl. rewrite Hc.
    assert (Hclear :
      match c_t cl with
      | Some id => if Nat.eqb id 0 then w_timers w else clearTimeout (w_timers w) id
      | None => w_timers w
      end = []).
    { destruct last as [t|].
      - destruct Ht as (id & Hts & Hid & Hz & _). rewrite Hid, Hts.
        destruct (Nat.eqb_spec id 0); [contradiction|].
        unfold clearTimeout. simpl. now rewrite Nat.eqb_refl.
      - rewrite Ht. destruct (c_t cl) as [id|]; [destruct (Nat.eqb id 0)|]; reflexivity. }
    rewrite Hclear. cbv zeta. repeat split; cbn; auto; try lia.
    eexists. split; [eapply nth_error_setNth; eauto|]. cbn. split; [assumption|].
    exists (w_nextTimer w). repeat split; auto; lia.
  - simpl. repeat split; auto. exists cl. repeat split; auto.
Qed.

Lemma burst_cons :
  forall w gap doc muts rest,
    runEvents FIELD_ALIASES w (burstEvents ((gap, (doc, muts)) :: rest))
    = runEvents FIELD_ALIASES
        (onMutations (setDocument (advance FIELD_ALIASES w gap) doc) muts)
        (burstEvents rest).
Proof. reflexivity. Qed.

(** A burst that fits into the window runs no pass and keeps the watcher
    armed. *)
Lemma burst_within_window :
  forall bs w c profile t0 last,
    armed w c profile t0 last -> t0 <= w_now w ->
    w_now w + span bs < t0 + DEBOUNCE ->
    let w' := runEvents FIELD_ALIASES w (burstEvents bs) in
    armed w' c profile t0 (lastAdd (w_now w) last bs)
    /\ w_passes w' = w_passes w
    /\ w_now w' = w_now w + span bs.
Proof.
  induction bs as [|[gap [doc muts]] rest IH]; intros w c profile t0 last Ha H0 Hw.
  - cbv zeta. unfold span. simpl. split; [exact Ha | split; [reflexivity | lia]].
  - cbv zeta. change (span ((gap, (doc, muts)) :: rest)) with (gap + span rest) in Hw.
    destruct (advance_within_window w c profile t0 last gap Ha) as (A1 & P1 & N1 & _);
      [lia|].
    destruct (mutations_within_window (advance FIELD_ALIASES w gap) c profile t0 last
                doc muts A1) as (A2 & P2 & N2 & _); [lia|].
    rewrite N1 in A2.
    specialize (IH _ c profile t0 _ A2).
    cbv zeta in IH. rewrite N2, N1 in IH.
    destruct IH as (A3 & P3 & N3); [lia | lia |].
    rewrite burst_cons.
    cbn [lastAdd fst snd].
    change (span ((gap, (doc, muts)) :: rest)) with (gap + span rest).
    split; [exact A3 | split].
    + rewrite P3, P2, P1. reflexivity.
    + rewrite N3. lia.
Qed.

Lemma lastAdd_some :
  forall bs now t, exists t', lastAdd now (Some t) bs = Some t'.
Proof.
  induction bs as [|b rest IH]; intros now t; simpl; eauto.
  destruct (adds (snd (snd b))); apply IH.
Qed.

(** Some batch of the burst adds nodes exactly when the burst has a last
    such batch. *)
Lemma lastAdd_none :
  forall bs now,
    lastAdd now None bs = None <-> existsb (fun b => adds (snd (snd b))) bs = false.
Proof.
  induction bs as [|b rest IH]; intros now; simpl.
  - tauto.
  - destruct (adds (snd (snd b))); simpl.
    + destruct (lastAdd_some rest (now + fst b) (now + fst b)) as [t' ->].
      split; discriminate.
    + apply IH.
Qed.

(** The observer's callback on a batch without added nodes: nothing is
    scheduled. *)
Lemma onMutations_no_added_nodes :
  forall w muts, adds muts = false -> onMutations w muts = w.
Proof.
  intros w muts H. unfold onMutations. fold (adds muts). rewrite H.
  now destruct (w_observer w).
Qed.

(** C7, as the code has it.  In the newest script (part_003) the observer
    schedules on a batch that holds a record with added nodes and on no
    other; in the earlier one (part_004) the observer calls [run] on every
    batch.  Scheduling sets a timeout that is due one delay later and
    cancels the timeout its own closure holds, and no other: a timeout
    another closure of [scheduleFill] set stays pending, and a
    [FILL_EXECUTE] request, which makes a new closure, cancels nothing.
    So: the watcher is armed (the observer calls the closure [c]) and no
    timeout is pending, of this closure or of an earlier request.  A burst
    of mutation batches arrives that fits into one debounce window.  No
    pass runs during the burst.  When the delay has passed after the
    burst, no timeout is pending and exactly one pass has been added if
    some batch of the burst held added nodes, and none otherwise, however
    many batches and records the burst had; the added pass ran one delay
    after the last batch with added nodes, over the page as the burst left
    it. *)
Theorem burst_yields_one_pass :
  forall w c cl bs,
    w_observer w = Some c -> nth_error (w_closures w) c = Some cl ->
    w_timers w = [] -> 0 < w_nextTimer w ->
    span bs < DEBOUNCE ->
    let w1 := runEvents FIELD_ALIASES w (burstEvents bs) in
    let w2 := advance FIELD_ALIASES w1 DEBOUNCE in
    (forall w' muts, adds muts = false -> onMutations w' muts = w')
    /\ (forall w' k muts,
           w_observer w' = Some k ->
           (adds muts = true -> onMutations w' muts = run w' k)
           /\ onEveryBatch w' muts = run w' k)
    /\ (forall w' k cl',
           nth_error (w_closures w') k = Some cl' ->
           w_timers (run w' k)
           = filter (fun tm => negb (owned cl' tm)) (w_timers w') ++ [fresh w' k])
    /\ (forall w' k cl' tm,
           nth_error (w_closures w') k = Some cl' ->
           In tm (w_timers w') -> c_t cl' <> Some (t_id tm) ->
           In tm (w_timers (run w' k)))
    /\ (forall w' profile,
           w_timers (watchForChanges w' profile)
           = w_timers w' ++ [fresh w' (List.length (w_closures w'))])
    /\ (forall w' k cl' id due,
           nth_error (w_closures w') k = Some cl' -> c_t cl' = Some id -> id <> 0 ->
           w_timers w' = [{| t_id := id; t_due := due; t_closure := k |}] ->
           w_timers (run w' k)
           = [{| t_id := w_nextTimer w'; t_due := w_now w' + DEBOUNCE; t_closure := k |}])
    /\ w_passes w1 = w_passes w
    /\ w_timers w2 = []
    /\ w_passes w2
       = match lastAdd (w_now w) None bs with
         | Some t =>
             w_passes w
             ++ [(t + DEBOUNCE,
                  fillDone (fill FIELD_ALIASES (w_page w1) (c_profile cl)))]
         | None => w_passes w
         end
    /\ List.length (w_passes w2)
       = List.length (w_passes w)
         + (if existsb (fun b => adds (snd (snd b))) bs then 1 else 0).
Proof.
  intros w c cl bs Ho Hc Ht Hn Hs w1 w2.
  assert (Ha : armed w c (c_profile cl) (w_now w) None).
  { repeat split; auto. exists cl. auto. }
  destruct (burst_within_window bs w c (c_profile cl) (w_now w) None Ha)
    as (A & P & N); [lia | lia |].
  fold w1 in A, P, N.
  split; [exact onMutations_no_added_nodes|].
  split.
  { intros w' k muts Hk. split.
    - intros Hadd. unfold onMutations. rewrite Hk. fold (adds muts). now rewrite Hadd.
    - unfold onEveryBatch. now rewrite Hk. }
  split; [exact run_timers|].
  split; [exact run_keeps_foreign|].
  split; [exact watchForChanges_timers|].
  split.
  { intros w' k cl' id due Hk Hid Hz Hts. unfold run. rewrite Hk, Hid, Hts.
    destruct (Nat.eqb_spec id 0); [contradiction|].
    unfold clearTimeout. simpl. now rewrite Nat.eqb_refl. }
  split; [exact P|].
  assert (Hw2 :
    w_timers w2 = []
    /\ w_passes w2
       = match lastAdd (w_now w) None bs with
         | Some t =>
             w_passes w
             ++ [(t + DEBOUNCE,
                  fillDone (fill FIELD_ALIASES (w_page w1) (c_profile cl)))]
         | None => w_passes w
         end).
  { destruct A as (Ho1 & Hn1 & cl1 & Hc1 & Hp1 & Ht1).
    unfold w2, advance.
    destruct (lastAdd (w_now w) None bs) as [t|].
    - destruct Ht1 as (id & Hts & Hid & Hz & H0 & H1). rewrite Hts. simpl.
      destruct (Nat.leb_spec (t + DEBOUNCE) (w_now w1 + DEBOUNCE)); [|lia].
      simpl. unfold fire. simpl. rewrite Hc1, Hp1, P. simpl. auto.
    - rewrite Ht1. simpl. auto. }
  destruct Hw2 as [T2 P2]. split; [exact T2|]. split; [exact P2|].
  rewrite P2.
  destruct (lastAdd (w_now w) None bs) as [t|] eqn:E.
  - destruct (existsb (fun b => adds (snd (snd b))) bs) eqn:X.
    + rewrite length_app. reflexivity.
    + apply (lastAdd_none bs (w_now w)) in X. congruence.
  - apply lastAdd_none in E. rewrite E. lia.
Qed.

End WithAliases.

Definition formPage : Page := pageOf [leaf (input 1 "text" "email")].

Definition formProfile : Value :=
  VObj [("basics", VObj [("email", VStr "ada@example.org")])].

(** The watcher after a [FILL_EXECUTE] message and its first pass. *)
Definition settled : World :=
  runEvents aliases (initial formPage)
    [EvMessage (VObj [("type", VStr "FILL_EXECUTE");
                      ("payload", VObj [("profile", formProfile)])]);
     EvAdvance DEBOUNCE].

Definition grownDocument : list Node :=
  [leaf (input 1 "text" "email"); leaf (input 2 "text" "surname")].

(** Three batches within 110 ms: two records with added nodes, then one
    batch that only removes, then one more record with added nodes. *)
Definition churn : list Batch :=
  [ (0, (grownDocument, [ {| addedNodes := 1; removedNodes := 0 |};
                          {| addedNodes := 2; removedNodes := 1 |} ]));
    (50, (grownDocument, [ {| addedNodes := 0; removedNodes := 1 |} ]));
    (60, (grownDocument, [ {| addedNodes := 1; removedNodes := 0 |} ])) ].

(** After the first pass at 150 ms, the three batches arrive at 150, 200
    and 260 ms: one more pass runs, at 410 ms. *)
Lemma burst_yields_one_pass_witness :
  let w1 := runEvents aliases settled (burstEvents churn) in
  let w2 := advance aliases w1 DEBOUNCE in
  w_passes w1 = w_passes settled
  /\ w_timers w2 = []
  /\ w_passes w2 = w_passes settled ++ [(410, Some 0)]
  /\ List.length (w_passes w2) = List.length (w_passes settled) + 1.
Proof.
  destruct (burst_yields_one_pass aliases settled 0
              {| c_profile := formProfile; c_t := Some 1 |} churn)
    as (_ & _ & _ & _ & _ & _ & P1 & T2 & P2 & L2).
  - reflexivity.
  - reflexivity.
  - reflexivity.
  - vm_compute. lia.
  - vm_compute. lia.
  - cbv zeta. split; [exact P1|]. split; [exact T2|]. split; [exact P2|]. exact L2.
Defined.

(** Two requests 100 ms apart, and 10 ms after the second a batch with an
    added node. *)
Definition twoRequests : World :=
  runEvents aliases (initial formPage)
    [ EvMessage (fillExecute formProfile); EvAdvance 100;
      EvMessage (fillExecute formProfile); EvAdvance 10;
      EvMutations grownDocument [ {| addedNodes := 1; removedNodes := 0 |} ] ].

(** C7 as stated fails: scheduling does not cancel every pass that is
    scheduled and has not run.  After two requests 100 ms apart, the batch
    at 110 ms cancels the timeout of the second request and leaves that of
    the first: two timeouts are pending, due at 150 and at 260 ms, and
    both passes run. *)
Lemma earlier_request_not_cancelled :
  w_timers twoRequests
  = [ {| t_id := 1; t_due := 150; t_closure := 0 |};
      {| t_id := 3; t_due := 260; t_closure := 1 |} ]
  /\ map fst (w_passes (advance aliases twoRequests DEBOUNCE)) = [150; 260]
  /\ ~ (forall w k cl,
          nth_error (w_closures w) k = Some cl ->
          w_timers (run w k) = [fresh w k]).
Proof.
  split; [reflexivity|]. split; [reflexivity|].
  intros H.
  specialize (H (runEvents aliases (initial formPage)
                   [ EvMessage (fillExecute formProfile); EvAdvance 100;
                     EvMessage (fillExecute formProfile); EvAdvance 10 ])
                1 {| c_profile := formProfile; c_t := Some 2 |} eq_refl).
  vm_compute in H. discriminate.
Qed.

End Debounce.

(* ================================================================== *)
(** ** The key matcher *)
(* ================================================================== *)

Module KeyMatcher.

Section WithAliases.

Variable FIELD_ALIASES : list (string * list (string -> bool)).

(** The descriptor [c] passes some pattern of the table entry [kr]. *)
Definition passes (c : string) (kr : string * list (string -> bool)) : bool :=
  existsb (fun rx => rx c) (snd kr).

Lemma fillStep_no_key :
  forall profile s r,
    matchKey FIELD_ALIASES (page s) r = None ->
    fillStep FIELD_ALIASES profile s r = s.
Proof.
  intros profile s r H. unfold fillStep.
  destruct (thrown s); [reflexivity|].
  destruct (isUserEdited (page s) r); [reflexivity|].
  rewrite H. reflexivity.
Qed.

(** C8.  The key matcher tests the descriptor of the element against the
    pattern sets of the table in table order and returns the key of the
    first entry with a pattern that matches: [matchKey] yields the key
    [k] exactly when the table splits into entries that do not match, an
    entry with key [k] that does, and a rest; it yields nothing exactly
    when no entry matches.  Being a function, it gives an element at most
    one key.  The iteration of a fill pass for an element with no key
    leaves the page, the counter and the outcome of the pass as they
    are, and over the whole pass such an element keeps its state (unless
    it is a checkbox or a radio button, which the iteration of another
    member of its group may click). *)
Theorem matchKey_first_match_wins :
  forall p r,
    (forall k,
        matchKey FIELD_ALIASES p r = Some k <->
        exists pre regs post,
          FIELD_ALIASES = pre ++ (k, regs) :: post
          /\ passes (candidates p r) (k, regs) = true
          /\ forall kr, In kr pre -> passes (candidates p r) kr = false)
    /\ (matchKey FIELD_ALIASES p r = None <->
        forall kr, In kr FIELD_ALIASES -> passes (candidates p r) kr = false)
    /\ (forall profile s,
           page s = p -> matchKey FIELD_ALIASES p r = None ->
           fillStep FIELD_ALIASES profile s r = s)
    /\ (forall profile u,
           noToggle (document p) u ->
           (forall t, In t (collectInputsDeep p) -> uid (el t) = u ->
                      matchKey FIELD_ALIASES p t = None) ->
           props (page (fill FIELD_ALIASES p profile)) u = props p u).
Proof.
  intros p r. unfold matchKey at 1 2. fold (passes (candidates p r)).
  split; [|split; [|split]].
  - intros k. split.
    + destruct (find _ FIELD_ALIASES) as [[k' regs]|] eqn:E; [|discriminate].
      intros [= <-]. apply find_first in E.
      destruct E as [pre [post [H [Hp Hpre]]]].
      exists pre, regs, post. auto.
    + intros [pre [regs [post [H [Hp Hpre]]]]].
      assert (E : find (passes (candidates p r)) FIELD_ALIASES = Some (k, regs)).
      { apply find_first. exists pre, post. auto. }
      rewrite E. reflexivity.
  - rewrite <- find_none_iff.
    destruct (find _ FIELD_ALIASES); split; auto; discriminate.
  - intros profile s <- H. apply fillStep_no_key. exact H.
  - intros profile u Hu Hs. apply fill_keeps_skipped; auto.
    intros t Ht E. right. left. auto.
Qed.

End WithAliases.

Definition plainPage : Page :=
  pageOf [leaf (input 1 "text" "surname"); leaf (input 2 "text" "nickname")].

Definition plainRef (n : nat) : Ref :=
  nth n (collectInputsDeep plainPage)
      {| r_node := leaf (blank 0 TOther); r_up := []; r_root := []; r_inDocument := true |}.

Definition plainProfile : Value :=
  VObj [("basics", VObj [("lastName", VStr "Lovelace")])].

(** A field named "surname" takes the second key of the sample table; a
    field named "nickname" takes none, its iteration changes nothing and
    the pass leaves it as it is. *)
Lemma matchKey_first_match_wins_witness :
  matchKey aliases plainPage (plainRef 0) = Some "basics.lastName"
  /\ fillStep aliases plainProfile {| page := plainPage; count := 0; thrown := None |}
              (plainRef 1)
     = {| page := plainPage; count := 0; thrown := None |}
  /\ props (page (fill aliases plainPage plainProfile)) 2 = props plainPage 2.
Proof.
  split; [|split].
  - apply (proj1 (matchKey_first_match_wins aliases plainPage (plainRef 0))).
    exists [("basics.firstName", [rx "first name"; rx "firstname"; rx "given"])],
           [rx "last name"; rx "lastname"; rx "surname"],
           [("basics.email", [rx "email"]);
            ("demographics.race", [rx "race"; rx "ethnic"]);
            ("demographics.veteran", [rx "veteran"]);
            ("education.mostRecent.end", [rx "graduation"; rx "end date"])].
    split; [reflexivity|]. split; [reflexivity|].
    intros kr [<-|[]]. reflexivity.
  - apply (proj1 (proj2 (proj2 (matchKey_first_match_wins aliases plainPage (plainRef 1)))));
      reflexivity.
  - apply (proj2 (proj2 (proj2 (matchKey_first_match_wins aliases plainPage (plainRef 1))))).
    + intros t Ht E. vm_compute in Ht.
      destruct Ht as [<-|[<-|[]]]; [discriminate | split; reflexivity].
    + intros t Ht E. vm_compute in Ht.
      destruct Ht as [<-|[<-|[]]]; [discriminate | reflexivity].
Defined.

End KeyMatcher.

(* ================================================================== *)
(** ** Direct path resolution *)
(* ================================================================== *)

Module PathLookup.







Section Runtime.

Variable inherits : Value -> string -> bool.





End Runtime.


Lemma standard_objectPrototype : standard objectPrototype.
Proof. intros v k H. exact H. Qed.





End PathLookup.

(* ================================================================== *)
(** ** Labels and groups of elements inside shadow roots *)
(* ================================================================== *)

Module ShadowScope.
























End ShadowScope.

(* ================================================================== *)
(** ** Computed keys: the full name and the links *)
(* ================================================================== *)

Module ComputedKeys.

Definition named (first last : string) : Value :=
  VObj [("basics", VObj [("firstName", VStr first); ("lastName", VStr last)])].

(** A name as the profile type has it: a string, or missing. *)
Definition isName (v : Value) : bool :=
  match v with VUndef | VNull | VStr _ => true | _ => false end.

(** The trimmed name; the empty string when the name is missing. *)
Definition nameOf (v : Value) : string :=
  match v with VStr s => trim s | _ => "" end.

Lemma fullName_of_names :
  forall obj,
    isName (optProp (optProp obj "basics") "firstName") = true ->
    isName (optProp (optProp obj "basics") "lastName") = true ->
    let f := nameOf (optProp (optProp obj "basics") "firstName") in
    let l := nameOf (optProp (optProp obj "basics") "lastName") in
    fullName obj
    = if String.eqb f "" then (if String.eqb l "" then VUndef else VStr l)
      else if String.eqb l "" then VStr f else VStr (f ++ " " ++ l)%string.
Proof.
  intros obj Hf Hl f l. unfold fullName.
  assert (Ef : trim (toStr (coalesce (optProp (optProp obj "basics") "firstName") (VStr ""))) = f).
  { unfold f. destruct (optProp (optProp obj "basics") "firstName"); try discriminate; reflexivity. }
  assert (El : trim (toStr (coalesce (optProp (optProp obj "basics") "lastName") (VStr ""))) = l).
  { unfold l. destruct (optProp (optProp obj "basics") "lastName"); try discriminate; reflexivity. }
  rewrite Ef, El. clearbody f l. clear.
  cbn [filter].
  destruct (String.eqb_spec f "") as [->|Nf]; destruct (String.eqb_spec l "") as [->|Nl];
    cbn [negb join String.concat].
  - reflexivity.
  - destruct (String.eqb_spec l ""); [contradiction | reflexivity].
  - destruct (String.eqb_spec f ""); [contradiction | reflexivity].
  - destruct f as [|c f']; [contradiction|]. reflexivity.
Qed.

Section WithAliases.

Variable FIELD_ALIASES : list (string * list (string -> bool)).

(** X3.  The full name is the trimmed first and last name joined by one
    space.  For every profile whose first and last name are strings or
    missing, with [f] and [l] the trimmed names (empty for a missing
    one), [get] yields for the full-name key [f], one space and [l] when
    neither is empty, the one that is not empty when the other is, and
    [undefined] when both are.  It never yields the empty string, for any
    profile; and for an element with the full-name key and two empty
    names the iteration of the pass does nothing: no write, no count. *)
Theorem fullName_derivation :
  forall obj first last,
    optProp (optProp obj "basics") "firstName" = first ->
    optProp (optProp obj "basics") "lastName" = last ->
    isName first = true -> isName last = true ->
    let f := nameOf first in
    let l := nameOf last in
    get obj "basics._fullName"
    = Ok (if String.eqb f "" then (if String.eqb l "" then VUndef else VStr l)
          else if String.eqb l "" then VStr f else VStr (f ++ " " ++ l)%string)
    /\ (forall s, first = VStr s -> f = trim s)
    /\ (forall s, last = VStr s -> l = trim s)
    /\ (isNullish first = true -> f = "")
    /\ (isNullish last = true -> l = "")
    /\ (forall obj', get obj' "basics._fullName" <> Ok (VStr ""))
    /\ (f = "" -> l = "" ->
        forall s r,
          matchKey FIELD_ALIASES (page s) r = Some "basics._fullName" ->
          fillStep FIELD_ALIASES obj s r = s).
Proof.
  intros obj first last Hf Hl Nf Nl f l.
  assert (G : get obj "basics._fullName"
              = Ok (if String.eqb f "" then (if String.eqb l "" then VUndef else VStr l)
                    else if String.eqb l "" then VStr f else VStr (f ++ " " ++ l)%string)).
  { change (get obj "basics._fullName") with (Ok (fullName obj)).
    rewrite fullName_of_names; rewrite ?Hf, ?Hl; auto. }
  split; [exact G|].
  split; [intros s ->; reflexivity|].
  split; [intros s ->; reflexivity|].
  split; [intros H; destruct first; try discriminate; reflexivity|].
  split; [intros H; destruct last; try discriminate; reflexivity|].
  split.
  - intros obj'. unfold get; simpl. unfold fullName.
    destruct (String.eqb_spec
                (join " " (filter (fun x => negb (String.eqb x ""))
                   [trim (toStr (coalesce (optProp (optProp obj' "basics") "firstName") (VStr "")));
                    trim (toStr (coalesce (optProp (optProp obj' "basics") "lastName") (VStr "")))]))
                "") as [E|N].
    + discriminate.
    + intros [= H]. contradiction.
  - intros Ef El s r Hk. unfold fillStep.
    destruct (thrown s); [reflexivity|].
    destruct (isUserEdited (page s) r); [reflexivity|].
    rewrite Hk. cbn [String.eqb Ascii.eqb Bool.eqb].
    rewrite G, Ef, El. reflexivity.
Qed.

(** X4.  The link keys can raise.  When the profile's [links] is neither
    nullish nor an array (a record, say, as the earlier profile type had
    it), [obj.links.find] is no function and [get] raises a TypeError for
    [links.linkedin], [links.github] and [links.website].  The iteration
    of the pass that meets it ends the pass: the page stays as it is, every
    later iteration is skipped, and no [FILL_DONE] count is sent. *)
Theorem link_lookup_raises :
  forall profile links,
    optProp profile "links" = links -> isNullish links = false -> isArray links = false ->
    (exists e,
        get profile "links.linkedin" = Throw e
        /\ get profile "links.github" = Throw e
        /\ get profile "links.website" = Throw e)
    /\ (forall s r,
           thrown s = None -> isUserEdited (page s) r = false ->
           matchKey FIELD_ALIASES (page s) r = Some "links.github" ->
           page (fillStep FIELD_ALIASES profile s r) = page s
           /\ fillDone (fillStep FIELD_ALIASES profile s r) = None)
    /\ (forall s r, fillDone s = None -> fillStep FIELD_ALIASES profile s r = s).
Proof.
  intros profile links Hl Hn Ha.
  assert (T : forall rx, findLink profile rx
                         = Throw "TypeError: obj.links.find is not a function").
  { intros rx. unfold findLink. rewrite Hl, Hn. destruct links; try reflexivity; discriminate. }
  split; [|split].
  - eexists. unfold get; simpl. rewrite !T. repeat split.
  - intros s r Ht Hu Hk. unfold fillStep. rewrite Ht, Hu, Hk. simpl.
    unfold get; simpl. rewrite T. split; reflexivity.
  - intros s r H. unfold fillStep, fillDone in *.
    destruct (thrown s); [reflexivity|discriminate].
Qed.

End WithAliases.

(** " Ada " and "Lovelace " give "Ada Lovelace". *)
Lemma fullName_derivation_witness :
  get (named " Ada " "Lovelace ") "basics._fullName" = Ok (VStr "Ada Lovelace").
Proof.
  exact (proj1 (fullName_derivation [] (named " Ada " "Lovelace ")
                  (VStr " Ada ") (VStr "Lovelace ")
                  eq_refl eq_refl eq_refl eq_refl)).
Defined.

Definition linkAliases : list (string * list (string -> bool)) :=
  [("links.github", [rx "github"])].

Definition linkPage : Page := pageOf [leaf (input 1 "text" "github")].

Definition linkField : Ref :=
  {| r_node := leaf (input 1 "text" "github"); r_up := [];
     r_root := document linkPage; r_inDocument := true |}.

(** A profile in the shape of the earlier profile type, with [links] a
    record. *)
Definition olderProfile : Value :=
  VObj [("links", VObj [("github", VStr "https://github.com/ada")])].

Lemma link_lookup_raises_witness :
  (exists e,
      get olderProfile "links.linkedin" = Throw e
      /\ get olderProfile "links.github" = Throw e
      /\ get olderProfile "links.website" = Throw e)
  /\ fillDone (fill linkAliases linkPage olderProfile) = None.
Proof.
  destruct (link_lookup_raises linkAliases olderProfile
              (VObj [("github", VStr "https://github.com/ada")])
              eq_refl eq_refl eq_refl) as [A [B _]].
  split; [exact A|].
  exact (proj2 (B {| page := linkPage; count := 0; thrown := None |} linkField
                  eq_refl eq_refl eq_refl)).
Defined.

End ComputedKeys.

(* ================================================================== *)
(** ** Radio groups *)
(* ================================================================== *)

Module RadioGroup.

Definition genderAliases : list (string * list (string -> bool)) :=
  [("demographics.gender", [rx "gender"])].

Definition radio (u : nat) : Node := leaf (input u "radio" "gender").

(** Radio buttons without labels, told apart by their values. *)
Definition radios (values : nat -> string) (n : nat) : Page :=
  {| document := map radio (seq 1 n);
     props := fun u =>
       {| value := values u; checked := false; userEdited := None;
          autofilled := None; outline := "" |};
     events := [] |}.

Definition maleFemaleOther (u : nat) : string :=
  match u with 1 => "Male" | 2 => "Female" | _ => "Other" end.

Definition femaleMale (u : nat) : string :=
  match u with 1 => "Female" | _ => "Male" end.

Definition genderProfile : Value :=
  VObj [("demographics", VObj [("gender", VStr "male")])].

(** An example.  In a radio group the first member in document order whose
    label (or value) equals or contains the wanted value is activated,
    and no other.  With the options "Male", "Female", "Other" and the
    wanted value "male", "Male" ends checked and the other two do not; the
    pass counts all three radio buttons, since [setValue] succeeds for
    each of them.  With the options in the order "Female", "Male" the
    same value activates "Female", whose text contains "male". *)
Theorem radio_first_match_activated :
  (let pass := fill genderAliases (radios maleFemaleOther 3) genderProfile in
   map (fun u => checked (props (page pass) u)) [1; 2; 3] = [true; false; false]
   /\ fillDone pass = Some 3)
  /\ (let pass := fill genderAliases (radios femaleMale 2) genderProfile in
      map (fun u => checked (props (page pass) u)) [1; 2] = [true; false]).
Proof. vm_compute. repeat split. Qed.

End RadioGroup.

(* ================================================================== *)
(** ** What every operation of the content script respects *)
(* ================================================================== *)

Module PassInvariants.

(** The element with identity [u] carries the user-edited flag. *)
Definition flagged (p : Page) (u : nat) : bool := optEq (userEdited (props p u)) "1".

(** The types of the events the content script causes. *)
Definition engineEvent (ev : nat * string) : Prop :=
  snd ev = "click" \/ snd ev = "input" \/ snd ev = "change".

(** [q] comes after [p]: the same document, no flag cleared, every
    outline as it was or the highlight, and the event log grown by
    [click], [input] and [change] events only. *)
Definition evolves (p q : Page) : Prop :=
  document q = document p
  /\ (forall u, flagged p u = true -> flagged q u = true)
  /\ (forall u, outline (props q u) = outline (props p u)
                \/ outline (props q u) = highlight)
  /\ exists new, events q = events p ++ new /\ Forall engineEvent new.

Lemma evolves_refl : forall p, evolves p p.
Proof.
  intros p. repeat split; auto. exists []. split; [now rewrite app_nil_r | constructor].
Qed.

Lemma evolves_trans : forall p q r, evolves p q -> evolves q r -> evolves p r.
Proof.
  intros p q r [D1 [F1 [O1 [n1 [E1 A1]]]]] [D2 [F2 [O2 [n2 [E2 A2]]]]].
  split; [congruence|]. split; [auto|]. split.
  - intros u. destruct (O2 u) as [H|H]; [rewrite H; apply O1 | now right].
  - exists (n1 ++ n2). split.
    + now rewrite E2, E1, app_assoc.
    + apply Forall_app. now split.
Qed.

Lemma update_evolves :
  forall p u f,
    (forall s, optEq (userEdited s) "1" = true -> optEq (userEdited (f s)) "1" = true) ->
    (forall s, outline (f s) = outline s \/ outline (f s) = highlight) ->
    evolves p (update p u f).
Proof.
  intros p u f Hf Ho. split; [reflexivity|]. split; [|split].
  - intros x. unfold flagged. simpl.
    destruct (Nat.eqb_spec x u) as [->|]; auto.
  - intros x. simpl. destruct (Nat.eqb_spec x u) as [->|]; auto.
  - exists []. split; [simpl; now rewrite app_nil_r | constructor].
Qed.

Lemma log_evolves :
  forall p u ty,
    engineEvent (u, ty) ->
    evolves p {| document := document p; props := props p;
                 events := events p ++ [(u, ty)] |}.
Proof.
  intros p u ty H. repeat split; auto.
  exists [(u, ty)]. split; [reflexivity|]. now constructor.
Qed.

Lemma onEdit_evolves : forall p t, evolves p (onEdit p t).
Proof.
  intros p t. unfold onEdit. destruct (isFormEl t); [|apply evolves_refl].
  apply update_evolves; intros s; simpl; auto.
Qed.

Lemma dispatchEvent_evolves :
  forall p t ty, engineEvent (uid (el t), ty) -> evolves p (dispatchEvent p t ty).
Proof.
  intros p t ty H. unfold dispatchEvent, DOM.dispatchEvent.
  eapply evolves_trans; [apply (log_evolves p _ _ H)|].
  destruct (r_inDocument t); [|apply evolves_refl].
  unfold listeners.
  destruct (String.eqb ty "input"); [apply onEdit_evolves|].
  destruct (String.eqb ty "change"); [apply onEdit_evolves|apply evolves_refl].
Qed.

Lemma setChecked_evolves : forall p u b, evolves p (setChecked p u b).
Proof. intros p u b. apply update_evolves; intros s; simpl; auto. Qed.

Lemma uncheck_evolves :
  forall l p, evolves p (fold_left (fun q r => setChecked q (uid (el r)) false) l p).
Proof.
  induction l as [|a rest IH]; intros p; simpl; [apply evolves_refl|].
  eapply evolves_trans; [apply setChecked_evolves | apply IH].
Qed.

Ltac engine_event := unfold engineEvent; simpl; auto.

Lemma activation_evolves :
  forall p t,
    evolves p (dispatchEvent (dispatchEvent (dispatchEvent p t "click") t "input") t "change").
Proof.
  intros p t.
  apply evolves_trans with (dispatchEvent p t "click");
    [apply dispatchEvent_evolves; engine_event|].
  apply evolves_trans with (dispatchEvent (dispatchEvent p t "click") t "input");
    apply dispatchEvent_evolves; engine_event.
Qed.

Lemma typing_evolves :
  forall p t, evolves p (dispatchEvent (dispatchEvent p t "input") t "change").
Proof.
  intros p t.
  apply evolves_trans with (dispatchEvent p t "input");
    apply dispatchEvent_evolves; engine_event.
Qed.

Lemma click_evolves : forall p t, evolves p (click p t).
Proof.
  intros p t. unfold click, DOM.click. fold dispatchEvent.
  destruct (isType t "checkbox").
  - eapply evolves_trans; [apply setChecked_evolves | apply activation_evolves].
  - destruct (isType t "radio"); [|apply evolves_refl].
    destruct (checked (stateOf p t)); [apply evolves_refl|].
    eapply evolves_trans; [apply uncheck_evolves|].
    eapply evolves_trans; [apply setChecked_evolves | apply activation_evolves].
Qed.

Lemma setRadio_evolves :
  forall group p want, evolves p (fst (setRadio p want group)).
Proof.
  induction group as [|t rest IH]; intros p want; simpl; [apply evolves_refl|].
  destruct (wanted want (memberLabel p t)); simpl; [|apply IH].
  destruct (checked (stateOf p t)); [apply evolves_refl | apply click_evolves].
Qed.

Lemma setCheckboxes_evolves :
  forall group p want n, evolves p (fst (setCheckboxes p want group n)).
Proof.
  induction group as [|t rest IH]; intros p want n; simpl; [apply evolves_refl|].
  destruct (Bool.eqb _ _); [apply IH|].
  eapply evolves_trans; [apply click_evolves | apply IH].
Qed.

Lemma setValueProp_evolves : forall p r v, evolves p (setValueProp p r v).
Proof. intros p r v. apply update_evolves; intros s; simpl; auto. Qed.

Lemma setOutline_evolves : forall p r, evolves p (setOutline p r highlight).
Proof. intros p r. apply update_evolves; intros s; simpl; auto. Qed.

Lemma setSelect_evolves : forall p r val, evolves p (fst (setSelect p r val)).
Proof.
  intros p r val. unfold setSelect.
  destruct (match find _ (options (el r)) with Some o => Some o | None => _ end)
    as [o|]; cbn [fst]; [|apply evolves_refl].
  apply evolves_trans with (setValueProp p r (o_value o));
    [apply setValueProp_evolves|].
  apply dispatchEvent_evolves; engine_event.
Qed.

Lemma setValue_evolves : forall p r val, evolves p (fst (setValue p r val)).
Proof.
  intros p r val. unfold setValue.
  destruct (isUserEdited p r); [apply evolves_refl|].
  destruct (isType r "checkbox" || isType r "radio").
  - destruct (isType r "radio"); [apply setRadio_evolves|].
    pose proof (setCheckboxes_evolves
                  (queryInputsByName p (orEmpty (attr_name (el r)))) p
                  (match val with
                   | VArr items => map (fun v => norm (toStr v)) items
                   | _ => [norm (toStr val)]
                   end) 0) as K.
    destruct (setCheckboxes p _ _ 0) as [p' clicked]. exact K.
  - destruct (tagEq (tag (el r)) TSelect); [apply setSelect_evolves|].
    cbn [fst].
    apply evolves_trans with (setValueProp p r (toStr (coalesce val (VStr ""))));
      [apply setValueProp_evolves | apply typing_evolves].
Qed.

Lemma userType_evolves : forall p t text, evolves p (userType p t text).
Proof.
  intros p t text. unfold userType.
  eapply evolves_trans; [|apply typing_evolves].
  apply update_evolves; intros s; simpl; auto.
Qed.

Section WithAliases.

Variable FIELD_ALIASES : list (string * list (string -> bool)).

Lemma fillStep_evolves :
  forall profile s r,
    evolves (page s) (page (fillStep FIELD_ALIASES profile s r))
    /\ count (fillStep FIELD_ALIASES profile s r) <= S (count s).
Proof.
  intros profile s r. unfold fillStep.
  destruct (thrown s); [split; [apply evolves_refl | lia]|].
  destruct (isUserEdited (page s) r); [split; [apply evolves_refl | lia]|].
  destruct (matchKey FIELD_ALIASES (page s) r) as [key|];
    [|split; [apply evolves_refl | lia]].
  destruct (String.eqb key ""); [split; [apply evolves_refl | lia]|].
  destruct (get profile key) as [val|e]; [|split; [apply evolves_refl | simpl; lia]].
  destruct (isAbsent val); [split; [apply evolves_refl | lia]|].
  pose proof (setValue_evolves (page s) r val) as K.
  destruct (setValue (page s) r val) as [p' ok]. cbn [fst] in K.
  destruct ok; cbn [page count]; split; try lia; try exact K.
  eapply evolves_trans; [exact K | apply setOutline_evolves].
Qed.

Lemma fold_fillStep_evolves :
  forall profile inputs s,
    evolves (page s) (page (fold_left (fillStep FIELD_ALIASES profile) inputs s))
    /\ count (fold_left (fillStep FIELD_ALIASES profile) inputs s)
       <= count s + List.length inputs.
Proof.
  intros profile inputs; induction inputs as [|r rest IH]; intros s; simpl.
  - split; [apply evolves_refl | lia].
  - destruct (IH (fillStep FIELD_ALIASES profile s r)) as [E C].
    destruct (fillStep_evolves profile s r) as [E1 C1].
    split; [eapply evolves_trans; eauto | lia].
Qed.

Lemma fill_evolves :
  forall p profile, evolves p (page (fill FIELD_ALIASES p profile)).
Proof.
  intros p profile. unfold fill.
  exact (proj1 (fold_fillStep_evolves profile _ {| page := p; count := 0; thrown := None |})).
Qed.

(** X6.  What a pass never does.  [fill] leaves the document tree as it
    is (it adds and removes no node, so it cannot wake the observer that
    scheduled it), clears no user-edited flag, sets an outline to the
    highlight or leaves it, and fires only [click], [input] and [change]
    events; the count it reports is at most the number of visible
    controls it iterates over. *)
Theorem pass_invariants :
  forall p profile,
    let pass := fill FIELD_ALIASES p profile in
    document (page pass) = document p
    /\ (forall u, flagged p u = true -> flagged (page pass) u = true)
    /\ (forall u, outline (props (page pass) u) = outline (props p u)
                  \/ outline (props (page pass) u) = highlight)
    /\ (exists new, events (page pass) = events p ++ new
                    /\ Forall engineEvent new)
    /\ count pass
       <= List.length (filter (fun r => offsetParent (el r)) (collectInputsDeep p)).
Proof.
  intros p profile pass.
  destruct (fold_fillStep_evolves profile
              (filter (fun r => offsetParent (el r)) (collectInputsDeep p))
              {| page := p; count := 0; thrown := None |}) as [[D [F [O E]]] C].
  repeat split; auto.
Qed.

Lemma fire_evolves :
  forall w t, evolves (w_page w) (w_page (fire FIELD_ALIASES w t))
              /\ w_closures (fire FIELD_ALIASES w t) = w_closures w.
Proof.
  intros w t. unfold fire.
  destruct (nth_error (w_closures w) (t_closure t)) as [cl|];
    [|split; [apply evolves_refl | reflexivity]].
  split; [apply fill_evolves | reflexivity].
Qed.

Lemma fold_fire_evolves :
  forall due w, evolves (w_page w) (w_page (fold_left (fire FIELD_ALIASES) due w)).
Proof.
  induction due as [|t rest IH]; intros w; simpl; [apply evolves_refl|].
  eapply evolves_trans; [apply fire_evolves | apply IH].
Qed.

Lemma run_page : forall w c, w_page (run w c) = w_page w.
Proof. intros w c. unfold run. now destruct (nth_error (w_closures w) c). Qed.

Lemma onMessage_page : forall w msg, w_page (onMessage w msg) = w_page w.
Proof.
  intros w msg. unfold onMessage.
  destruct (optProp msg "type"); try reflexivity.
  destruct (String.eqb s "FILL_EXECUTE"); [|reflexivity].
  unfold watchForChanges, scheduleFill. now rewrite run_page.
Qed.

Lemma onMutations_page : forall w muts, w_page (onMutations w muts) = w_page w.
Proof.
  intros w muts. unfold onMutations.
  destruct (w_observer w); [|reflexivity].
  destruct (existsb _ muts); [apply run_page | reflexivity].
Qed.

Lemma step_flags :
  forall w e u,
    flagged (w_page w) u = true -> flagged (w_page (step FIELD_ALIASES w e)) u = true.
Proof.
  intros w [msg|doc muts|dt] u H; simpl.
  - now rewrite onMessage_page.
  - rewrite onMutations_page. exact H.
  - unfold advance.
    destruct (fold_fire_evolves
                (filter (fun t => t_due t <=? w_now w + dt) (w_timers w))
                {| w_page := w_page w; w_now := w_now w + dt;
                   w_nextTimer := w_nextTimer w;
                   w_timers := filter (fun t => negb (t_due t <=? w_now w + dt)) (w_timers w);
                   w_closures := w_closures w; w_observer := w_observer w;
                   w_passes := w_passes w |}) as [_ [F _]].
    apply F. exact H.
Qed.

(** X7.  The user-edited flag is sticky.  Once an element carries it,
    nothing the content script does or reacts to clears it: no message,
    no mutation batch (whatever the new document), no pass run by a timer;
    nor does a later edit or click of the human.  The code has no
    statement that resets [dataset.userEdited]. *)
Theorem user_edited_flag_is_sticky :
  forall es w u,
    flagged (w_page w) u = true ->
    flagged (w_page (runEvents FIELD_ALIASES w es)) u = true
    /\ (forall t text, flagged (userType (w_page w) t text) u = true)
    /\ (forall t, flagged (userClick (w_page w) t) u = true).
Proof.
  intros es w u H. split; [|split].
  - revert w H. unfold runEvents.
    induction es as [|e rest IH]; intros w H; simpl; [exact H|].
    apply IH. now apply step_flags.
  - intros t text. destruct (userType_evolves (w_page w) t text) as [_ [F _]]. now apply F.
  - intros t. destruct (click_evolves (w_page w) t) as [_ [F _]]. now apply F.
Qed.

End WithAliases.

(** The human types into a field; then a fill request arrives and its
    pass runs. *)
Lemma user_edited_flag_is_sticky_witness :
  let field := {| r_node := leaf (input 1 "text" "email"); r_up := [];
                  r_root := [leaf (input 1 "text" "email")]; r_inDocument := true |} in
  let w := initial (userType (pageOf [leaf (input 1 "text" "email")]) field "me@home.net") in
  let es := [EvMessage (VObj [("type", VStr "FILL_EXECUTE");
                              ("payload",
                               VObj [("profile",
                                      VObj [("basics",
                                             VObj [("email", VStr "ada@example.org")])])])]);
             EvAdvance DEBOUNCE] in
  flagged (w_page (runEvents aliases w es)) 1 = true
  /\ (forall t text, flagged (userType (w_page w) t text) 1 = true)
  /\ (forall t, flagged (userClick (w_page w) t) 1 = true).
Proof.
  intros field w es. apply (user_edited_flag_is_sticky aliases es w 1). reflexivity.
Defined.

End PassInvariants.

Import PassInvariants.

(* ================================================================== *)
(** ** A pass right after a pass *)
(* ================================================================== *)

Module SecondPass.

(** Neither a checkbox nor a radio button. *)
Definition plain (r : Ref) : Prop :=
  isType r "checkbox" = false /\ isType r "radio" = false.

Lemma setSelect_failure :
  forall p r val, snd (setSelect p r val) = false -> setSelect p r val = (p, false).
Proof.
  intros p r val. unfold setSelect.
  destruct (match find _ (options (el r)) with Some o => Some o | None => _ end)
    as [o|]; simpl; [discriminate | reflexivity].
Qed.

Lemma setSelect_page_free :
  forall p q r val, snd (setSelect q r val) = snd (setSelect p r val).
Proof.
  intros p q r val. unfold setSelect.
  destruct (match find _ (options (el r)) with Some o => Some o | None => _ end)
    as [o|]; reflexivity.
Qed.

(** The capture listeners flag the target of an [input] or [change]
    event dispatched on a form control of the document. *)
Lemma dispatchEvent_flags :
  forall p r ty,
    r_inDocument r = true -> isFormEl r = true -> ty = "input" \/ ty = "change" ->
    isUserEdited (dispatchEvent p r ty) r = true.
Proof.
  intros p r ty Hd Hf Hty.
  unfold dispatchEvent, DOM.dispatchEvent, listeners, onEdit, isUserEdited, stateOf.
  rewrite Hd, Hf.
  destruct Hty as [-> | ->]; simpl; now rewrite Nat.eqb_refl.
Qed.

Lemma flagged_later :
  forall p q r, evolves p q -> isUserEdited p r = true -> isUserEdited q r = true.
Proof. intros p q r [_ [F _]] H. apply (F (uid (el r))). exact H. Qed.

Section WithAliases.

Variable FIELD_ALIASES : list (string * list (string -> bool)).
Variable profile : Value.

(** What the iteration of [fill] does with an element that carries no
    flag and is neither a checkbox nor a radio button. *)
Inductive Verdict : Type :=
| Skip
| Raise (e : string)
| Write (val : Value).

Definition verdict (p : Page) (r : Ref) : Verdict :=
  match matchKey FIELD_ALIASES p r with
  | None => Skip
  | Some key =>
      if String.eqb key "" then Skip
      else match get profile key with
           | Throw e => Raise e
           | Ok val =>
               if isAbsent val then Skip
               else if tagEq (tag (el r)) TSelect && negb (snd (setSelect p r val))
                    then Skip
                    else Write val
           end
  end.

(** The verdict depends on the document, the profile and the options
    of the element, not on the state of the elements. *)
Lemma verdict_document :
  forall p q r, document q = document p -> verdict q r = verdict p r.
Proof.
  intros p q r H. unfold verdict.
  rewrite (matchKey_document FIELD_ALIASES p q r H).
  destruct (matchKey FIELD_ALIASES p r) as [key|]; [|reflexivity].
  destruct (String.eqb key ""); [reflexivity|].
  destruct (get profile key) as [val|e]; [|reflexivity].
  now rewrite (setSelect_page_free p q r val).
Qed.

Lemma setValue_plain :
  forall p r val,
    isUserEdited p r = false -> plain r ->
    setValue p r val
    = if tagEq (tag (el r)) TSelect then setSelect p r val
      else (dispatchEvent
              (dispatchEvent (setValueProp p r (toStr (coalesce val (VStr "")))) r "input")
              r "change", true).
Proof.
  intros p r val Hu [Hc Hr]. unfold setValue. now rewrite Hu, Hc, Hr.
Qed.

Lemma pass_eta :
  forall s, thrown s = None ->
    {| page := page s; count := count s; thrown := None |} = s.
Proof. intros [p c t]; simpl; intros ->; reflexivity. Qed.

Lemma fillStep_Skip :
  forall s r,
    thrown s = None -> isUserEdited (page s) r = false -> plain r ->
    verdict (page s) r = Skip ->
    fillStep FIELD_ALIASES profile s r = s.
Proof.
  intros s r Ht Hu Hp. unfold verdict, fillStep. rewrite Ht, Hu.
  destruct (matchKey FIELD_ALIASES (page s) r) as [key|]; [|reflexivity].
  destruct (String.eqb key ""); [reflexivity|].
  destruct (get profile key) as [val|e]; [|discriminate].
  destruct (isAbsent val); [reflexivity|].
  rewrite (setValue_plain _ _ _ Hu Hp).
  destruct (tagEq (tag (el r)) TSelect); simpl; [|discriminate].
  destruct (snd (setSelect (page s) r val)) eqn:E; simpl; [discriminate|].
  intros _. rewrite (setSelect_failure _ _ _ E). now apply pass_eta.
Qed.

Lemma fillStep_Raise :
  forall s r e,
    thrown s = None -> isUserEdited (page s) r = false ->
    verdict (page s) r = Raise e ->
    fillStep FIELD_ALIASES profile s r
    = {| page := page s; count := count s; thrown := Some e |}.
Proof.
  intros s r e Ht Hu. unfold verdict, fillStep. rewrite Ht, Hu.
  destruct (matchKey FIELD_ALIASES (page s) r) as [key|]; [|discriminate].
  destruct (String.eqb key ""); [discriminate|].
  destruct (get profile key) as [val|e']; [|now intros [= ->]].
  destruct (isAbsent val); [discriminate|].
  destruct (tagEq (tag (el r)) TSelect && negb (snd (setSelect (page s) r val)));
    discriminate.
Qed.

Lemma fillStep_Write :
  forall s r val,
    thrown s = None -> isUserEdited (page s) r = false -> plain r ->
    r_inDocument r = true -> isFormEl r = true ->
    verdict (page s) r = Write val ->
    thrown (fillStep FIELD_ALIASES profile s r) = None
    /\ isUserEdited (page (fillStep FIELD_ALIASES profile s r)) r = true.
Proof.
  intros s r val Ht Hu Hp Hd Hf. unfold verdict, fillStep. rewrite Ht, Hu.
  destruct (matchKey FIELD_ALIASES (page s) r) as [key|]; [|discriminate].
  destruct (String.eqb key ""); [discriminate|].
  destruct (get profile key) as [v|e]; [|discriminate].
  destruct (isAbsent v); [discriminate|].
  rewrite (setValue_plain _ _ _ Hu Hp).
  destruct (tagEq (tag (el r)) TSelect); simpl.
  - destruct (snd (setSelect (page s) r v)) eqn:E; simpl; [|discriminate].
    intros _. revert E. unfold setSelect.
    destruct (match find _ (options (el r)) with Some o => Some o | None => _ end)
      as [o|]; simpl; [|discriminate].
    intros _. split; [reflexivity|].
    apply (flagged_later (dispatchEvent (setValueProp (page s) r (o_value o)) r "change")).
    + apply setOutline_evolves.
    + apply dispatchEvent_flags; auto.
  - intros _. split; [reflexivity|].
    apply (flagged_later
             (dispatchEvent
                (dispatchEvent (setValueProp (page s) r (toStr (coalesce v (VStr "")))) r "input")
                r "change")).
    + apply setOutline_evolves.
    + apply dispatchEvent_flags; auto.
Qed.

Lemma fillStep_flagged :
  forall s r, isUserEdited (page s) r = true -> fillStep FIELD_ALIASES profile s r = s.
Proof.
  intros s r H. unfold fillStep. destruct (thrown s); [reflexivity|]. now rewrite H.
Qed.

Lemma fold_thrown :
  forall inputs s e,
    thrown s = Some e -> fold_left (fillStep FIELD_ALIASES profile) inputs s = s.
Proof.
  induction inputs as [|r rest IH]; intros s e H; simpl; [reflexivity|].
  assert (E : fillStep FIELD_ALIASES profile s r = s)
    by (unfold fillStep; now rewrite H).
  rewrite E. now apply (IH s e).
Qed.

(** After a pass over plain controls of the document, a pass over the
    same controls from the page the first one left finds nothing to do. *)
Lemma pass_settled :
  forall inputs s,
    thrown s = None ->
    (forall r, In r inputs ->
               r_inDocument r = true /\ isFormEl r = true /\ plain r) ->
    let final := fold_left (fillStep FIELD_ALIASES profile) inputs s in
    forall c,
      fold_left (fillStep FIELD_ALIASES profile) inputs
                {| page := page final; count := c; thrown := None |}
      = {| page := page final; count := c; thrown := thrown final |}.
Proof.
  induction inputs as [|r rest IH]; intros s Ht Hin final c.
  - simpl in *. subst final. now rewrite Ht.
  - destruct (Hin r (or_introl eq_refl)) as [Hd [Hf Hp]].
    assert (Hrest : forall x, In x rest ->
                      r_inDocument x = true /\ isFormEl x = true /\ plain x)
      by (intros x Hx; apply Hin; now right).
    set (s' := fillStep FIELD_ALIASES profile s r).
    assert (Efinal : final = fold_left (fillStep FIELD_ALIASES profile) rest s')
      by reflexivity.
    assert (Later : evolves (page s') (page final)).
    { rewrite Efinal. apply (fold_fillStep_evolves FIELD_ALIASES profile rest s'). }
    assert (Step : evolves (page s) (page s'))
      by apply (fillStep_evolves FIELD_ALIASES profile s r).
    simpl fold_left at 1.
    (* the iteration for [r] in the second pass *)
    destruct (isUserEdited (page s) r) eqn:U.
    { (* flagged before the first pass reached it *)
      assert (E : s' = s) by (apply fillStep_flagged; exact U).
      rewrite fillStep_flagged.
      - rewrite E in Efinal. rewrite Efinal. apply (IH s Ht Hrest).
      - cbn [page]. apply (flagged_later (page s')); auto. now rewrite E. }
    destruct (verdict (page s) r) as [|e|val] eqn:V.
    + (* skipped by the first pass *)
      assert (E : s' = s) by (apply fillStep_Skip; auto).
      assert (E2 : fillStep FIELD_ALIASES profile
                     {| page := page final; count := c; thrown := None |} r
                   = {| page := page final; count := c; thrown := None |}).
      { destruct (isUserEdited (page final) r) eqn:U2.
        - now apply fillStep_flagged.
        - apply fillStep_Skip; auto. cbn [page].
          rewrite <- V. apply verdict_document.
          destruct Later as [D _]. destruct Step as [D' _]. congruence. }
      rewrite E2. rewrite E in Efinal. rewrite Efinal. apply (IH s Ht Hrest).
    + (* the first pass ended here *)
      assert (E : s' = {| page := page s; count := count s; thrown := Some e |})
        by (apply fillStep_Raise; auto).
      assert (F : final = s').
      { rewrite Efinal. apply (fold_thrown rest s' e). now rewrite E. }
      rewrite F, E. cbn [page thrown].
      rewrite (fillStep_Raise {| page := page s; count := c; thrown := None |} r e);
        auto.
      cbn [page count]. now apply (fold_thrown rest _ e).
    + (* written by the first pass *)
      destruct (fillStep_Write s r val Ht U Hp Hd Hf V) as [Ht' U'].
      fold s' in Ht', U'.
      rewrite fillStep_flagged.
      * rewrite Efinal. apply (IH s' Ht' Hrest).
      * cbn [page]. now apply (flagged_later (page s')).
Qed.

(** X8.  On a page whose visible controls all lie in the document tree
    and are text inputs, textareas or selects, a second pass with the same
    profile right after the first changes nothing and counts nothing: it
    reports 0 fields, or ends by the exception that ended the first.  A
    control the first pass wrote carries the user-edited flag, set by the
    capture listeners at the events of that write; a control it skipped is
    skipped again. *)
Theorem second_pass_changes_nothing :
  forall p,
    (forall r, In r (collectInputsDeep p) -> offsetParent (el r) = true ->
               r_inDocument r = true /\ plain r) ->
    let first := fill FIELD_ALIASES p profile in
    let second := fill FIELD_ALIASES (page first) profile in
    page second = page first
    /\ count second = 0
    /\ thrown second = thrown first.
Proof.
  intros p H first second.
  assert (D : document (page first) = document p).
  { destruct (fill_evolves FIELD_ALIASES p profile) as [D _]. exact D. }
  assert (C : collectInputsDeep (page first) = collectInputsDeep p).
  { unfold collectInputsDeep, documentAll. now rewrite D. }
  pose proof (pass_settled (filter (fun r => offsetParent (el r)) (collectInputsDeep p))
                {| page := p; count := 0; thrown := None |} eq_refl) as S.
  cbv zeta in S. fold (fill FIELD_ALIASES p profile) in S. fold first in S.
  assert (E : second = {| page := page first; count := 0; thrown := thrown first |}).
  { unfold second, fill. rewrite C. apply S.
    intros r Hr. apply filter_In in Hr. destruct Hr as [Hr Hv].
    destruct (H r Hr Hv) as [Hd Hp]. repeat split; auto; try apply Hp.
    unfold collectInputsDeep in Hr. apply filter_In in Hr. tauto. }
  rewrite E. repeat split.
Qed.

End WithAliases.

(** A page with two text inputs, "email" and "first name". *)
Definition twoFields : Page :=
  pageOf [leaf (input 1 "text" "email"); leaf (input 2 "text" "first name")].

Definition ada : Value :=
  VObj [("basics", VObj [("email", VStr "ada@example.org"); ("firstName", VStr "Ada")])].

Lemma second_pass_changes_nothing_witness :
  let first := fill aliases twoFields ada in
  let second := fill aliases (page first) ada in
  page second = page first /\ count second = 0 /\ thrown second = thrown first.
Proof.
  apply (second_pass_changes_nothing aliases ada twoFields).
  intros r Hr _. vm_compute in Hr.
  destruct Hr as [<-|[<-|[]]]; repeat split.
Defined.

End SecondPass.

(* ================================================================== *)
(** ** Checkbox and radio groups *)
(* ================================================================== *)

Module ToggleGroups.

(** [want] of [setValue]: the normalised wanted values. *)
Definition wantedValues (val : Value) : list string :=
  match val with
  | VArr items => map (fun v => norm (toStr v)) items
  | _ => [norm (toStr val)]
  end.

Definition uidOf (t : Ref) : nat := uid (el t).

(** A member of a group whose checkedness differs from the wanted one. *)
Definition differs (p : Page) (want : list string) (t : Ref) : bool :=
  negb (Bool.eqb (checked (stateOf p t)) (wanted want (memberLabel p t))).

Lemma checkbox_not_radio :
  forall t, isType t "checkbox" = true -> isType t "radio" = false.
Proof.
  intros t. unfold isType. destruct (tagEq (tag (el t)) TInput); simpl; [|discriminate].
  intros H. apply String.eqb_eq in H. now rewrite H.
Qed.

Lemma radio_not_checkbox :
  forall t, isType t "radio" = true -> isType t "checkbox" = false.
Proof.
  intros t. unfold isType. destruct (tagEq (tag (el t)) TInput); simpl; [|discriminate].
  intros H. apply String.eqb_eq in H. now rewrite H.
Qed.

(** An event changes no value and no checkedness. *)
Lemma dispatchEvent_state :
  forall p t ty,
    document (dispatchEvent p t ty) = document p
    /\ forall u, value (props (dispatchEvent p t ty) u) = value (props p u)
                 /\ checked (props (dispatchEvent p t ty) u) = checked (props p u).
Proof.
  intros p t ty. unfold dispatchEvent, DOM.dispatchEvent, listeners, onEdit.
  destruct (r_inDocument t); [|now split].
  destruct (String.eqb ty "input"), (String.eqb ty "change"), (isFormEl t);
    (split; [reflexivity|]); intros u; simpl;
    try (destruct (Nat.eqb_spec u (uid (el t))) as [->|]); now split.
Qed.

Lemma activation_state :
  forall p t,
    let q := dispatchEvent (dispatchEvent (dispatchEvent p t "click") t "input") t "change" in
    document q = document p
    /\ forall u, value (props q u) = value (props p u)
                 /\ checked (props q u) = checked (props p u).
Proof.
  intros p t q. subst q.
  destruct (dispatchEvent_state p t "click") as [D1 S1].
  destruct (dispatchEvent_state (dispatchEvent p t "click") t "input") as [D2 S2].
  destruct (dispatchEvent_state
              (dispatchEvent (dispatchEvent p t "click") t "input") t "change") as [D3 S3].
  split; [congruence|].
  intros u. destruct (S1 u), (S2 u), (S3 u). split; congruence.
Qed.

Lemma memberLabel_same :
  forall p q t,
    document q = document p -> (forall u, value (props q u) = value (props p u)) ->
    memberLabel q t = memberLabel p t.
Proof.
  intros p q t D V. unfold memberLabel, stateOf.
  now rewrite (labelText_document p q t D), V.
Qed.

(** A click on a checkbox toggles it and touches the checkedness of no
    other element. *)
Lemma click_checkbox :
  forall p t,
    isType t "checkbox" = true ->
    document (click p t) = document p
    /\ (forall u, value (props (click p t) u) = value (props p u))
    /\ checked (props (click p t) (uid (el t))) = negb (checked (stateOf p t))
    /\ (forall u, u <> uid (el t) ->
                  checked (props (click p t) u) = checked (props p u)).
Proof.
  intros p t H. unfold click, DOM.click. rewrite H.
  destruct (activation_state
              (setChecked p (uid (el t)) (negb (checked (stateOf p t)))) t) as [D S].
  unfold dispatchEvent in D, S.
  split; [exact D|]. split; [|split].
  - intros u. destruct (S u) as [V _]. rewrite V. simpl.
    now destruct (Nat.eqb_spec u (uid (el t))) as [->|].
  - destruct (S (uid (el t))) as [_ C]. rewrite C. simpl. now rewrite Nat.eqb_refl.
  - intros u Hu. destruct (S u) as [_ C]. rewrite C. simpl.
    destruct (Nat.eqb_spec u (uid (el t))); [congruence|reflexivity].
Qed.

Lemma differs_same :
  forall p q want t,
    document q = document p -> (forall u, value (props q u) = value (props p u)) ->
    checked (stateOf q t) = checked (stateOf p t) ->
    differs q want t = differs p want t.
Proof.
  intros p q want t D V C. unfold differs.
  now rewrite C, (memberLabel_same p q t D V).
Qed.

(** The loop over a group of checkboxes. *)
Lemma setCheckboxes_spec :
  forall want group p n,
    NoDup (map uidOf group) ->
    (forall t, In t group -> isType t "checkbox" = true) ->
    let p' := fst (setCheckboxes p want group n) in
    document p' = document p
    /\ (forall u, value (props p' u) = value (props p u))
    /\ (forall t, In t group ->
                  checked (stateOf p' t) = wanted want (memberLabel p t))
    /\ (forall u, ~ In u (map uidOf group) ->
                  checked (props p' u) = checked (props p u))
    /\ snd (setCheckboxes p want group n)
       = n + List.length (filter (differs p want) group).
Proof.
  intros want; induction group as [|t rest IH]; intros p n Hnd Hcb p'.
  - subst p'; simpl. repeat split; auto. intros t [].
  - inversion Hnd as [|? ? Hnotin Hnd']; subst.
    assert (Hrest : forall x, In x rest -> isType x "checkbox" = true)
      by (intros x Hx; apply Hcb; now right).
    subst p'. simpl. unfold differs at 1.
    destruct (Bool.eqb (checked (stateOf p t)) (wanted want (memberLabel p t))) eqn:E.
    + destruct (IH p n Hnd' Hrest) as [D [V [W [O C]]]].
      split; [exact D|]. split; [exact V|]. split; [|split].
      * intros x [<-|Hx]; [|now apply W].
        unfold stateOf. rewrite (O (uid (el t)) Hnotin).
        now apply Bool.eqb_prop in E.
      * intros u Hu. apply O. intros Hin. apply Hu. now right.
      * simpl. exact C.
    + destruct (click_checkbox p t (Hcb t (or_introl eq_refl))) as [D1 [V1 [T1 O1]]].
      destruct (IH (click p t) (S n) Hnd' Hrest) as [D [V [W [O C]]]].
      split; [congruence|]. split; [intros u; now rewrite V, V1|]. split; [|split].
      * intros x [<-|Hx].
        -- unfold stateOf. rewrite (O (uid (el t)) Hnotin), T1.
           destruct (checked (stateOf p t)), (wanted want (memberLabel p t));
             simpl in *; congruence.
        -- rewrite (W x Hx). now rewrite (memberLabel_same p (click p t) x D1 V1).
      * intros u Hu. rewrite O by (intros Hin; apply Hu; now right).
        apply O1. intros ->. apply Hu. now left.
      * rewrite C. simpl.
        rewrite (filter_ext_in (differs (click p t) want) (differs p want)); [lia|].
        intros x Hx. apply differs_same; auto.
        unfold stateOf. apply O1. intros Ex. apply Hnotin.
        unfold uidOf at 1. rewrite <- Ex. exact (in_map uidOf rest x Hx).
Qed.

Lemma setCheckboxes_settled :
  forall want group p n,
    (forall t, In t group -> checked (stateOf p t) = wanted want (memberLabel p t)) ->
    setCheckboxes p want group n = (p, n).
Proof.
  intros want; induction group as [|t rest IH]; intros p n H; simpl; [reflexivity|].
  rewrite (H t (or_introl eq_refl)), Bool.eqb_reflx.
  apply IH. intros x Hx. apply H. now right.
Qed.

Lemma queryInputsByName_document :
  forall p q name, document q = document p ->
    queryInputsByName q name = queryInputsByName p name.
Proof. intros p q name D. unfold queryInputsByName, documentAll. now rewrite D. Qed.

(** X9.  The checkbox branch of [setValue] brings the group to the
    wanted state.  For a checkbox without the user-edited flag whose group
    (the inputs of the document with its name) consists of checkboxes with
    distinct identities: afterwards a member is checked exactly when its
    label (or its value, when it has no label) equals or contains a wanted
    value, so an empty array unchecks the whole group; the call returns
    [true] exactly when some member had to change; no element outside the
    group changes its checkedness; and a second call with the same value
    changes nothing and returns [false]. *)
Theorem checkbox_group_reaches_wanted_state :
  forall p r val,
    isUserEdited p r = false -> isType r "checkbox" = true ->
    let group := queryInputsByName p (orEmpty (attr_name (el r))) in
    let want := wantedValues val in
    NoDup (map uidOf group) ->
    (forall t, In t group -> isType t "checkbox" = true) ->
    let p' := fst (setValue p r val) in
    (forall t, In t group -> checked (stateOf p' t) = wanted want (memberLabel p t))
    /\ (snd (setValue p r val) = true <-> exists t, In t group /\ differs p want t = true)
    /\ (forall u, ~ In u (map uidOf group) -> checked (props p' u) = checked (props p u))
    /\ setValue p' r val = (p', false).
Proof.
  intros p r val Hu Hc group want Hnd Hcb p'.
  assert (E : setValue p r val
              = (fst (setCheckboxes p want group 0),
                 0 <? snd (setCheckboxes p want group 0))).
  { unfold setValue. rewrite Hu, Hc, (checkbox_not_radio r Hc). simpl.
    fold (wantedValues val). fold want. fold group.
    now destruct (setCheckboxes p want group 0). }
  destruct (setCheckboxes_spec want group p 0 Hnd Hcb) as [D [V [W [O C]]]].
  subst p'. rewrite E. cbn [fst snd].
  split; [exact W|]. split; [|split; [exact O|]].
  - rewrite C. simpl. split.
    + intros H. apply Nat.ltb_lt in H.
      destruct (filter (differs p want) group) as [|t l] eqn:F; [simpl in H; lia|].
      exists t. apply (filter_In (differs p want) t group). rewrite F. now left.
    + intros [t [Ht Hd]]. apply Nat.ltb_lt.
      assert (Hin : In t (filter (differs p want) group)) by (apply filter_In; auto).
      destruct (filter (differs p want) group); [destruct Hin | simpl; lia].
  - set (q := fst (setCheckboxes p want group 0)) in *.
    unfold setValue.
    destruct (isUserEdited q r); [reflexivity|].
    rewrite Hc, (checkbox_not_radio r Hc). simpl.
    fold (wantedValues val). fold want.
    rewrite (queryInputsByName_document p q _ D). fold group.
    rewrite (setCheckboxes_settled want group q 0); [reflexivity|].
    intros t Ht. rewrite (W t Ht). now rewrite (memberLabel_same p q t D V).
Qed.

(** Two checkboxes of one group, with the values "White" and "Asian",
    the first one ticked. *)
Definition boxes : Page :=
  {| document := [leaf (input 1 "checkbox" "race"); leaf (input 2 "checkbox" "race")];
     props := fun u =>
       {| value := if Nat.eqb u 1 then "White" else "Asian";
          checked := Nat.eqb u 1; userEdited := None; autofilled := None;
          outline := "" |};
     events := [] |}.

Definition box (u : nat) : Ref :=
  {| r_node := leaf (input u "checkbox" "race"); r_up := [];
     r_root := document boxes; r_inDocument := true |}.

Lemma checkbox_group_reaches_wanted_state_witness :
  let p' := fst (setValue boxes (box 2) (VArr [VStr "Asian"])) in
  (forall t, In t (queryInputsByName boxes "race") ->
             checked (stateOf p' t)
             = wanted (wantedValues (VArr [VStr "Asian"])) (memberLabel boxes t))
  /\ (snd (setValue boxes (box 2) (VArr [VStr "Asian"])) = true
      <-> exists t, In t (queryInputsByName boxes "race")
                    /\ differs boxes (wantedValues (VArr [VStr "Asian"])) t = true)
  /\ (forall u, ~ In u (map uidOf (queryInputsByName boxes "race")) ->
                checked (props p' u) = checked (props boxes u))
  /\ setValue p' (box 2) (VArr [VStr "Asian"]) = (p', false).
Proof.
  apply (checkbox_group_reaches_wanted_state boxes (box 2) (VArr [VStr "Asian"])).
  - reflexivity.
  - reflexivity.
  - vm_compute. repeat constructor; simpl; intuition discriminate.
  - intros t Ht. vm_compute in Ht. destruct Ht as [<-|[<-|[]]]; reflexivity.
Defined.

(** Unchecking the siblings of a radio button. *)
Lemma uncheck_spec :
  forall l p u,
    checked (props (fold_left (fun q r => setChecked q (uid (el r)) false) l p) u)
    = if existsb (fun g => Nat.eqb u (uid (el g))) l then false
      else checked (props p u).
Proof.
  induction l as [|a rest IH]; intros p u; simpl; [reflexivity|].
  rewrite IH. simpl.
  destruct (Nat.eqb_spec u (uid (el a))) as [->|]; simpl.
  - now destruct (existsb _ rest).
  - reflexivity.
Qed.

(** A click on an unchecked radio button checks it, unchecks the other
    radio buttons of its group and touches the checkedness of no other
    element. *)
Lemma click_radio :
  forall p t,
    isType t "radio" = true -> checked (stateOf p t) = false ->
    checked (props (click p t) (uid (el t))) = true
    /\ (forall g, In g (radioSiblings t) -> checked (props (click p t) (uid (el g))) = false)
    /\ (forall u, u <> uid (el t) ->
                  (forall g, In g (radioSiblings t) -> uid (el g) <> u) ->
                  checked (props (click p t) u) = checked (props p u)).
Proof.
  intros p t Hr Hc. unfold click, DOM.click.
  rewrite (radio_not_checkbox t Hr), Hr, Hc.
  set (p1 := fold_left (fun q r => setChecked q (uid (el r)) false) (radioSiblings t) p).
  destruct (activation_state (setChecked p1 (uid (el t)) true) t) as [_ S].
  unfold dispatchEvent in S.
  assert (Hsib : forall g, In g (radioSiblings t) -> uid (el g) <> uid (el t)).
  { intros g Hg. unfold radioSiblings in Hg.
    destruct (attr_name (el t)) as [n|]; [|destruct Hg].
    destruct (String.eqb n ""); [destruct Hg|].
    apply filter_In in Hg. destruct Hg as [_ Hf].
    apply andb_prop in Hf. destruct Hf as [_ Hf].
    apply negb_true_iff in Hf. now apply Nat.eqb_neq in Hf. }
  split; [|split].
  - destruct (S (uid (el t))) as [_ C]. rewrite C. simpl. now rewrite Nat.eqb_refl.
  - intros g Hg. destruct (S (uid (el g))) as [_ C]. rewrite C. simpl.
    destruct (Nat.eqb_spec (uid (el g)) (uid (el t))) as [E|_];
      [now apply Hsib in Hg|].
    unfold p1. rewrite uncheck_spec.
    assert (X : existsb (fun g0 => Nat.eqb (uid (el g)) (uid (el g0))) (radioSiblings t) = true).
    { apply existsb_exists. exists g. split; [exact Hg | apply Nat.eqb_refl]. }
    now rewrite X.
  - intros u Hu Hg. destruct (S u) as [_ C]. rewrite C. simpl.
    destruct (Nat.eqb_spec u (uid (el t))); [congruence|].
    unfold p1. rewrite uncheck_spec.
    destruct (existsb (fun g => Nat.eqb u (uid (el g))) (radioSiblings t)) eqn:X;
      [|reflexivity].
    apply existsb_exists in X. destruct X as [g [Hin Heq]].
    apply Nat.eqb_eq in Heq. exfalso. apply (Hg g Hin). congruence.
Qed.

Lemma setRadio_find :
  forall want group p,
    setRadio p want group
    = match find (fun t => wanted want (memberLabel p t)) group with
      | Some t => ((if checked (stateOf p t) then p else click p t), true)
      | None => (p, false)
      end.
Proof.
  intros want; induction group as [|t rest IH]; intros p; simpl; [reflexivity|].
  destruct (wanted want (memberLabel p t)); [reflexivity | apply IH].
Qed.

Lemma optEq_eq : forall o s, optEq o s = true -> o = Some s.
Proof.
  intros [x|] s; simpl; [|discriminate]. intros H. apply String.eqb_eq in H. now subst.
Qed.

(** X5.  The radio branch of [setValue].  For a radio button without the
    user-edited flag and with a non-empty name, the group being the inputs
    of the document with that name: when no member's label (or value, when
    it has no label) equals or contains a wanted value nothing changes and
    the call returns [false]; otherwise the call returns [true] and the
    first such member in document order is the activated one.  If it was
    checked already the page stays as it is; if not (and it is a radio
    button) it ends checked, every other radio button of the group ends
    unchecked, and no element outside the group changes its checkedness. *)
Theorem radio_group_first_wanted :
  forall p r val name,
    isUserEdited p r = false -> isType r "radio" = true ->
    attr_name (el r) = Some name -> name <> "" ->
    let group := queryInputsByName p name in
    let want := wantedValues val in
    match find (fun t => wanted want (memberLabel p t)) group with
    | None => setValue p r val = (p, false)
    | Some t =>
        let p' := fst (setValue p r val) in
        snd (setValue p r val) = true
        /\ (checked (stateOf p t) = true -> p' = p)
        /\ (checked (stateOf p t) = false -> isType t "radio" = true ->
            checked (stateOf p' t) = true
            /\ (forall g, In g group -> isType g "radio" = true ->
                          uid (el g) <> uid (el t) -> checked (stateOf p' g) = false)
            /\ (forall u, ~ In u (map uidOf group) ->
                          checked (props p' u) = checked (props p u)))
    end.
Proof.
  intros p r val name Hu Hr Hn Hne group want.
  assert (E : setValue p r val = setRadio p want group).
  { unfold setValue. rewrite Hu, Hr, Hn, orb_true_r. reflexivity. }
  rewrite E, setRadio_find.
  destruct (find (fun t => wanted want (memberLabel p t)) group) as [t|] eqn:F;
    [|reflexivity].
  cbn [fst snd]. split; [reflexivity|]. split; [now intros ->|].
  intros Hc Ht. rewrite Hc.
  apply find_some in F. destruct F as [Hin _].
  unfold group, queryInputsByName in Hin. apply filter_In in Hin.
  destruct Hin as [Hdoc Hf]. apply andb_prop in Hf. destruct Hf as [_ Hname].
  apply optEq_eq in Hname.
  destruct (treeRefs_root _ _ _ Hdoc) as [Hroot Hind].
  assert (Sib : forall g, In g group -> isType g "radio" = true ->
                          uid (el g) <> uid (el t) -> In g (radioSiblings t)).
  { intros g Hg Hgr Hgu. unfold radioSiblings. rewrite Hname.
    destruct (String.eqb_spec name ""); [congruence|].
    unfold group, queryInputsByName in Hg. apply filter_In in Hg.
    destruct Hg as [Hgd Hgf]. apply andb_prop in Hgf. destruct Hgf as [_ Hgn].
    apply filter_In. split.
    - rewrite Hroot, Hind. exact Hgd.
    - rewrite Hgr, Hgn. simpl. apply negb_true_iff. now apply Nat.eqb_neq. }
  destruct (click_radio p t Ht Hc) as [A [B C]].
  split; [exact A|]. split.
  - intros g Hg Hgr Hgu. apply B. now apply Sib.
  - intros u Hu'. apply C.
    + intros ->. apply Hu'. unfold group, queryInputsByName.
      change (uid (el t)) with (uidOf t). apply in_map. apply filter_In. split; auto.
      rewrite Hname. simpl. rewrite String.eqb_refl, andb_true_r.
      unfold isType in Ht. now apply andb_prop in Ht.
    + intros g Hg Eg. apply Hu'. rewrite <- Eg.
      unfold radioSiblings in Hg. rewrite Hname in Hg.
      destruct (String.eqb name ""); [destruct Hg|].
      apply filter_In in Hg. destruct Hg as [Hgd Hgf].
      apply andb_prop in Hgf. destruct Hgf as [Hgf _].
      apply andb_prop in Hgf. destruct Hgf as [Hgr Hgn].
      change (uid (el g)) with (uidOf g). apply in_map.
      unfold group, queryInputsByName. apply filter_In. split.
      * rewrite Hroot, Hind in Hgd. exact Hgd.
      * rewrite Hgn, andb_true_r. unfold isType in Hgr. now apply andb_prop in Hgr.
Qed.

(** Three radio buttons of one group without labels, with the values
    "Male", "Female" and "Other". *)
Definition genders : Page :=
  {| document := map (fun u => leaf (input u "radio" "gender")) [1; 2; 3];
     props := fun u =>
       {| value := match u with 1 => "Male" | 2 => "Female" | _ => "Other" end;
          checked := false; userEdited := None; autofilled := None; outline := "" |};
     events := [] |}.

Definition gender (u : nat) : Ref :=
  {| r_node := leaf (input u "radio" "gender"); r_up := [];
     r_root := document genders; r_inDocument := true |}.

(** The wanted value "male", asked for at the second button. *)
Lemma radio_group_first_wanted_witness :
  let group := queryInputsByName genders "gender" in
  match find (fun t => wanted (wantedValues (VStr "male")) (memberLabel genders t)) group with
  | None => setValue genders (gender 2) (VStr "male") = (genders, false)
  | Some t =>
      let p' := fst (setValue genders (gender 2) (VStr "male")) in
      snd (setValue genders (gender 2) (VStr "male")) = true
      /\ (checked (stateOf genders t) = true -> p' = genders)
      /\ (checked (stateOf genders t) = false -> isType t "radio" = true ->
          checked (stateOf p' t) = true
          /\ (forall g, In g group -> isType g "radio" = true ->
                        uid (el g) <> uid (el t) -> checked (stateOf p' g) = false)
          /\ (forall u, ~ In u (map uidOf group) ->
                        checked (props p' u) = checked (props genders u)))
  end.
Proof.
  apply (radio_group_first_wanted genders (gender 2) (VStr "male") "gender").
  - reflexivity.
  - reflexivity.
  - reflexivity.
  - discriminate.
Defined.

End ToggleGroups.

(* ================================================================== *)
(** ** The traversal reaches every control *)
(* ================================================================== *)

Module DeepTraversal.

(** The elements of the page, whatever the depth: a root of the
    document, a child of a reachable element, or a root of the open shadow
    tree a reachable element hosts. *)
Inductive Reaches (roots : list Node) : Node -> Prop :=
| reach_root : forall n, In n roots -> Reaches roots n
| reach_child : forall m n, Reaches roots m -> In n (childrenOf m) -> Reaches roots n
| reach_shadow : forall m sr n,
    Reaches roots m -> shadowOf m = Some sr -> In n sr -> Reaches roots n.

Definition isFormNode (n : Node) : bool :=
  match tag (elemOf n) with
  | TInput | TSelect | TTextarea => true
  | _ => false
  end.

(** A node and the nodes of its light tree. *)
Fixpoint nodesUnder (n : Node) : list Node :=
  match n with
  | mkNode _ children _ => n :: flat_map nodesUnder children
  end.

(** Induction over a node, the nodes of its light tree and the nodes of
    the shadow trees below it. *)
Fixpoint Node_deep_ind (P : Node -> Prop)
  (step : forall e children sr,
      Forall P children ->
      (forall roots, sr = Some roots -> Forall P roots) ->
      P (mkNode e children sr))
  (n : Node) : P n :=
  match n with
  | mkNode e children sr =>
      let all :=
        fix all (l : list Node) : Forall P l :=
          match l with
          | [] => Forall_nil P
          | x :: rest => Forall_cons x (Node_deep_ind P step x) (all rest)
          end in
      step e children sr (all children)
        (match sr as o return forall roots, o = Some roots -> Forall P roots with
         | Some l => fun roots E =>
             match E in _ = o return match o with Some r => Forall P r | None => True end with
             | eq_refl => all l
             end
         | None => fun roots E =>
             match E in _ = o return match o with Some r => Forall P r | None => True end with
             | eq_refl => I
             end
         end)
  end.

Lemma refsUnder_nodes :
  forall n root b up, map r_node (refsUnder root b up n) = nodesUnder n.
Proof.
  induction n as [e children sr IH] using Node_light_ind; intros root b up.
  simpl. f_equal. rewrite flat_map_concat_map, concat_map, map_map.
  rewrite flat_map_concat_map. f_equal.
  apply map_ext_Forall. revert IH. apply Forall_impl. intros c Hc. apply Hc.
Qed.

Lemma treeRefs_nodes :
  forall roots b, map r_node (treeRefs roots b) = flat_map nodesUnder roots.
Proof.
  intros roots b. unfold treeRefs.
  rewrite flat_map_concat_map, concat_map, map_map, flat_map_concat_map.
  f_equal. apply map_ext. intros n. apply refsUnder_nodes.
Qed.

Lemma nodesUnder_self : forall n, In n (nodesUnder n).
Proof. intros [e c s]. now left. Qed.

(** The light tree of a node is closed under children. *)
Lemma nodesUnder_child :
  forall n0 m n, In m (nodesUnder n0) -> In n (childrenOf m) -> In n (nodesUnder n0).
Proof.
  induction n0 as [e children sr IH] using Node_light_ind; intros m n Hm Hn.
  simpl in Hm. destruct Hm as [<-|Hm].
  - simpl. right. apply in_flat_map. exists n. split; [exact Hn | apply nodesUnder_self].
  - simpl. right. apply in_flat_map in Hm. destruct Hm as [c [Hc Hm]].
    apply in_flat_map. exists c. split; [exact Hc|].
    rewrite Forall_forall in IH. now apply (IH c Hc m n).
Qed.

Lemma nodesUnder_reaches :
  forall roots n0 n, Reaches roots n0 -> In n (nodesUnder n0) -> Reaches roots n.
Proof.
  intros roots n0; induction n0 as [e children sr IH] using Node_light_ind.
  intros n Hr Hn. simpl in Hn. destruct Hn as [<-|Hn]; [exact Hr|].
  apply in_flat_map in Hn. destruct Hn as [c [Hc Hn]].
  rewrite Forall_forall in IH. apply (IH c Hc n); [|exact Hn].
  now apply (reach_child roots (mkNode e children sr) c).
Qed.

Lemma walkShadows_reaches :
  forall roots n0,
    Reaches roots n0 -> forall r, In r (walkShadows n0) -> Reaches roots (r_node r).
Proof.
  intros roots n0; induction n0 as [e children sr IHc IHs] using Node_deep_ind.
  intros Hr r Hin. simpl in Hin. apply in_app_or in Hin. destruct Hin as [Hin|Hin].
  - destruct sr as [sroots|]; [|destruct Hin].
    specialize (IHs sroots eq_refl). rewrite Forall_forall in IHs.
    assert (Hroot : forall x, In x sroots -> Reaches roots x)
      by (intros x Hx; now apply (reach_shadow roots (mkNode e children (Some sroots)) sroots x)).
    apply in_app_or in Hin. destruct Hin as [Hin|Hin].
    + apply filter_In in Hin. destruct Hin as [Hin _].
      assert (Hn : In (r_node r) (flat_map nodesUnder sroots))
        by (rewrite <- (treeRefs_nodes sroots false); now apply in_map).
      apply in_flat_map in Hn. destruct Hn as [x [Hx Hn]].
      apply (nodesUnder_reaches roots x); auto.
    + apply in_flat_map in Hin. destruct Hin as [x [Hx Hin]].
      apply (IHs x Hx); auto.
  - apply in_flat_map in Hin. destruct Hin as [c [Hc Hin]].
    rewrite Forall_forall in IHc. apply (IHc c Hc); [|exact Hin].
    now apply (reach_child roots (mkNode e children sr) c).
Qed.

Lemma walkShadows_child :
  forall m n, In n (childrenOf m) -> incl (walkShadows n) (walkShadows m).
Proof.
  intros [e children sr] n Hn r Hr. simpl. apply in_or_app. right.
  apply in_flat_map. exists n. now split.
Qed.

Lemma walkShadows_shadow :
  forall m sr,
    shadowOf m = Some sr ->
    (forall r, In r (treeRefs sr false) -> isFormEl r = true -> In r (walkShadows m))
    /\ (forall n, In n sr -> incl (walkShadows n) (walkShadows m)).
Proof.
  intros [e children s] sr H. simpl in H. subst s. split.
  - intros r Hr Hf. simpl. apply in_or_app. left. apply in_or_app. left.
    apply filter_In. now split.
  - intros n Hn r Hr. simpl. apply in_or_app. left. apply in_or_app. right.
    apply in_flat_map. exists n. now split.
Qed.

(** A node of a light tree has a reference in the listing of the tree. *)
Lemma treeRefs_covers :
  forall roots b n,
    In n (flat_map nodesUnder roots) ->
    exists r, In r (treeRefs roots b) /\ r_node r = n.
Proof.
  intros roots b n H. rewrite <- (treeRefs_nodes roots b) in H.
  apply in_map_iff in H. destruct H as [r [E Hr]]. now exists r.
Qed.

Lemma light_child :
  forall roots m n,
    In m (flat_map nodesUnder roots) -> In n (childrenOf m) ->
    In n (flat_map nodesUnder roots).
Proof.
  intros roots m n Hm Hn. apply in_flat_map in Hm. destruct Hm as [x [Hx Hm]].
  apply in_flat_map. exists x. split; [exact Hx|]. now apply (nodesUnder_child x m n).
Qed.

Lemma light_root :
  forall roots n, In n roots -> In n (flat_map nodesUnder roots).
Proof.
  intros roots n H. apply in_flat_map. exists n. split; [exact H | apply nodesUnder_self].
Qed.

(** Where the traversal meets a reachable node: in the document's own
    tree, or in the tree of a shadow root that [walk] enters. *)
Definition met (doc : list Node) (n : Node) : Prop :=
  incl (walkShadows n) (flat_map walkShadows doc)
  /\ (In n (flat_map nodesUnder doc)
      \/ exists h sr,
           incl (walkShadows h) (flat_map walkShadows doc)
           /\ shadowOf h = Some sr /\ In n (flat_map nodesUnder sr)).

Lemma reaches_met : forall doc n, Reaches doc n -> met doc n.
Proof.
  intros doc n H; induction H as [n Hn | m n Hm [Im Wm] Hn | m sr n Hm [Im Wm] Hs Hn].
  - split.
    + intros r Hr. apply in_flat_map. now exists n.
    + left. now apply light_root.
  - split.
    + intros r Hr. apply Im. now apply (walkShadows_child m n).
    + destruct Wm as [L | [h [sr [Ih [Hs L]]]]].
      * left. now apply (light_child doc m n).
      * right. exists h, sr. repeat split; auto. now apply (light_child sr m n).
  - destruct (walkShadows_shadow m sr Hs) as [_ Sub]. split.
    + intros r Hr. apply Im. now apply (Sub n).
    + right. exists m, sr. repeat split; auto. now apply light_root.
Qed.

(** X10.  [collectInputsDeep] is sound and complete: it returns exactly
    the inputs, selects and textareas of the page at any depth, those of
    the document's tree and those inside open shadow roots, however deeply
    the hosts are nested in one another; and nothing else. *)
Theorem collectInputsDeep_exact :
  forall p n,
    (exists r, In r (collectInputsDeep p) /\ r_node r = n)
    <-> (Reaches (document p) n /\ isFormNode n = true).
Proof.
  intros p n. split.
  - intros [r [Hr <-]]. unfold collectInputsDeep in Hr.
    apply filter_In in Hr. destruct Hr as [Hr Hf]. split; [|exact Hf].
    apply in_app_or in Hr. destruct Hr as [Hr|Hr].
    + apply filter_In in Hr. destruct Hr as [Hr _].
      assert (Hn : In (r_node r) (flat_map nodesUnder (document p)))
        by (rewrite <- (treeRefs_nodes (document p) true); now apply in_map).
      apply in_flat_map in Hn. destruct Hn as [x [Hx Hn]].
      apply (nodesUnder_reaches _ x); [now apply reach_root | exact Hn].
    + apply in_flat_map in Hr. destruct Hr as [x [Hx Hr]].
      apply (walkShadows_reaches _ x); [now apply reach_root | exact Hr].
  - intros [Hr Hf]. destruct (reaches_met _ _ Hr) as [_ [L | [h [sr [Ih [Hs L]]]]]].
    + destruct (treeRefs_covers (document p) true n L) as [r [Hin E]].
      exists r. split; [|exact E].
      assert (F : isFormEl r = true) by (unfold isFormEl, el; rewrite E; exact Hf).
      unfold collectInputsDeep. apply filter_In. split; [|exact F].
      apply in_or_app. left. apply filter_In. now split.
    + destruct (treeRefs_covers sr false n L) as [r [Hin E]].
      exists r. split; [|exact E].
      assert (F : isFormEl r = true) by (unfold isFormEl, el; rewrite E; exact Hf).
      unfold collectInputsDeep. apply filter_In. split; [|exact F].
      apply in_or_app. right. apply Ih.
      destruct (walkShadows_shadow h sr Hs) as [Sub _]. now apply Sub.
Qed.

End DeepTraversal.

(* ================================================================== *)
(** ** More on the resolver *)
(* ================================================================== *)

Module ResolverMore.









(** *** Dates in order *)







Open Scope Z_scope.

















Close Scope Z_scope.




End ResolverMore.

(* ================================================================== *)
(** ** The normal form of [norm] *)
(* ================================================================== *)

Module NormalForm.

Lemma lowerChar_idem : forall c, lowerChar (lowerChar c) = lowerChar c.
Proof. intros [[] [] [] [] [] [] [] []]; reflexivity. Qed.

Lemma isSpace_lowerChar : forall c, isSpace (lowerChar c) = isSpace c.
Proof. intros [[] [] [] [] [] [] [] []]; reflexivity. Qed.

Lemma toLowerCase_idem : forall s, toLowerCase (toLowerCase s) = toLowerCase s.
Proof.
  induction s as [|c r IH]; simpl; [reflexivity|]. now rewrite lowerChar_idem, IH.
Qed.

Lemma toLowerCase_collapse :
  forall s b, toLowerCase (collapseFrom b s) = collapseFrom b (toLowerCase s).
Proof.
  induction s as [|c r IH]; intros b; simpl; [reflexivity|].
  rewrite isSpace_lowerChar.
  destruct (isSpace c); [destruct b|]; simpl; now rewrite IH.
Qed.

Lemma toLowerCase_trimStart :
  forall s, toLowerCase (trimStart s) = trimStart (toLowerCase s).
Proof.
  induction s as [|c r IH]; simpl; [reflexivity|].
  rewrite isSpace_lowerChar. now destruct (isSpace c).
Qed.

Lemma toLowerCase_trimEnd :
  forall s, toLowerCase (trimEnd s) = trimEnd (toLowerCase s).
Proof.
  induction s as [|c r IH]; simpl; [reflexivity|].
  rewrite <- IH, isSpace_lowerChar.
  destruct (trimEnd r); simpl; [now destruct (isSpace c) | reflexivity].
Qed.

(** Every white space of the string is a single space character that
    follows no other; [afterSpace] says that a space precedes the
    string. *)
Fixpoint compact (afterSpace : bool) (s : string) : bool :=
  match s with
  | EmptyString => true
  | String c r =>
      if isSpace c then Ascii.eqb c " " && negb afterSpace && compact true r
      else compact false r
  end.

Lemma collapseFrom_compact : forall s b, compact b (collapseFrom b s) = true.
Proof.
  induction s as [|c r IH]; intros b; simpl; [reflexivity|].
  destruct (isSpace c) eqn:E.
  - destruct b; [apply IH|]. simpl. apply IH.
  - simpl. rewrite E. apply IH.
Qed.

Lemma compact_fixed : forall s b, compact b s = true -> collapseFrom b s = s.
Proof.
  induction s as [|c r IH]; intros b; simpl; [reflexivity|].
  destruct (isSpace c).
  - intros H. apply andb_prop in H. destruct H as [H1 H3].
    apply andb_prop in H1. destruct H1 as [H1 H2].
    apply Ascii.eqb_eq in H1. subst c.
    destruct b; [discriminate|]. now rewrite (IH true H3).
  - intros H. now rewrite (IH false H).
Qed.

Lemma trimStart_compact :
  forall s b b', compact b s = true -> compact b' (trimStart s) = true.
Proof.
  induction s as [|c r IH]; intros b b'; simpl; [reflexivity|].
  destruct (isSpace c) eqn:E.
  - intros H. apply andb_prop in H. destruct H as [_ H]. now apply (IH true).
  - intros H. simpl. now rewrite E.
Qed.

Lemma trimEnd_compact : forall s b, compact b s = true -> compact b (trimEnd s) = true.
Proof.
  induction s as [|c r IH]; intros b; simpl; [reflexivity|].
  destruct (isSpace c) eqn:E.
  - intros H. apply andb_prop in H. destruct H as [H1 H3].
    specialize (IH true H3).
    destruct (trimEnd r) as [|c' r'] eqn:T; [reflexivity|].
    cbn [compact]. rewrite E, H1. exact IH.
  - intros H. specialize (IH false H).
    destruct (trimEnd r) as [|c' r'] eqn:T; cbn [compact]; rewrite E; auto.
Qed.

(** The string is empty or starts with a character that is no space. *)
Definition headed (s : string) : bool :=
  match s with
  | EmptyString => true
  | String c _ => negb (isSpace c)
  end.

Lemma trimStart_headed : forall s, headed (trimStart s) = true.
Proof.
  induction s as [|c r IH]; simpl; [reflexivity|].
  destruct (isSpace c) eqn:E; [exact IH|]. simpl. now rewrite E.
Qed.

Lemma headed_fixed : forall s, headed s = true -> trimStart s = s.
Proof.
  intros [|c r]; simpl; [reflexivity|]. now destruct (isSpace c).
Qed.

Lemma trimEnd_headed : forall s, headed s = true -> headed (trimEnd s) = true.
Proof.
  intros [|c r]; simpl; [reflexivity|]. intros H.
  destruct (trimEnd r); simpl.
  - rewrite negb_true_iff in H. rewrite H. simpl. now rewrite H.
  - exact H.
Qed.

Lemma trimEnd_idem : forall s, trimEnd (trimEnd s) = trimEnd s.
Proof.
  induction s as [|c r IH]; simpl; [reflexivity|].
  destruct (trimEnd r) as [|c' r'] eqn:T.
  - destruct (isSpace c) eqn:E; simpl; [reflexivity|]. now rewrite E.
  - cbn [trimEnd] in *. fold trimEnd in *.
    change (trimEnd (String c (String c' r')))
      with (match trimEnd (String c' r') with
            | EmptyString => if isSpace c then EmptyString else String c EmptyString
            | x => String c x
            end).
    now rewrite IH.
Qed.

Lemma trim_idem : forall s, trim (trim s) = trim s.
Proof.
  intros s. unfold trim.
  rewrite (headed_fixed (trimEnd (trimStart s))).
  - apply trimEnd_idem.
  - apply trimEnd_headed, trimStart_headed.
Qed.

(** X14.  [norm] yields a normal form and is idempotent: the result has
    no upper-case letter, its only white space is single space characters
    between words, none at the start and none at the end, and normalising
    it again changes nothing.  So a descriptor built from normalised parts
    can be compared with a normalised value by plain equality and
    [includes]. *)
Theorem norm_idempotent :
  forall s,
    norm (norm s) = norm s
    /\ toLowerCase (norm s) = norm s
    /\ compact false (norm s) = true
    /\ trim (norm s) = norm s.
Proof.
  intros s.
  assert (L : toLowerCase (norm s) = norm s).
  { unfold norm, trim, collapseSpaces.
    now rewrite toLowerCase_trimEnd, toLowerCase_trimStart, toLowerCase_collapse,
      toLowerCase_idem. }
  assert (C : compact false (norm s) = true).
  { unfold norm, trim, collapseSpaces.
    apply trimEnd_compact, (trimStart_compact _ false), collapseFrom_compact. }
  assert (T : trim (norm s) = norm s) by (unfold norm; apply trim_idem).
  repeat split; auto.
  unfold norm at 1. rewrite L. unfold collapseSpaces.
  rewrite (compact_fixed _ _ C). exact T.
Qed.

End NormalForm.

(* ================================================================== *)
(** ** Messages *)
(* ================================================================== *)

Module Messages.

Section WithAliases.

Variable FIELD_ALIASES : list (string * list (string -> bool)).

Lemma type_lookup :
  forall t rest, optProp (VObj (("type", VStr t) :: rest)) "type" = VStr t.
Proof. reflexivity. Qed.

Lemma payload_lookup :
  forall t v rest,
    getProp (VObj (("type", t) :: ("payload", v) :: rest)) "payload" = v.
Proof. reflexivity. Qed.

Lemma profile_lookup :
  forall v rest, getProp (VObj (("profile", v) :: rest)) "profile" = v.
Proof. reflexivity. Qed.

(** A message of another type is not served. *)
Lemma not_served :
  forall (w : World) (p : Page) t rest,
    String.eqb t "FILL_EXECUTE" = false ->
    Watcher.onMessage w (VObj (("type", VStr t) :: rest)) = w
    /\ Legacy.onMessage FIELD_ALIASES p (VObj (("type", VStr t) :: rest)) = (p, None).
Proof.
  intros w p t rest H. unfold Watcher.onMessage, Legacy.onMessage.
  rewrite type_lookup, H. now split.
Qed.

Lemma served :
  forall (w : World) profile,
    profile <> VUndef ->
    Watcher.onMessage w
      (jsonValue (VObj [("type", VStr "FILL_EXECUTE");
                        ("payload", VObj [("profile", profile)])]))
    = watchForChanges w (jsonValue profile).
Proof.
  intros w profile H.
  assert (E : jsonValue (VObj [("type", VStr "FILL_EXECUTE");
                               ("payload", VObj [("profile", profile)])])
              = VObj [("type", VStr "FILL_EXECUTE");
                      ("payload", VObj [("profile", jsonValue profile)])])
    by (destruct profile; try contradiction; reflexivity).
  rewrite E. unfold Watcher.onMessage.
  rewrite type_lookup, String.eqb_refl, payload_lookup.
  unfold coalesce. cbn [isNullish]. now rewrite profile_lookup.
Qed.

(** X15.  The content scripts serve [FILL_EXECUTE] and nothing else.
    The message the background script sends for the keyboard command
    ([FILL_REQUEST]) and the message of the popup's Undo button
    ([FILL_UNDO]) leave the page, the timers and the observer as they are,
    in the content script and in [content.ts]; the message of the Fill
    button starts the watcher with the JSON form of the profile built from
    the form, and so does a [POPUP_FILL] relayed by the background
    script, with the profile of its payload. *)
Theorem only_fill_execute_is_served :
  forall (w : World) (p : Page) tabs,
    (forall cmd tabId msg,
        Background.onCommand tabs cmd = Some (tabId, msg) ->
        Watcher.onMessage w msg = w
        /\ Legacy.onMessage FIELD_ALIASES p msg = (p, None))
    /\ (forall tabId msg,
        Popup.undoClick tabs = Some (tabId, msg) ->
        Watcher.onMessage w msg = w
        /\ Legacy.onMessage FIELD_ALIASES p msg = (p, None))
    /\ (forall f tabId msg,
        Popup.fillClick tabs f = Some (tabId, msg) ->
        Watcher.onMessage w msg
        = watchForChanges w (jsonValue (Popup.buildProfileFromForm f)))
    /\ (forall profile tabId msg,
        profile <> VUndef ->
        Background.onMessage tabs
          (VObj [("type", VStr "POPUP_FILL");
                 ("payload", VObj [("profile", profile)])]) = Some (tabId, msg) ->
        Watcher.onMessage w msg = watchForChanges w (jsonValue profile)).
Proof.
  intros w p tabs. split; [|split; [|split]].
  - intros cmd tabId msg. unfold Background.onCommand.
    destruct (negb (String.eqb cmd "fill-form")); [discriminate|].
    destruct (Background.getActiveTabId tabs); [|discriminate].
    intros H.
    assert (E : msg = VObj [("type", VStr "FILL_REQUEST")]) by congruence.
    rewrite E. now apply not_served.
  - intros tabId msg. unfold Popup.undoClick.
    destruct (Popup.targetTab tabs); [|discriminate].
    intros H.
    assert (E : msg = VObj [("type", VStr "FILL_UNDO")]) by congruence.
    rewrite E. now apply not_served.
  - intros f tabId msg. unfold Popup.fillClick.
    destruct (Popup.targetTab tabs); [|discriminate].
    intros H.
    assert (E : msg = jsonValue
                        (VObj [("type", VStr "FILL_EXECUTE");
                               ("payload",
                                VObj [("profile", Popup.buildProfileFromForm f)])]))
      by congruence.
    rewrite E. apply served. unfold Popup.buildProfileFromForm. discriminate.
  - intros profile tabId msg Hp. unfold Background.onMessage.
    rewrite type_lookup, String.eqb_refl, payload_lookup.
    destruct (Background.getActiveTabId tabs); [|discriminate].
    intros H.
    assert (E : msg = jsonValue
                        (VObj [("type", VStr "FILL_EXECUTE");
                               ("payload", VObj [("profile", profile)])]))
      by congruence.
    rewrite E. now apply served.
Qed.

(** The message of the Fill button, as it arrives. *)
Definition fillExecute (profile : Value) : Value :=
  VObj [("type", VStr "FILL_EXECUTE"); ("payload", VObj [("profile", profile)])].

(** X16.  A second fill request does not cancel the pass the first one
    scheduled.  Each [FILL_EXECUTE] makes a closure of its own with its
    own timer variable, so [clearTimeout] never reaches the timer of the
    earlier request: two requests that arrive less than 150 ms apart run
    two passes, the first with the first profile 150 ms after the first
    request, the second with the second profile, on the page the first
    pass left, 150 ms after the second request. *)
Theorem second_request_keeps_first_pass :
  forall p profile1 profile2 gap,
    gap < DEBOUNCE ->
    w_passes (runEvents FIELD_ALIASES (initial p)
                [EvMessage (fillExecute profile1); EvAdvance gap;
                 EvMessage (fillExecute profile2); EvAdvance DEBOUNCE])
    = [(DEBOUNCE, fillDone (fill FIELD_ALIASES p profile1));
       (gap + DEBOUNCE,
        fillDone (fill FIELD_ALIASES (page (fill FIELD_ALIASES p profile1)) profile2))].
Proof.
  intros p profile1 profile2 gap Hgap. unfold DEBOUNCE in Hgap.
  set (c1 := {| c_profile := profile1; c_t := Some 1 |}).
  set (c2 := {| c_profile := profile2; c_t := Some 2 |}).
  set (t1 := {| t_id := 1; t_due := 150; t_closure := 0 |}).
  set (t2 := {| t_id := 2; t_due := gap + 150; t_closure := 1 |}).
  set (w1 := {| w_page := p; w_now := 0; w_nextTimer := 2; w_timers := [t1];
                w_closures := [c1]; w_observer := Some 0; w_passes := [] |}).
  set (w2 := {| w_page := p; w_now := gap; w_nextTimer := 2; w_timers := [t1];
                w_closures := [c1]; w_observer := Some 0; w_passes := [] |}).
  set (w3 := {| w_page := p; w_now := gap; w_nextTimer := 3; w_timers := [t1; t2];
                w_closures := [c1; c2]; w_observer := Some 1; w_passes := [] |}).
  assert (S1 : onMessage (initial p) (fillExecute profile1) = w1) by reflexivity.
  assert (S2 : advance FIELD_ALIASES w1 gap = w2).
  { unfold advance, w1, w2. cbn [w_timers w_now filter t_due t1 Nat.add].
    assert (E : (150 <=? gap) = false) by (apply Nat.leb_gt; exact Hgap).
    rewrite E. reflexivity. }
  assert (S3 : onMessage w2 (fillExecute profile2) = w3) by reflexivity.
  unfold runEvents. cbn [fold_left step]. rewrite S1, S2, S3.
  unfold advance, w3. cbn [w_timers w_now filter t_due t1 t2].
  assert (E2 : (150 <=? gap + DEBOUNCE) = true) by (apply Nat.leb_le; unfold DEBOUNCE; lia).
  rewrite E2, Nat.leb_refl. cbn [negb fold_left].
  unfold fire at 2. cbn [w_closures nth_error t_closure t1 c1 c_profile w_page w_passes app].
  unfold fire. cbn [w_closures nth_error t_closure t2 c2 c_profile w_page w_passes app t_due t1].
  reflexivity.
Qed.

End WithAliases.

Lemma second_request_keeps_first_pass_witness :
  w_passes (runEvents aliases (initial (pageOf []))
              [EvMessage (fillExecute VNull); EvAdvance 100;
               EvMessage (fillExecute VNull); EvAdvance DEBOUNCE])
  = [(DEBOUNCE, fillDone (fill aliases (pageOf []) VNull));
     (100 + DEBOUNCE,
      fillDone (fill aliases (page (fill aliases (pageOf []) VNull)) VNull))].
Proof.
  apply (second_request_keeps_first_pass aliases (pageOf []) VNull VNull 100).
  unfold DEBOUNCE. lia.
Defined.

End Messages.

(* ================================================================== *)
(** ** The popup's form and the profile it builds *)
(* ================================================================== *)

Module PopupProfile.

Import Popup.

Lemma has_strings :
  forall values s, has (map VStr values) s = existsb (fun v => String.eqb v s) values.
Proof.
  induction values as [|v rest IH]; intros s; simpl; [reflexivity|]. now rewrite IH.
Qed.

Lemma getCheckedValues_set :
  forall members container,
    getCheckedValues
      (map (fun cb => {| cb_value := cb_value cb;
                         cb_checked := has members (cb_value cb) |}) container)
    = filter (has members) (map cb_value container).
Proof.
  intros members; induction container as [|cb rest IH]; [reflexivity|].
  unfold getCheckedValues in *. simpl.
  destruct (has members (cb_value cb)); simpl; now rewrite IH.
Qed.

Lemma has_checked :
  forall container cb,
    In cb container -> cb_checked cb = true ->
    has (map VStr (getCheckedValues container)) (cb_value cb) = true.
Proof.
  intros container cb Hin Hc. rewrite has_strings. apply existsb_exists.
  exists (cb_value cb). split; [|apply String.eqb_refl].
  unfold getCheckedValues. apply in_map. apply filter_In. now split.
Qed.

(** X17.  [setCheckedValues] and [getCheckedValues] of the popup.  After
    [setCheckedValues(container, values)] with an array of strings,
    [getCheckedValues(container)] returns the values of the container's
    checkboxes that occur in [values], in the order of the checkboxes (not
    of [values]), a value once for every checkbox that carries it; values
    that no checkbox carries are lost.  And when checkboxes with equal
    values agree on their checkedness, setting the container to its own
    checked values changes nothing. *)
Theorem checked_values_round_trip :
  forall container,
    (forall a b, In a container -> In b container ->
                 cb_value a = cb_value b -> cb_checked a = cb_checked b) ->
    (forall values,
        exists container',
          setCheckedValues container (VArr (map VStr values)) = Ok container'
          /\ getCheckedValues container'
             = filter (fun v => existsb (fun x => String.eqb x v) values)
                      (map cb_value container))
    /\ setCheckedValues container (VArr (map VStr (getCheckedValues container)))
       = Ok container.
Proof.
  intros container Hagree. split.
  - intros values. eexists. split; [reflexivity|].
    rewrite getCheckedValues_set. apply filter_ext. intros v. apply has_strings.
  - unfold setCheckedValues, setMembers. f_equal.
    transitivity (map (fun cb : Checkbox => cb) container); [|apply map_id].
    apply map_ext_in.
    intros cb Hin. destruct cb as [v c]. simpl. f_equal.
    destruct c.
    + now apply (has_checked container {| cb_value := v; cb_checked := true |}).
    + destruct (has (map VStr (getCheckedValues container)) v) eqn:E; [|reflexivity].
      rewrite has_strings in E. apply existsb_exists in E.
      destruct E as [x [Hx Ex]]. apply String.eqb_eq in Ex. subst x.
      unfold getCheckedValues in Hx. apply in_map_iff in Hx.
      destruct Hx as [cb' [Ev Hcb']]. apply filter_In in Hcb'.
      destruct Hcb' as [Hin' Hc'].
      pose proof (Hagree cb' {| cb_value := v; cb_checked := false |} Hin' Hin Ev) as A.
      simpl in A. congruence.
Qed.

Definition raceBoxes : list Checkbox :=
  [ {| cb_value := "Asian"; cb_checked := true |};
    {| cb_value := "White"; cb_checked := false |};
    {| cb_value := "Two or more"; cb_checked := true |} ].

Lemma checked_values_round_trip_witness :
  (forall values,
      exists container',
        setCheckedValues raceBoxes (VArr (map VStr values)) = Ok container'
        /\ getCheckedValues container'
           = filter (fun v => existsb (fun x => String.eqb x v) values)
                    (map cb_value raceBoxes))
  /\ setCheckedValues raceBoxes (VArr (map VStr (getCheckedValues raceBoxes)))
     = Ok raceBoxes.
Proof.
  apply (checked_values_round_trip raceBoxes).
  intros a b Ha Hb.
  simpl in Ha, Hb.
  destruct Ha as [<-|[<-|[<-|[]]]], Hb as [<-|[<-|[<-|[]]]];
    simpl; intros E; try reflexivity; discriminate.
Defined.

(** *** The profile in transit *)














Section DeepInduction.

Variable P : Value -> Prop.
Hypothesis HUndef : P VUndef.
Hypothesis HNull : P VNull.
Hypothesis HBool : forall b, P (VBool b).
Hypothesis HNum : forall n, P (VNum n).
Hypothesis HStr : forall s, P (VStr s).
Hypothesis HArr : forall items, Forall P items -> P (VArr items).
Hypothesis HObj : forall fields, Forall (fun kv => P (snd kv)) fields -> P (VObj fields).


End DeepInduction.









End PopupProfile.

(* ================================================================== *)
(** ** Saving and loading the profile *)
(* ================================================================== *)

Module StorageFacts.

Import Storage.

Lemma assoc_setItem_same :
  forall area k v, assoc k (setItem area k v) = Some v.
Proof. intros area k v. unfold setItem. simpl. now rewrite String.eqb_refl. Qed.

Lemma assoc_filter_other :
  forall area k k',
    k <> k' ->
    assoc k (filter (fun kv => negb (String.eqb (fst kv) k')) area) = assoc k area.
Proof.
  induction area as [|[a v] rest IH]; intros k k' H; simpl; [reflexivity|].
  destruct (String.eqb_spec a k') as [->|Hne]; simpl.
  - destruct (String.eqb_spec k k'); [congruence|]. now apply IH.
  - destruct (String.eqb k a); [reflexivity|]. now apply IH.
Qed.

Lemma assoc_setItem_other :
  forall area k k' v, k <> k' -> assoc k (setItem area k' v) = assoc k area.
Proof.
  intros area k k' v H. unfold setItem. simpl.
  destruct (String.eqb_spec k k'); [congruence|]. now apply assoc_filter_other.
Qed.

Lemma set_defined :
  forall area k v,
    v <> VUndef -> set area [(k, v)] = setItem area k (jsonValue v).
Proof.
  intros area k v H. unfold set. cbn [fold_left fst snd].
  destruct v; try reflexivity; contradiction.
Qed.

(** X19.  Saving and loading.  [loadProfile] after [saveProfile(profile,
    allowDemo)] of [storage.ts] gives back the JSON form of the profile
    and the flag that was saved.  [saveProfile(profile)] of the later
    storage module stores the profile alone: loading then gives the JSON
    form of the profile and the flag as it was stored before, [false] when
    none ever was. *)
Theorem save_then_load :
  forall area p,
    p <> VUndef ->
    (forall allowDemo,
        loadProfile (saveProfile area p allowDemo)
        = {| profile := jsonValue p; allowDemographics := allowDemo |})
    /\ loadProfile (saveProfileOnly area p)
       = {| profile := jsonValue p;
            allowDemographics := allowDemographics (loadProfile area) |}
    /\ allowDemographics (loadProfile []) = false.
Proof.
  intros area p Hp. split; [|split].
  - intros allowDemo.
    assert (E : saveProfile area p allowDemo
                = setItem (setItem area "profile" (jsonValue p)) "settings"
                          (VObj [("allowDemographics", VBool allowDemo)])).
    { unfold saveProfile, set. cbn [fold_left fst snd].
      destruct p; try reflexivity; contradiction. }
    rewrite E. unfold loadProfile, get. cbn [flat_map].
    rewrite (assoc_setItem_other _ "profile" "settings") by discriminate.
    rewrite !assoc_setItem_same.
    reflexivity.
  - unfold saveProfileOnly. rewrite (set_defined area "profile" p Hp).
    unfold loadProfile, get. cbn [flat_map].
    rewrite assoc_setItem_same.
    rewrite (assoc_setItem_other _ "settings" "profile") by discriminate.
    destruct (assoc "settings" area) as [s|];
      cbn [app getProp assoc String.eqb Ascii.eqb Bool.eqb];
      destruct (assoc "profile" area); reflexivity.
  - reflexivity.
Qed.

Lemma save_then_load_witness :
  (forall allowDemo,
      loadProfile (saveProfile [] (VObj [("basics", VObj [("email", VStr "a@b.c")])]) allowDemo)
      = {| profile := jsonValue (VObj [("basics", VObj [("email", VStr "a@b.c")])]);
           allowDemographics := allowDemo |})
  /\ loadProfile (saveProfileOnly [] (VObj [("basics", VObj [("email", VStr "a@b.c")])]))
     = {| profile := jsonValue (VObj [("basics", VObj [("email", VStr "a@b.c")])]);
          allowDemographics := allowDemographics (loadProfile []) |}
  /\ allowDemographics (loadProfile []) = false.
Proof.
  apply (save_then_load [] (VObj [("basics", VObj [("email", VStr "a@b.c")])])).
  discriminate.
Defined.

End StorageFacts.

(* ================================================================== *)
(** ** Two passes of [content.ts] *)
(* ================================================================== *)

Module LegacyPasses.

Import SecondPass.

(** The write of [content.ts] into a text control or a select: the new
    value and the highlight; the rest of the state stays. *)
Definition assign (v : string) (s : ElState) : ElState :=
  {| value := v; checked := checked s; userEdited := userEdited s;
     autofilled := autofilled s; outline := highlight |}.

Lemma legacy_labelText_document :
  forall p q r, document q = document p -> Legacy.labelText q r = Legacy.labelText p r.
Proof.
  intros p q r H. unfold Legacy.labelText, queryLabelFor, documentAll. now rewrite H.
Qed.

Section WithAliases.

Variable FIELD_ALIASES : list (string * list (string -> bool)).
Variable profile : Value.
Variable allowDemo : bool.

(** What [fill(profile, allowDemo)] writes into a control that is
    neither a checkbox nor a radio button, if it writes. *)
Definition written (p : Page) (r : Ref) : option string :=
  match Legacy.matchKey FIELD_ALIASES p r with
  | None => None
  | Some key =>
      if String.eqb key "" then None
      else if negb allowDemo && startsWith key "demographics." then None
      else
        let val := Legacy.get profile key in
        if isAbsent val then None
        else if tagEq (tag (el r)) TSelect then
          match find (fun o => includes (norm (o_text o)) (norm (toStr val))
                               || String.eqb (norm (o_value o)) (norm (toStr val)))
                     (options (el r)) with
          | Some found => Some (o_value found)
          | None => None
          end
        else Some (toStr val)
  end.

Lemma written_document :
  forall p q r, document q = document p -> written q r = written p r.
Proof.
  intros p q r H. unfold written, Legacy.matchKey, Legacy.candidates.
  now rewrite (legacy_labelText_document p q r H).
Qed.

Definition stepOf (s : Page * nat) (r : Ref) : Page * nat :=
  Legacy.fillStep FIELD_ALIASES profile allowDemo s r.

Lemma legacy_step :
  forall p n r,
    plain r ->
    document (fst (stepOf (p, n) r)) = document p
    /\ (forall u,
          props (fst (stepOf (p, n) r)) u
          = match written p r with
            | Some v => if Nat.eqb u (uid (el r)) then assign v (props p u)
                        else props p u
            | None => props p u
            end)
    /\ snd (stepOf (p, n) r)
       = match written p r with Some _ => S n | None => n end.
Proof.
  intros p n r [Hc Hr]. unfold stepOf, Legacy.fillStep, written. cbn [fst snd].
  destruct (Legacy.matchKey FIELD_ALIASES p r) as [key|]; [|now repeat split].
  destruct (String.eqb key ""); [now repeat split|].
  destruct (negb allowDemo && startsWith key "demographics."); [now repeat split|].
  cbv zeta. destruct (isAbsent (Legacy.get profile key)); [now repeat split|].
  unfold Legacy.setValue. rewrite Hc, Hr. cbn [orb].
  destruct (tagEq (tag (el r)) TSelect).
  - destruct (find _ (options (el r))) as [found|]; [|now repeat split].
    unfold Legacy.dispatchEvent, DOM.dispatchEvent, Legacy.noListeners.
    split; [now destruct (r_inDocument r)|]. split; [|reflexivity].
    intros u. destruct (r_inDocument r); simpl;
      destruct (Nat.eqb_spec u (uid (el r))) as [->|]; try reflexivity;
      now rewrite Nat.eqb_refl.
  - unfold Legacy.dispatchEvent, DOM.dispatchEvent, Legacy.noListeners.
    split; [now destruct (r_inDocument r)|]. split; [|reflexivity].
    intros u. destruct (r_inDocument r); simpl;
      destruct (Nat.eqb_spec u (uid (el r))) as [->|]; try reflexivity;
      now rewrite Nat.eqb_refl.
Qed.

(** The last write of a pass over [inputs] into the element [u]. *)
Fixpoint lastWrite (p : Page) (inputs : list Ref) (u : nat) : option string :=
  match inputs with
  | [] => None
  | r :: rest =>
      match lastWrite p rest u with
      | Some v => Some v
      | None => if Nat.eqb u (uid (el r)) then written p r else None
      end
  end.

Definition writes (p : Page) (r : Ref) : bool :=
  match written p r with Some _ => true | None => false end.

Lemma lastWrite_document :
  forall inputs p q u, document q = document p -> lastWrite q inputs u = lastWrite p inputs u.
Proof.
  induction inputs as [|r rest IH]; intros p q u H; simpl; [reflexivity|].
  now rewrite (IH p q u H), (written_document p q r H).
Qed.

Lemma legacy_fold :
  forall inputs p n,
    (forall r, In r inputs -> plain r) ->
    let s := fold_left stepOf inputs (p, n) in
    document (fst s) = document p
    /\ (forall u, props (fst s) u
                  = match lastWrite p inputs u with
                    | Some v => assign v (props p u)
                    | None => props p u
                    end)
    /\ snd s = n + List.length (filter (writes p) inputs).
Proof.
  induction inputs as [|r rest IH]; intros p n Hp s.
  - subst s. simpl. repeat split; auto.
  - destruct (legacy_step p n r (Hp r (or_introl eq_refl))) as [D1 [P1 C1]].
    assert (Hrest : forall x, In x rest -> plain x) by (intros x Hx; apply Hp; now right).
    subst s. cbn [fold_left]. fold (stepOf (p, n) r).
    destruct (stepOf (p, n) r) as [p1 n1] eqn:E. cbn [fst snd] in D1, P1, C1.
    destruct (IH p1 n1 Hrest) as [D [P C]].
    split; [congruence|]. split.
    + intros u. rewrite P, (lastWrite_document rest p p1 u D1), P1.
      cbn [lastWrite].
      destruct (lastWrite p rest u) as [v|].
      * destruct (written p r); destruct (Nat.eqb u (uid (el r))); reflexivity.
      * destruct (written p r); destruct (Nat.eqb u (uid (el r))); reflexivity.
    + rewrite C, C1. cbn [filter]. unfold writes at 2.
      rewrite (filter_ext (writes p1) (writes p))
        by (intros x; unfold writes; now rewrite (written_document p p1 x D1)).
      destruct (written p r); simpl; lia.
Qed.

(** X20.  In [content.ts], which registers no listener, a second pass
    repeats the first.  On a page whose visible controls are text inputs,
    textareas and selects, a second [fill(profile, allowDemo)] right after
    the first reports the same count and leaves every element with the
    value, the outline and the rest of the state the first pass left; the
    events of the writes are fired again. *)
Theorem legacy_second_pass_repeats :
  forall p,
    (forall r, In r (documentAll p) -> isFormEl r = true ->
               offsetParent (el r) = true -> plain r) ->
    let first := Legacy.fill FIELD_ALIASES p profile allowDemo in
    let second := Legacy.fill FIELD_ALIASES (fst first) profile allowDemo in
    snd second = snd first
    /\ document (fst second) = document (fst first)
    /\ forall u, props (fst second) u = props (fst first) u.
Proof.
  intros p H first second.
  set (inputs := filter (fun r => offsetParent (el r)) (filter isFormEl (documentAll p))).
  assert (Hp : forall r, In r inputs -> plain r).
  { intros r Hr. unfold inputs in Hr. apply filter_In in Hr. destruct Hr as [Hr Hv].
    apply filter_In in Hr. destruct Hr as [Hr Hf]. now apply H. }
  destruct (legacy_fold inputs p 0 Hp) as [D1 [P1 C1]].
  change (fold_left stepOf inputs (p, 0)) with first in D1, P1, C1.
  assert (I2 : filter (fun r => offsetParent (el r))
                      (filter isFormEl (documentAll (fst first))) = inputs).
  { unfold inputs, documentAll. now rewrite D1. }
  destruct (legacy_fold inputs (fst first) 0 Hp) as [D2 [P2 C2]].
  assert (E2 : fold_left stepOf inputs (fst first, 0) = second).
  { unfold second, Legacy.fill. now rewrite I2. }
  rewrite E2 in D2, P2, C2.
  split; [|split].
  - rewrite C2, C1. f_equal. f_equal. apply filter_ext.
    intros x. unfold writes. now rewrite (written_document p (fst first) x D1).
  - exact D2.
  - intros u. rewrite P2, (lastWrite_document inputs p (fst first) u D1), P1.
    destruct (lastWrite p inputs u); reflexivity.
Qed.

End WithAliases.

Lemma legacy_second_pass_repeats_witness :
  let p := pageOf [leaf (input 1 "text" "email"); leaf (input 2 "text" "first name")] in
  let profile := VObj [("basics", VObj [("email", VStr "ada@example.org");
                                        ("firstName", VStr "Ada")])] in
  let first := Legacy.fill aliases p profile false in
  let second := Legacy.fill aliases (fst first) profile false in
  snd second = snd first
  /\ document (fst second) = document (fst first)
  /\ forall u, props (fst second) u = props (fst first) u.
Proof.
  apply (legacy_second_pass_repeats aliases
           (VObj [("basics", VObj [("email", VStr "ada@example.org");
                                   ("firstName", VStr "Ada")])]) false
           (pageOf [leaf (input 1 "text" "email"); leaf (input 2 "text" "first name")])).
  intros r Hr _ _. vm_compute in Hr.
  destruct Hr as [<-|[<-|[]]]; split; reflexivity.
Defined.

End LegacyPasses.

(* ================================================================== *)
(** ** Ties between education entries *)
(* ================================================================== *)

Module Ties.

Section FirstOfSort.

Context {A : Type} (cmp : A -> A -> Num).

(** Every element listed before the head of the sorted array had to move
    behind it. *)
Lemma jsSort_head_position :
  forall l h t,
    jsSort cmp l = h :: t ->
    exists pre post,
      l = pre ++ h :: post
      /\ forall z, In z pre -> isPositive (cmp z h) = true.
Proof.
  induction l as [|x r IH]; intros h t Hs; [discriminate|].
  simpl in Hs.
  destruct (insertSorted_head cmp x (jsSort cmp r)) as [t' Ht'].
  rewrite Ht' in Hs.
  destruct (jsSort cmp r) as [|h0 t0] eqn:Er.
  - injection Hs as <- _. exists [], r. split; [reflexivity|]. intros z [].
  - destruct (IH h0 t0 eq_refl) as [pre0 [post0 [-> Hpre]]].
    destruct (isPositive (cmp x h0)) eqn:Ep; injection Hs as <- _.
    + exists (x :: pre0), post0. split; [reflexivity|].
      intros z [<-|Hz]; auto.
    + exists [], (pre0 ++ h0 :: post0). split; [reflexivity|]. intros z [].
Qed.

End FirstOfSort.

(** X21.  Ties go to the entry listed first.  [mostRecentEdu] returns
    the first entry of the education array before which no entry sorts:
    the returned entry sorts strictly before every entry listed ahead of
    it, and no entry of the array sorts before it.  Among entries that
    compare equal (the same end and start, or all undated), the one that
    comes first in the array is the most recent one. *)
Theorem most_recent_ties_keep_array_order :
  forall obj items,
    optProp obj "education" = VArr items -> items <> [] ->
    exists pre item post,
      items = pre ++ item :: post
      /\ mostRecentEdu obj = item
      /\ (forall z, In z pre -> sortsBefore (score item) (score z) = true)
      /\ (forall x, In x items -> sortsBefore (score x) (score item) = false).
Proof.
  intros obj items He Hne.
  destruct (mostRecentEdu_head obj items He Hne) as [item0 [E0 [_ Hmin]]].
  unfold mostRecentEdu in *. rewrite He in *.
  destruct items as [|i0 rest]; [congruence|].
  destruct (jsSort eduCompare (map score (i0 :: rest))) as [|h t] eqn:Es.
  { exfalso. revert Es. apply jsSort_nonempty. discriminate. }
  destruct (jsSort_head_position eduCompare _ h t Es) as [pre' [post' [Hsplit Hpre]]].
  apply map_eq_app in Hsplit.
  destruct Hsplit as [pre [tl [Eitems [Epre Etl]]]].
  apply map_eq_cons in Etl. destruct Etl as [item [post [-> [Eh Epost]]]].
  exists pre, item, post. subst h. split; [exact Eitems|]. split; [reflexivity|].
  cbn [s_item score] in E0. subst item0. split.
  - intros z Hz. unfold sortsBefore.
    apply before_iff_lessRecent; try apply score_timed.
    apply after_iff_lessRecent; try apply score_timed.
    apply Hpre. rewrite <- Epre. now apply in_map.
  - intros x Hx. apply notAfter_sortsBefore; try apply score_timed. now apply Hmin.
Qed.

(** Two entries without dates: the first one is returned. *)
Lemma most_recent_ties_keep_array_order_witness :
  exists pre item post,
    [VObj [("school", VStr "A")]; VObj [("school", VStr "B")]] = pre ++ item :: post
    /\ mostRecentEdu (VObj [("education",
                             VArr [VObj [("school", VStr "A")];
                                   VObj [("school", VStr "B")]])]) = item
    /\ (forall z, In z pre -> sortsBefore (score item) (score z) = true)
    /\ (forall x, In x [VObj [("school", VStr "A")]; VObj [("school", VStr "B")]] ->
                  sortsBefore (score x) (score item) = false).
Proof.
  apply (most_recent_ties_keep_array_order
           (VObj [("education",
                   VArr [VObj [("school", VStr "A")]; VObj [("school", VStr "B")]])])
           [VObj [("school", VStr "A")]; VObj [("school", VStr "B")]]).
  - reflexivity.
  - discriminate.
Defined.

End Ties.

(* ================================================================== *)
(** ** The descriptor holds its sources *)
(* ================================================================== *)

Module Descriptor.

Lemma isPrefix_iff :
  forall x s, isPrefix x s = true <-> exists b, s = (x ++ b)%string.
Proof.
  induction x as [|c x IH]; intros s; simpl.
  - split; [intros _; now exists s | reflexivity].
  - destruct s as [|d s]; [split; [discriminate | intros [b H]; discriminate]|].
    rewrite andb_true_iff, IH. split.
    + intros [E [b ->]]. apply Ascii.eqb_eq in E. subst d. now exists b.
    + intros [b H]. injection H as -> ->. split; [apply Ascii.eqb_refl | now exists b].
Qed.

Lemma includes_iff :
  forall s x, includes s x = true <-> exists a b, s = (a ++ x ++ b)%string.
Proof.
  induction s as [|c s IH]; intros x; simpl.
  - rewrite orb_false_r, isPrefix_iff. split.
    + intros [b H]. now exists "", b.
    + intros [a [b H]]. destruct a; [now exists b | discriminate].
  - rewrite orb_true_iff, isPrefix_iff, IH. split.
    + intros [[b H] | [a [b H]]].
      * now exists "", b.
      * exists (String c a), b. simpl. now rewrite H.
    + intros [[|d a] [b H]].
      * left. now exists b.
      * right. simpl in H. injection H as -> ->. now exists a, b.
Qed.

Lemma append_assoc :
  forall a b c : string, ((a ++ b) ++ c = a ++ b ++ c)%string.
Proof. induction a as [|x a IH]; intros b c; simpl; [reflexivity | now rewrite IH]. Qed.

Lemma append_empty : forall a : string, (a ++ "")%string = a.
Proof. induction a as [|x a IH]; simpl; [reflexivity | now rewrite IH]. Qed.

Lemma includes_trans :
  forall a b c, includes a b = true -> includes b c = true -> includes a c = true.
Proof.
  intros a b c H1 H2. apply includes_iff in H1. apply includes_iff in H2.
  destruct H1 as [a1 [a2 ->]], H2 as [b1 [b2 ->]].
  apply includes_iff. exists (a1 ++ b1)%string, (b2 ++ a2)%string.
  now rewrite !append_assoc.
Qed.

Lemma includes_join :
  forall sep l x, In x l -> includes (join sep l) x = true.
Proof.
  intros sep; induction l as [|a rest IH]; intros x Hin; [destruct Hin|].
  apply includes_iff. unfold join in *. simpl.
  destruct Hin as [<-|Hin].
  - destruct rest; [exists "", ""; now rewrite append_empty|].
    now exists "", (sep ++ String.concat sep (s :: rest))%string.
  - destruct rest as [|b rest']; [destruct Hin|].
    specialize (IH x Hin). apply includes_iff in IH.
    destruct IH as [u [v E]]. rewrite E.
    exists (a ++ sep ++ u)%string, v. now rewrite !append_assoc.
Qed.

(** X22.  The descriptor holds every source.  Whatever is found in the
    normalised form of the [name] attribute, the [id], the placeholder,
    the label text or the [aria-label] of a control, provided that source
    is not blank, is found in the descriptor [candidates(el)] that
    [matchKey] tests the alias patterns against. *)
Theorem descriptor_holds_sources :
  forall p r source word,
    In (Some source)
       [attr_name (el r); attr_id (el r); placeholderOf r;
        Some (labelText p r); attr_ariaLabel (el r)] ->
    trim source <> "" ->
    includes (norm source) word = true ->
    includes (candidates p r) word = true.
Proof.
  intros p r source word Hin Hne Hw.
  apply includes_trans with (norm source); [|exact Hw].
  unfold candidates. apply includes_join.
  change (norm source) with ((fun v => norm (orEmpty v)) (Some source)).
  apply in_map. apply filter_In. split; [exact Hin|].
  unfold isNonEmptyString, nonEmpty.
  destruct (String.eqb_spec (trim source) ""); [contradiction | reflexivity].
Qed.

(** A field named "Email Address": the word "email" is in its
    descriptor. *)
Lemma descriptor_holds_sources_witness :
  includes (candidates (pageOf [leaf (input 1 "text" "Email  Address")])
              {| r_node := leaf (input 1 "text" "Email  Address"); r_up := [];
                 r_root := [leaf (input 1 "text" "Email  Address")];
                 r_inDocument := true |})
           "email address" = true.
Proof.
  apply (descriptor_holds_sources
           (pageOf [leaf (input 1 "text" "Email  Address")])
           {| r_node := leaf (input 1 "text" "Email  Address"); r_up := [];
              r_root := [leaf (input 1 "text" "Email  Address")];
              r_inDocument := true |}
           "Email  Address" "email address").
  - now left.
  - vm_compute. discriminate.
  - reflexivity.
Defined.

End Descriptor.

(* ================================================================== *)
(** ** What a pass writes and what it leaves alone *)
(* ================================================================== *)

Module FieldWrites.

Import SecondPass.

Section WithAliases.

Variable FIELD_ALIASES : list (string * list (string -> bool)).

(** X23.  A pass leaves hidden controls alone.  An element that is
    neither a checkbox nor a radio button and is not visible
    ([offsetParent] is [null]) keeps its value, its flags and its outline
    over the whole pass, whatever its key and whatever the profile
    holds. *)
Theorem hidden_control_left_alone :
  forall p profile u,
    noToggle (document p) u ->
    (forall r, In r (collectInputsDeep p) -> uid (el r) = u ->
               offsetParent (el r) = false) ->
    props (page (fill FIELD_ALIASES p profile)) u = props p u.
Proof.
  intros p profile u Hu Hh. unfold fill.
  apply (fold_fillStep_keeps FIELD_ALIASES profile); auto; [|apply keeps_refl].
  intros r Hr E. apply filter_In in Hr. destruct Hr as [Hr Hv].
  rewrite (Hh r Hr E) in Hv. discriminate.
Qed.

Lemma fillStep_count :
  forall profile s r, count s <= count (fillStep FIELD_ALIASES profile s r).
Proof.
  intros profile s r. unfold fillStep.
  destruct (thrown s); [lia|].
  destruct (isUserEdited (page s) r); [lia|].
  destruct (matchKey FIELD_ALIASES (page s) r) as [key|]; [|lia].
  destruct (String.eqb key ""); [lia|].
  destruct (get profile key) as [val|e]; [|simpl; lia].
  destruct (isAbsent val); [lia|].
  destruct (setValue (page s) r val) as [p' ok]. destruct ok; simpl; lia.
Qed.

Lemma fold_count :
  forall profile inputs s,
    count s <= count (fold_left (fillStep FIELD_ALIASES profile) inputs s).
Proof.
  intros profile inputs; induction inputs as [|r rest IH]; intros s; simpl; [lia|].
  pose proof (fillStep_count profile s r). pose proof (IH (fillStep FIELD_ALIASES profile s r)).
  lia.
Qed.

Lemma fold_completes :
  forall profile inputs s,
    thrown (fold_left (fillStep FIELD_ALIASES profile) inputs s) = None -> thrown s = None.
Proof.
  intros profile inputs s H. destruct (thrown s) as [e|] eqn:E; [|reflexivity].
  rewrite (fold_thrown FIELD_ALIASES profile inputs s e E) in H. congruence.
Qed.

Lemma fold_keeps_others :
  forall profile inputs p u s,
    noToggle (document p) u ->
    (forall x, In x inputs -> uid (el x) <> u) ->
    keeps u p (page s) ->
    keeps u p (page (fold_left (fillStep FIELD_ALIASES profile) inputs s)).
Proof.
  intros profile inputs p u s Hu Hne K.
  apply (fold_fillStep_keeps FIELD_ALIASES profile); auto.
  intros r Hr E. exfalso. now apply (Hne r Hr).
Qed.

(** X24.  A matched text field receives the value.  Let the visible
    controls have distinct identities, and let one of them be a text
    input or a textarea without the user-edited flag whose key resolves to
    a value that is not absent.  When the pass completes (no lookup
    raises), the field holds [String(value)] and the highlight, and the
    pass has counted at least this field. *)
Theorem text_field_receives_value :
  forall p profile r key val,
    In r (filter (fun r => offsetParent (el r)) (collectInputsDeep p)) ->
    NoDup (map (fun t => uid (el t))
               (filter (fun r => offsetParent (el r)) (collectInputsDeep p))) ->
    noToggle (document p) (uid (el r)) ->
    plain r -> tagEq (tag (el r)) TSelect = false ->
    isUserEdited p r = false ->
    matchKey FIELD_ALIASES p r = Some key -> key <> "" ->
    get profile key = Ok val -> isAbsent val = false ->
    thrown (fill FIELD_ALIASES p profile) = None ->
    value (stateOf (page (fill FIELD_ALIASES p profile)) r) = toStr val
    /\ outline (stateOf (page (fill FIELD_ALIASES p profile)) r) = highlight
    /\ 1 <= count (fill FIELD_ALIASES p profile).
Proof.
  intros p profile r key val Hin Hnd Hu Hp Hsel Hflag Hkey Hne Hget Habs Hdone.
  unfold fill in *.
  set (inputs := filter (fun r => offsetParent (el r)) (collectInputsDeep p)) in *.
  set (s0 := {| page := p; count := 0; thrown := None |}) in *.
  destruct (in_split r inputs Hin) as [pre [post E]].
  rewrite E in Hnd, Hdone |- *.
  rewrite map_app in Hnd. cbn [map] in Hnd.
  assert (Hpre : forall x, In x pre -> uid (el x) <> uid (el r)).
  { intros x Hx Ex. apply NoDup_remove_2 in Hnd. apply Hnd.
    apply in_or_app. left. rewrite <- Ex.
    exact (in_map (fun t => uid (el t)) pre x Hx). }
  assert (Hpost : forall x, In x post -> uid (el x) <> uid (el r)).
  { intros x Hx Ex. apply NoDup_remove_2 in Hnd. apply Hnd.
    apply in_or_app. right. rewrite <- Ex.
    exact (in_map (fun t => uid (el t)) post x Hx). }
  rewrite fold_left_app in Hdone |- *. cbn [fold_left] in Hdone |- *.
  set (s1 := fold_left (fillStep FIELD_ALIASES profile) pre s0) in *.
  set (s2 := fillStep FIELD_ALIASES profile s1 r) in *.
  assert (K1 : keeps (uid (el r)) p (page s1)).
  { apply fold_keeps_others; auto. apply keeps_refl. }
  assert (T2 : thrown s2 = None) by (apply (fold_completes profile post s2 Hdone)).
  assert (T1 : thrown s1 = None).
  { destruct (thrown s1) as [e|] eqn:T; [|reflexivity].
    assert (X : s2 = s1) by (unfold s2, fillStep; now rewrite T).
    rewrite X in T2. congruence. }
  destruct K1 as [D1 P1].
  assert (U1 : isUserEdited (page s1) r = false).
  { unfold isUserEdited, stateOf in *. now rewrite P1. }
  assert (V : val = coalesce val (VStr ""))
    by (destruct val; try reflexivity; discriminate).
  assert (S2 : s2 = {| page := setOutline
                                 (dispatchEvent
                                    (dispatchEvent
                                       (setValueProp (page s1) r (toStr val)) r "input")
                                    r "change") r highlight;
                       count := S (count s1); thrown := None |}).
  { unfold s2, fillStep. rewrite T1, U1, (matchKey_document FIELD_ALIASES p (page s1) r D1), Hkey.
    destruct (String.eqb_spec key ""); [contradiction|].
    rewrite Hget, Habs, (setValue_plain (page s1) r val U1 Hp), Hsel, <- V.
    reflexivity. }
  assert (W : value (props (page s2) (uid (el r))) = toStr val
              /\ outline (props (page s2) (uid (el r))) = highlight).
  { rewrite S2. cbn [page]. unfold setOutline. cbn [props update value outline].
    rewrite Nat.eqb_refl. cbn [value outline]. split; [|reflexivity].
    destruct (ToggleGroups.dispatchEvent_state
                (dispatchEvent (setValueProp (page s1) r (toStr val)) r "input")
                r "change") as [_ A].
    destruct (ToggleGroups.dispatchEvent_state
                (setValueProp (page s1) r (toStr val)) r "input") as [_ B].
    destruct (A (uid (el r))) as [A1 _]. destruct (B (uid (el r))) as [B1 _].
    rewrite A1, B1. unfold setValueProp. cbn [props update]. now rewrite Nat.eqb_refl. }
  assert (D2 : document (page s2) = document p).
  { destruct (fillStep_evolves FIELD_ALIASES profile s1 r) as [[D _] _].
    fold s2 in D. congruence. }
  assert (K3 : keeps (uid (el r)) (page s2)
                 (page (fold_left (fillStep FIELD_ALIASES profile) post s2))).
  { apply fold_keeps_others; [now rewrite D2 | exact Hpost | apply keeps_refl]. }
  destruct K3 as [_ P3]. unfold stateOf. rewrite P3.
  destruct W as [W1 W2]. split; [exact W1|]. split; [exact W2|].
  pose proof (fold_count profile post s2) as C. rewrite S2 in C at 1. cbn [count] in C. lia.
Qed.

End WithAliases.

(** A hidden honeypot field next to a visible e-mail field. *)
Definition honeypot : Elem :=
  {| uid := 2; tag := TInput; type := "text"; attr_name := Some "email";
     attr_id := None; attr_placeholder := None; attr_ariaLabel := None;
     attr_ariaLabelledby := None; attr_for := None; innerText := "";
     options := []; offsetParent := false |}.

Definition trapPage : Page := pageOf [leaf (input 1 "text" "email"); leaf honeypot].

Definition trapProfile : Value :=
  VObj [("basics", VObj [("email", VStr "ada@example.org")])].

Lemma hidden_control_left_alone_witness :
  props (page (fill aliases trapPage trapProfile)) 2 = props trapPage 2.
Proof.
  apply (hidden_control_left_alone aliases trapPage trapProfile 2).
  - intros t Ht E. vm_compute in Ht.
    destruct Ht as [<-|[<-|[]]]; split; reflexivity.
  - intros r Hr E. vm_compute in Hr.
    destruct Hr as [<-|[<-|[]]]; [discriminate | reflexivity].
Defined.

Definition emailField : Ref :=
  {| r_node := leaf (input 1 "text" "email"); r_up := [];
     r_root := document trapPage; r_inDocument := true |}.

Lemma text_field_receives_value_witness :
  value (stateOf (page (fill aliases trapPage trapProfile)) emailField)
  = toStr (VStr "ada@example.org")
  /\ outline (stateOf (page (fill aliases trapPage trapProfile)) emailField) = highlight
  /\ 1 <= count (fill aliases trapPage trapProfile).
Proof.
  apply (text_field_receives_value aliases trapPage trapProfile emailField
           "basics.email" (VStr "ada@example.org")).
  - vm_compute. now left.
  - vm_compute. repeat constructor; simpl; intuition discriminate.
  - intros t Ht E. vm_compute in Ht.
    destruct Ht as [<-|[<-|[]]]; split; reflexivity.
  - split; reflexivity.
  - reflexivity.
  - reflexivity.
  - reflexivity.
  - discriminate.
  - reflexivity.
  - reflexivity.
  - reflexivity.
Defined.

End FieldWrites.

(* ================================================================== *)
(** ** The gate of [content.ts] over a whole pass *)
(* ================================================================== *)

Module LegacyGate.

Import SecondPass LegacyPasses.

Section WithAliases.

Variable FIELD_ALIASES : list (string * list (string -> bool)).
Variable profile : Value.

Lemma lastWrite_none :
  forall allowDemo p inputs u,
    (forall r, In r inputs -> uid (el r) = u ->
               written FIELD_ALIASES profile allowDemo p r = None) ->
    lastWrite FIELD_ALIASES profile allowDemo p inputs u = None.
Proof.
  intros allowDemo p; induction inputs as [|r rest IH]; intros u H; simpl; [reflexivity|].
  rewrite IH by (intros x Hx; apply H; now right).
  destruct (Nat.eqb_spec u (uid (el r))) as [E|_]; [|reflexivity].
  apply H; [now left | now rewrite E].
Qed.

(** X25.  The gate of [content.ts] holds over the whole pass.  On a
    page whose visible controls are text inputs, textareas and selects,
    [fill(profile, false)] leaves untouched every element whose key
    starts with [demographics.]: its value, its outline and the rest of
    its state are what they were, whatever the profile holds; and with
    [allowDemo] true or false, the count is the number of visible controls
    the pass writes. *)
Theorem legacy_gate_holds_over_pass :
  forall p u,
    (forall r, In r (documentAll p) -> isFormEl r = true ->
               offsetParent (el r) = true -> plain r) ->
    (forall r, In r (documentAll p) -> isFormEl r = true ->
               offsetParent (el r) = true -> uid (el r) = u ->
               exists key, Legacy.matchKey FIELD_ALIASES p r = Some key
                           /\ startsWith key "demographics." = true) ->
    props (fst (Legacy.fill FIELD_ALIASES p profile false)) u = props p u
    /\ forall allowDemo,
         snd (Legacy.fill FIELD_ALIASES p profile allowDemo)
         = List.length
             (filter (writes FIELD_ALIASES profile allowDemo p)
                     (filter (fun r => offsetParent (el r))
                             (filter isFormEl (documentAll p)))).
Proof.
  intros p u Hplain Hdemo.
  set (inputs := filter (fun r => offsetParent (el r)) (filter isFormEl (documentAll p))).
  assert (Hp : forall r, In r inputs -> plain r).
  { intros r Hr. unfold inputs in Hr. apply filter_In in Hr. destruct Hr as [Hr Hv].
    apply filter_In in Hr. destruct Hr as [Hr Hf]. now apply Hplain. }
  split.
  - destruct (legacy_fold FIELD_ALIASES profile false inputs p 0 Hp) as [_ [P _]].
    unfold Legacy.fill. fold inputs.
    change (fold_left (Legacy.fillStep FIELD_ALIASES profile false) inputs (p, 0))
      with (fold_left (stepOf FIELD_ALIASES profile false) inputs (p, 0)).
    rewrite P, lastWrite_none; [reflexivity|].
    intros r Hr E. unfold inputs in Hr. apply filter_In in Hr. destruct Hr as [Hr Hv].
    apply filter_In in Hr. destruct Hr as [Hr Hf].
    destruct (Hdemo r Hr Hf Hv E) as [key [Hk Hd]].
    unfold written. rewrite Hk. destruct (String.eqb key ""); [reflexivity|].
    now rewrite Hd.
  - intros allowDemo.
    destruct (legacy_fold FIELD_ALIASES profile allowDemo inputs p 0 Hp) as [_ [_ C]].
    exact C.
Qed.

End WithAliases.

(** The page with an e-mail field and a veteran field, both text inputs. *)
Definition gatePage : Page :=
  pageOf [leaf (input 1 "text" "email"); leaf (input 2 "text" "veteran")].

Definition gateProfile : Value :=
  VObj [("basics", VObj [("email", VStr "ada@example.org")]);
        ("demographics", VObj [("veteranStatus", VStr "Protected veteran")])].

Lemma legacy_gate_holds_over_pass_witness :
  props (fst (Legacy.fill aliases gatePage gateProfile false)) 2 = props gatePage 2
  /\ forall allowDemo,
       snd (Legacy.fill aliases gatePage gateProfile allowDemo)
       = List.length
           (filter (writes aliases gateProfile allowDemo gatePage)
                   (filter (fun r => offsetParent (el r))
                           (filter isFormEl (documentAll gatePage)))).
Proof.
  apply (legacy_gate_holds_over_pass aliases gateProfile gatePage 2).
  - intros r Hr _ _. vm_compute in Hr.
    destruct Hr as [<-|[<-|[]]]; split; reflexivity.
  - intros r Hr _ _ E. vm_compute in Hr.
    destruct Hr as [<-|[<-|[]]]; [discriminate|].
    exists "demographics.veteran". split; reflexivity.
Defined.

End LegacyGate.
